(** * VoiceGuard: windowing, voice-activity gate, heuristic score, alert
    tracker, engine gate and clip aggregation

  A shallow embedding of the analysis core of the VoiceGuard repository
  (voiceguard/windowing.py, vad.py, dsp/resample.py, preprocess.py,
  features.py, inference/heuristic.py, alerts.py, engine.py, analysis.py,
  the frequency scales of dsp/mel.py and ui/presentation.py) together with
  the properties its specification states about it and further properties
  of the code.

  Conventions of the embedding:
  - Python integers are [Z]; [//] on integers is [Z.div] (both floor).
  - A one-dimensional numpy array is a [list]; audio samples are reals, the
    rounding of float32/float64 arithmetic is not modelled.
  - A Python float that may be a not-a-number or an infinity is a
    [pyfloat]; comparisons with not-a-number are false, as in Python.
  - A call that may raise returns an [outcome]. *)

From Stdlib Require Import ZArith List Lia Reals Lra String Ascii.
From stdpp Require Import base list gmap strings pretty.
Import ListNotations.

Open Scope Z_scope.

(** ** Raising computations *)

Inductive exn : Type :=
| ValueError (msg : string)
| RuntimeError (msg : string)
| OtherError (msg : string).

Inductive outcome (A : Type) : Type :=
| Ok (a : A)
| Raise (e : exn).

Arguments Ok {A} a.
Arguments Raise {A} e.

Definition obind {A B : Type} (m : outcome A) (k : A -> outcome B) : outcome B :=
match m with
| Ok a => k a
| Raise e => Raise e
end.

#[global] Instance outcome_bind : MBind outcome := fun A B k m => obind m k.
#[global] Instance outcome_ret : MRet outcome := fun A a => Ok a.

(** [try: body except Exception: handler]. *)
Definition try_except {A : Type} (body : outcome A) (handler : exn -> outcome A) : outcome A :=
match body with
| Ok a => Ok a
| Raise e => handler e
end.

(** ** Python sequences *)

Module Py.
Section Seq.
Context {A : Type}.

(** Normalisation of one slice bound of a sequence of length [len]:
    negative bounds count from the end, and every bound is clipped to
    [0, len]. *)
Definition slice_bound (len i : Z) : Z :=
  if i <? 0 then Z.max 0 (i + len) else Z.min i len.

(** [l[i:j]]. *)
Definition slice (l : list A) (i j : Z) : list A :=
  let len := Z.of_nat (length l) in
  let lo := slice_bound len i in
  let hi := slice_bound len j in
  take (Z.to_nat (hi - lo)) (drop (Z.to_nat lo) l).

(** [l[i:]]. *)
Definition slice_from (l : list A) (i : Z) : list A :=
  drop (Z.to_nat (slice_bound (Z.of_nat (length l)) i)) l.
End Seq.

(** [range(start, stop, step)] for a positive step; [fuel] bounds the
    number of elements. *)
Fixpoint range_up (fuel : nat) (cur stop step : Z) : list Z :=
  match fuel with
  | O => []
  | S fuel' =>
      if cur <? stop then cur :: range_up fuel' (cur + step) stop step else []
  end.

(** [range(start, stop, step)] for a negative step. *)
Fixpoint range_down (fuel : nat) (cur stop step : Z) : list Z :=
  match fuel with
  | O => []
  | S fuel' =>
      if stop <? cur then cur :: range_down fuel' (cur + step) stop step else []
  end.

(** [list(range(start, stop, step))]; a zero step raises [ValueError]. *)
Definition range (start stop step : Z) : outcome (list Z) :=
  if step =? 0 then Raise (ValueError "range() arg 3 must not be zero")
  else if 0 <? step then Ok (range_up (Z.to_nat (stop - start)) start stop step)
  else Ok (range_down (Z.to_nat (start - stop)) start stop step).
End Py.

(** ** voiceguard/windowing.py *)

Module Windowing.
Section Windows.
(** The sample type and the value [np.zeros] fills with. *)
Context {sample : Type} (zero : sample).

Definition estimate_num_windows (num_samples window_samples hop_samples : Z) : Z :=
  if (num_samples <=? 0) || (window_samples <=? 0) || (hop_samples <=? 0) then 0
  else if num_samples <? window_samples then 1
  else 1 + (num_samples - window_samples) / hop_samples.

(** The pairs the generator [iter_windows] yields, in order. *)
Definition iter_windows (audio : list sample) (window_samples hop_samples : Z)
  : outcome (list (Z * list sample)) :=
  let size := Z.of_nat (length audio) in
  if size =? 0 then Ok []
  else if size <? window_samples then
    let padded := audio ++ replicate (Z.to_nat (window_samples - size)) zero in
    Ok [(0, padded)]
  else
    starts ← Py.range 0 (size - window_samples + 1) hop_samples;
    Ok (map (fun start => (start, Py.slice audio start (start + window_samples))) starts).

Record StreamWindow : Type := mkStreamWindow {
  start_sample : Z;
  samples : list sample
}.

(** The fields of [StreamWindowProcessor]; the sample counts are the ones
    [__init__] derives from the durations with [_sec_to_samples]. *)
Record StreamWindowProcessor : Type := mkProcessor {
  _window_samples : Z;
  _hop_samples : Z;
  _buffer : list sample;
  _buffer_start : Z;
  _total_samples : Z;
  _next_window_start : Z
}.

Definition set_next (p : StreamWindowProcessor) (n : Z) : StreamWindowProcessor :=
  mkProcessor (_window_samples p) (_hop_samples p) (_buffer p) (_buffer_start p)
              (_total_samples p) n.

(** [__init__], after the conversion of the durations to sample counts. *)
Definition new_processor (window_samples hop_samples : Z)
  : outcome StreamWindowProcessor :=
  if window_samples <=? 0 then Raise (ValueError "window_sec is too small (<= 0 samples)")
  else if hop_samples <=? 0 then Raise (ValueError "hop_sec is too small (<= 0 samples)")
  else Ok (mkProcessor window_samples hop_samples [] 0 0 0).

(** The [while] loop of [push]: [windows] is the list built so far. *)
Fixpoint push_loop (fuel : nat) (p : StreamWindowProcessor) (windows : list StreamWindow)
  : StreamWindowProcessor * list StreamWindow :=
  match fuel with
  | O => (p, windows)
  | S fuel' =>
      if _next_window_start p + _window_samples p <=? _total_samples p then
        let start_offset := _next_window_start p - _buffer_start p in
        let '(start_offset, p) :=
          if start_offset <? 0 then (0, set_next p (_buffer_start p))
          else (start_offset, p) in
        let end_offset := start_offset + _window_samples p in
        if Z.of_nat (length (_buffer p)) <? end_offset then (p, windows)
        else
          let window := Py.slice (_buffer p) start_offset end_offset in
          let windows := windows ++ [mkStreamWindow (_next_window_start p) window] in
          push_loop fuel' (set_next p (_next_window_start p + _hop_samples p)) windows
      else (p, windows)
  end.

(** Every iteration that does not leave the loop moves the cursor forward
    by the hop, so this many iterations reach the exit. *)
Definition push_fuel (p : StreamWindowProcessor) : nat :=
  S (Z.to_nat (_total_samples p - _window_samples p - _next_window_start p)).

Definition push (p : StreamWindowProcessor) (chunk : list sample)
  : StreamWindowProcessor * list StreamWindow :=
  if Z.of_nat (length chunk) =? 0 then (p, [])
  else
    let p := mkProcessor (_window_samples p) (_hop_samples p) (_buffer p ++ chunk)
                         (_buffer_start p)
                         (_total_samples p + Z.of_nat (length chunk))
                         (_next_window_start p) in
    let '(p, windows) := push_loop (push_fuel p) p [] in
    let trim := Z.max 0 (_next_window_start p - _buffer_start p) in
    if 0 <? trim then
      (mkProcessor (_window_samples p) (_hop_samples p) (Py.slice_from (_buffer p) trim)
                   (_buffer_start p + trim) (_total_samples p) (_next_window_start p),
       windows)
    else (p, windows).

(** Feeding a stream chunk by chunk, collecting the windows of every push. *)
Fixpoint push_all (p : StreamWindowProcessor) (chunks : list (list sample))
  : StreamWindowProcessor * list StreamWindow :=
  match chunks with
  | [] => (p, [])
  | chunk :: rest =>
      let '(p1, ws) := push p chunk in
      let '(p2, ws') := push_all p1 rest in
      (p2, ws ++ ws')
  end.

Definition as_pair (w : StreamWindow) : Z * list sample :=
  (start_sample w, samples w).

End Windows.
End Windowing.

(** ** Python floats *)

#[global] Instance Rlt_decision : RelDecision Rlt := Rlt_dec.
#[global] Instance Rle_decision : RelDecision Rle := Rle_dec.
#[global] Instance Req_decision : EqDecision R := Req_dec_T.

(** A float is a real, an infinity or not-a-number. Arithmetic is the real
    one, extended to the other values as IEEE 754 extends it; rounding is not
    modelled. *)
Inductive pyfloat : Type :=
| Fin (r : R)
| PosInf
| NegInf
| NaN.

Module Float.
Local Open Scope R_scope.

Definition isnan (x : pyfloat) : bool :=
  match x with NaN => true | _ => false end.

Definition neg (x : pyfloat) : pyfloat :=
  match x with
  | Fin r => Fin (- r)
  | PosInf => NegInf
  | NegInf => PosInf
  | NaN => NaN
  end.

Definition add (x y : pyfloat) : pyfloat :=
  match x, y with
  | NaN, _ | _, NaN => NaN
  | Fin a, Fin b => Fin (a + b)
  | PosInf, NegInf | NegInf, PosInf => NaN
  | PosInf, _ | _, PosInf => PosInf
  | NegInf, _ | _, NegInf => NegInf
  end.

Definition sub (x y : pyfloat) : pyfloat := add x (neg y).

(** The product of an infinity of the given sign with a finite factor. *)
Definition scale_inf (positive : bool) (r : R) : pyfloat :=
  if bool_decide (r = 0) then NaN
  else if bool_decide (0 < r) then (if positive then PosInf else NegInf)
  else (if positive then NegInf else PosInf).

Definition mul (x y : pyfloat) : pyfloat :=
  match x, y with
  | NaN, _ | _, NaN => NaN
  | Fin a, Fin b => Fin (a * b)
  | PosInf, Fin b | Fin b, PosInf => scale_inf true b
  | NegInf, Fin b | Fin b, NegInf => scale_inf false b
  | PosInf, PosInf | NegInf, NegInf => PosInf
  | PosInf, NegInf | NegInf, PosInf => NegInf
  end.

(** Division by a float literal of the source: every divisor there is a
    non-zero constant. *)
Definition div_const (x : pyfloat) (d : R) : pyfloat := mul x (Fin (/ d)).

(** [1.0 / x]; Python raises [ZeroDivisionError] on a zero [x]. *)
Definition inv (x : pyfloat) : outcome pyfloat :=
  match x with
  | Fin r => if bool_decide (r = 0) then Raise (OtherError "float division by zero")
             else Ok (Fin (/ r))
  | PosInf | NegInf => Ok (Fin 0)
  | NaN => Ok NaN
  end.

Definition abs (x : pyfloat) : pyfloat :=
  match x with
  | Fin r => Fin (Rabs r)
  | PosInf | NegInf => PosInf
  | NaN => NaN
  end.

(** [math.exp]; the overflow of large arguments is not modelled. *)
Definition exp (x : pyfloat) : pyfloat :=
  match x with
  | Fin r => Fin (Rtrigo_def.exp r)
  | PosInf => PosInf
  | NegInf => Fin 0
  | NaN => NaN
  end.

(** [x < y]; false as soon as one side is not-a-number. *)
Definition lt (x y : pyfloat) : bool :=
  match x, y with
  | NaN, _ | _, NaN => false
  | Fin a, Fin b => bool_decide (a < b)
  | NegInf, NegInf => false
  | NegInf, _ => true
  | _, PosInf => match x with PosInf => false | _ => true end
  | _, _ => false
  end.

(** [x <= y]. *)
Definition le (x y : pyfloat) : bool :=
  match x, y with
  | NaN, _ | _, NaN => false
  | Fin a, Fin b => bool_decide (a <= b)
  | NegInf, _ => true
  | _, PosInf => true
  | _, _ => false
  end.

Definition gt (x y : pyfloat) : bool := lt y x.
Definition ge (x y : pyfloat) : bool := le y x.

(** The builtin [max(a, b)]: [b] when [b > a], else [a]. *)
Definition max (a b : pyfloat) : pyfloat := if gt b a then b else a.

(** The builtin [min(a, b)]: [b] when [b < a], else [a]. *)
Definition min (a b : pyfloat) : pyfloat := if lt b a then b else a.

(** [_clamp] of heuristic.py and engine.py. *)
Definition _clamp (x lo hi : pyfloat) : pyfloat := min (max x lo) hi.

(** The builtins on floats known to be finite. *)
Definition rmax (a b : R) : R := if bool_decide (a < b) then b else a.
Definition rmin (a b : R) : R := if bool_decide (b < a) then b else a.

(** [math.floor]. *)
Definition floor (x : R) : Z := Int_part x.

(** [int(x)]: truncation towards zero. *)
Definition to_int (x : R) : Z :=
  if bool_decide (0 <= x) then Int_part x else (- Int_part (- x))%Z.

(** [round(x)]: to the nearest integer, ties to the even one. *)
Definition round (x : R) : Z :=
  let f := Int_part x in
  let d := x - IZR f in
  if bool_decide (d < / 2) then f
  else if bool_decide (/ 2 < d) then (f + 1)%Z
  else if Z.even f then f else (f + 1)%Z.
End Float.

(** ** voiceguard/alerts.py

    Times, the threshold and the durations are finite floats, hence reals;
    the probability is any float. *)

Module Alerts.
Local Open Scope R_scope.

Record AlertSegment : Type := mkAlertSegment {
  start_sec : R;
  end_sec : R
}.

Record AlertTracker : Type := mkAlertTracker {
  _threshold : R;
  _hold_sec : R;
  _step_sec : R;
  _above_sec : R;
  _active : bool;
  _active_start : R;
  _segments : list AlertSegment
}.

(** [AlertTracker.__init__]. *)
Definition new_tracker (threshold hold_sec step_sec : R) : AlertTracker :=
  mkAlertTracker threshold hold_sec step_sec 0 false 0 [].

Definition segments (tr : AlertTracker) : list AlertSegment := _segments tr.

Definition active (tr : AlertTracker) : bool := _active tr.

(** The three statements that close the alert: append the open segment, if
    any, then clear [_active] and [_above_sec]. *)
Definition close_alert (tr : AlertTracker) (t_end : R) : AlertTracker :=
  let segs :=
    if _active tr then _segments tr ++ [mkAlertSegment (_active_start tr) t_end]
    else _segments tr in
  mkAlertTracker (_threshold tr) (_hold_sec tr) (_step_sec tr) 0 false
                 (_active_start tr) segs.

(** [AlertTracker.update]: the tracker after the call and the value returned. *)
Definition update (tr : AlertTracker) (t_start t_end : R) (p : pyfloat) (is_speech : bool)
  : AlertTracker * bool :=
  if negb is_speech then (close_alert tr t_end, false)
  else if Float.ge p (Fin (_threshold tr)) then
    let above := _above_sec tr + _step_sec tr in
    if negb (_active tr) && bool_decide (_hold_sec tr <= above) then
      let tr' := mkAlertTracker (_threshold tr) (_hold_sec tr) (_step_sec tr) above true
                                (Float.rmax t_start (t_end - above)) (_segments tr) in
      (tr', true)
    else
      let tr' := mkAlertTracker (_threshold tr) (_hold_sec tr) (_step_sec tr) above
                                (_active tr) (_active_start tr) (_segments tr) in
      (tr', _active tr)
  else (close_alert tr t_end, false).

(** [AlertTracker.finalize]. *)
Definition finalize (tr : AlertTracker) (t_end : R) : AlertTracker :=
  close_alert tr t_end.

(** One call of [update], by its arguments. *)
Record call : Type := mkCall {
  c_start : R;
  c_end : R;
  c_p : pyfloat;
  c_speech : bool
}.

(** A sequence of [update] calls, in order. *)
Definition run (tr : AlertTracker) (calls : list call) : AlertTracker :=
  fold_left (fun tr c => fst (update tr (c_start c) (c_end c) (c_p c) (c_speech c))) calls tr.

End Alerts.

(** ** voiceguard/vad.py *)

Module Vad.
Local Open Scope R_scope.

Definition log10 (x : R) : R := ln x / ln 10.

(** [np.mean] of a non-empty array. *)
Definition mean (l : list R) : R := fold_right Rplus 0 l / INR (length l).

Definition square (x : R) : R := x * x.

Definition default_eps : R := / 10 ^ 12.

(** [np.log10] of a float: minus infinity at zero, not-a-number below. *)
Definition np_log10 (x : R) : pyfloat :=
  if bool_decide (0 < x) then Fin (log10 x)
  else if bool_decide (x = 0) then NegInf
  else NaN.

Definition rms_db (audio : list R) (eps : R) : pyfloat :=
  if (length audio =? 0)%nat then NegInf
  else
    let rms := sqrt (mean (map square audio)) in
    Float.mul (Fin 20) (np_log10 (rms + eps)).

Definition is_speech_window (audio : list R) (threshold_db : pyfloat) : bool :=
  Float.gt (rms_db audio default_eps) threshold_db.

End Vad.

(** ** voiceguard/dsp/resample.py and voiceguard/preprocess.py *)

(** What the embedding takes from outside the repository: scipy's
    polyphase resampler ([None] when scipy cannot be imported), numpy's
    transforms and statistics, the enhancer of dsp/enhance.py with its scipy
    filters, the log-mel front end and the two model runtimes. *)
Class External : Type := {
  Enhancer : Type;
  Onnx : Type;
  Hf : Type;
  Mel : Type;
  (** [scipy.signal.resample_poly(audio, up, down)]. *)
  resample_poly : option (list R -> Z -> Z -> list R);
  (** The numpy part of [spectral_indicators], for a non-empty signal:
      centroid, bandwidth, roll-off, high-frequency ratio, flatness. *)
  spectral_fft : list R -> Z -> pyfloat * pyfloat * pyfloat * pyfloat * pyfloat;
  enhancer_reset : Enhancer -> Enhancer;
  enhancer_update_noise : Enhancer -> list R -> Enhancer;
  enhancer_process : Enhancer -> list R -> Enhancer * list R;
  log_mel_spectrogram_with_filterbank : list R -> outcome Mel;
  onnx_predict : Onnx -> Mel -> outcome (pyfloat * Onnx);
  hf_predict : Hf -> list R -> Z -> outcome (pyfloat * pyfloat * Hf);
  np_mean : list pyfloat -> pyfloat;
  np_max : list pyfloat -> pyfloat;
  np_min : list pyfloat -> pyfloat;
  np_median : list pyfloat -> pyfloat;
  np_quantile : list pyfloat -> R -> pyfloat
}.

Module Preprocess.
Section WithExternal.
Context `{External}.
Local Open Scope R_scope.

Definition resample_audio (audio : list R) (orig_sr target_sr : Z) : outcome (list R) :=
  if (orig_sr =? target_sr)%Z then Ok audio
  else
    match resample_poly with
    | None => Raise (RuntimeError "scipy is required for resampling")
    | Some resample =>
        let g := Z.gcd orig_sr target_sr in
        let up := (target_sr / g)%Z in
        let down := (orig_sr / g)%Z in
        if (length audio =? 0)%nat then Ok audio
        else Ok (resample audio up down)
    end.

(** [np.max(np.abs(audio))] of a non-empty array. *)
Definition max_abs (audio : list R) : R :=
  fold_right (fun x m => Rmax (Rabs x) m) 0 audio.

Definition normalize_audio (audio : list R) (peak : R) : list R :=
  let audio :=
    if (length audio =? 0)%nat then audio
    else map (fun x => x - Vad.mean audio) audio in
  let max_abs := if (length audio =? 0)%nat then 0 else max_abs audio in
  if bool_decide (max_abs <= 0) then audio
  else map (fun x => x / max_abs * peak) audio.

(** [preprocess_audio] on a one-dimensional array, on which [to_mono]
    changes nothing. *)
Definition preprocess_audio (audio : list R) (orig_sr target_sr : Z) (normalize : bool)
  : outcome (list R) :=
  audio_rs ← resample_audio audio orig_sr target_sr;
  Ok (if normalize then normalize_audio audio_rs (99 / 100) else audio_rs).

End WithExternal.
End Preprocess.

(** ** voiceguard/features.py *)

Module Features.
Section WithExternal.
Context `{External}.
Local Open Scope R_scope.

(** [np.signbit] of a real sample. *)
Definition signbit (x : R) : bool := bool_decide (x < 0).

(** The number of places where [signs[1:] != signs[:-1]]. *)
Fixpoint sign_flips (signs : list bool) : nat :=
  match signs with
  | a :: (b :: _) as rest => ((if Bool.eqb a b then 0 else 1) + sign_flips rest)%nat
  | _ => 0%nat
  end.

Definition zero_crossing_rate (audio : list R) : R :=
  if (length audio <? 2)%nat then 0
  else INR (sign_flips (map signbit audio)) / INR (length audio - 1).

Definition spectral_indicators (audio : list R) (sample_rate : Z) : gmap string pyfloat :=
  let '(centroid, bandwidth, rolloff_hz, hf_ratio, flatness) :=
    if (length audio =? 0)%nat then (Fin 0, Fin 0, Fin 0, Fin 0, Fin 0)
    else spectral_fft audio sample_rate in
  <["spectral_centroid_hz" := centroid]>
    (<["spectral_bandwidth_hz" := bandwidth]>
      (<["spectral_rolloff_hz" := rolloff_hz]>
        (<["hf_energy_ratio" := hf_ratio]>
          (<["spectral_flatness" := flatness]> ∅)))).

(** [indicators.update(other)]: the entries of [other] win. *)
Definition dict_update (indicators other : gmap string pyfloat) : gmap string pyfloat :=
  other ∪ indicators.

Definition extract_indicators (audio : list R) (sample_rate : Z) : gmap string pyfloat :=
  let indicators : gmap string pyfloat := ∅ in
  let indicators := <["rms_db" := Vad.rms_db audio Vad.default_eps]> indicators in
  let indicators := <["zcr" := Fin (zero_crossing_rate audio)]> indicators in
  dict_update indicators (spectral_indicators audio sample_rate).

End WithExternal.
End Features.

(** ** voiceguard/inference/heuristic.py *)

Module Heuristic.
Local Open Scope R_scope.

(** [indicators.get(key, default)]. *)
Definition get (indicators : gmap string pyfloat) (key : string) (dflt : pyfloat) : pyfloat :=
  default dflt (indicators !! key).

(** [1.0 / (1.0 + math.exp(-x))]. *)
Definition _sigmoid (x : pyfloat) : outcome pyfloat :=
  Float.inv (Float.add (Fin 1) (Float.exp (Float.neg x))).

Definition heuristic_reasons (indicators : gmap string pyfloat) : list string :=
  let hf_ratio := get indicators "hf_energy_ratio" (Fin 0) in
  let rolloff_hz := get indicators "spectral_rolloff_hz" (Fin 0) in
  let flatness := get indicators "spectral_flatness" (Fin 0) in
  let reasons := [] in
  let reasons :=
    if Float.lt hf_ratio (Fin (2 / 100))
    then reasons ++ ["низкая доля энергии в ВЧ (возможен срез/кодек/TTS)"%string]
    else reasons in
  let reasons :=
    if Float.lt rolloff_hz (Fin 3200)
    then reasons ++ ["низкий spectral roll-off (возможен срез ВЧ)"%string]
    else reasons in
  let reasons :=
    if Float.lt flatness (Fin (8 / 100))
    then reasons ++ ["низкая spectral flatness (слишком 'стерильно/тонально')"%string]
    else reasons in
  reasons.

(** The weighted sum of the three deficiency scores. *)
Definition raw_score (indicators : gmap string pyfloat) : pyfloat :=
  let hf_ratio := get indicators "hf_energy_ratio" (Fin 0) in
  let rolloff_hz := get indicators "spectral_rolloff_hz" (Fin 0) in
  let flatness := get indicators "spectral_flatness" (Fin 0) in
  let cutoff_score :=
    Float._clamp (Float.div_const (Float.sub (Fin (6 / 100)) hf_ratio) (6 / 100))
                 (Fin 0) (Fin 1) in
  let rolloff_score :=
    Float._clamp (Float.div_const (Float.sub (Fin 4200) rolloff_hz) 4200) (Fin 0) (Fin 1) in
  let flat_score :=
    Float._clamp (Float.div_const (Float.sub (Fin (12 / 100)) flatness) (12 / 100))
                 (Fin 0) (Fin 1) in
  Float.add (Float.add (Float.mul (Fin (50 / 100)) cutoff_score)
                       (Float.mul (Fin (35 / 100)) rolloff_score))
            (Float.mul (Fin (15 / 100)) flat_score).

Definition heuristic_p_fake (indicators : gmap string pyfloat)
  : outcome (pyfloat * list string) :=
  let raw := raw_score indicators in
  p_fake ← _sigmoid (Float.mul (Float.sub raw (Fin (35 / 100))) (Fin 7));
  let reasons := heuristic_reasons indicators in
  Ok (Float._clamp p_fake (Fin 0) (Fin 1), reasons).

End Heuristic.

(** ** voiceguard/types.py and the configuration the core reads *)

Record InferenceResult : Type := mkInferenceResult {
  p_fake : pyfloat;
  p_fake_smooth : pyfloat;
  confidence : pyfloat;
  is_speech : bool;
  indicators : gmap string pyfloat;
  reasons : list string
}.

Record WindowScore : Type := mkWindowScore {
  t_start : R;
  t_end : R;
  result : InferenceResult
}.

(** The fields of [AppConfig] the analysis reads; [ema_alpha] is
    [smoothing.ema_alpha] and [rms_db_threshold] is [vad.rms_db_threshold]. *)
Record AppConfig : Type := mkAppConfig {
  sample_rate : Z;
  window_sec : R;
  hop_sec : R;
  alert_threshold : R;
  alert_hold_sec : R;
  ema_alpha : R;
  rms_db_threshold : R
}.

(** The value of [VoiceGuardEngine.backend]. *)
Inductive Backend : Type :=
| heuristic
| onnx
| hf.

Definition backend_name (b : Backend) : string :=
  match b with
  | heuristic => "heuristic"
  | onnx => "onnx"
  | hf => "hf"
  end.

(** ** voiceguard/engine.py *)

Module Engine.
Section WithExternal.
Context `{External}.
Local Open Scope R_scope.

(** The state of a constructed [VoiceGuardEngine]. The constructor, which
    looks for model files, is outside the embedding: an engine is given with
    the backend it settled on. *)
Record VoiceGuardEngine : Type := mkEngine {
  _config : AppConfig;
  _backend_in_use : Backend;
  _target_sr : Z;
  _ema_alpha : R;
  _ema : option pyfloat;
  _enhancer : option Enhancer;
  _onnx : option Onnx;
  _hf : option Hf
}.

Definition backend (e : VoiceGuardEngine) : Backend := _backend_in_use e.

Definition set_enhancer (e : VoiceGuardEngine) (enh : option Enhancer) : VoiceGuardEngine :=
  mkEngine (_config e) (_backend_in_use e) (_target_sr e) (_ema_alpha e) (_ema e)
           enh (_onnx e) (_hf e).

Definition set_ema (e : VoiceGuardEngine) (ema : option pyfloat) : VoiceGuardEngine :=
  mkEngine (_config e) (_backend_in_use e) (_target_sr e) (_ema_alpha e) ema
           (_enhancer e) (_onnx e) (_hf e).

Definition set_onnx (e : VoiceGuardEngine) (m : option Onnx) : VoiceGuardEngine :=
  mkEngine (_config e) (_backend_in_use e) (_target_sr e) (_ema_alpha e) (_ema e)
           (_enhancer e) m (_hf e).

Definition set_hf (e : VoiceGuardEngine) (m : option Hf) : VoiceGuardEngine :=
  mkEngine (_config e) (_backend_in_use e) (_target_sr e) (_ema_alpha e) (_ema e)
           (_enhancer e) (_onnx e) m.

Definition reset_state (e : VoiceGuardEngine) : VoiceGuardEngine :=
  let e := set_ema e None in
  match _enhancer e with
  | Some enh => set_enhancer e (Some (enhancer_reset enh))
  | None => e
  end.

(** The dispatch on the backend: the probability, the reasons, the model's
    confidence, and the engine with the model that ran. *)
Definition run_backend (e : VoiceGuardEngine) (audio_proc : list R)
           (indicators : gmap string pyfloat)
  : outcome (pyfloat * list string * pyfloat * VoiceGuardEngine) :=
  match backend e with
  | onnx =>
      match _onnx e with
      | None => Raise (RuntimeError "model.backend=onnx but ONNX model is not initialized.")
      | Some model =>
          let audio_norm := Preprocess.normalize_audio audio_proc (99 / 100) in
          log_mel ← log_mel_spectrogram_with_filterbank audio_norm;
          '(p_fake, model) ← onnx_predict model log_mel;
          let reasons := Heuristic.heuristic_reasons indicators in
          let model_confidence := Float.mul (Float.abs (Float.sub p_fake (Fin (/ 2)))) (Fin 2) in
          Ok (p_fake, reasons, model_confidence, set_onnx e (Some model))
      end
  | hf =>
      match _hf e with
      | None => Raise (RuntimeError "model.backend=hf but HF model is not initialized.")
      | Some model =>
          '(p_fake, model_confidence, model) ← hf_predict model audio_proc (_target_sr e);
          let reasons := Heuristic.heuristic_reasons indicators in
          Ok (p_fake, reasons, model_confidence, set_hf e (Some model))
      end
  | heuristic =>
      '(p_fake, reasons) ← Heuristic.heuristic_p_fake indicators;
      let model_confidence := Float.mul (Float.abs (Float.sub p_fake (Fin (/ 2)))) (Fin 2) in
      Ok (p_fake, reasons, model_confidence, e)
  end.

(** [infer_window]: the result and the engine after the call. *)
Definition infer_window (e : VoiceGuardEngine) (audio : list R) (orig_sr : Z)
  : outcome (InferenceResult * VoiceGuardEngine) :=
  audio_rs ← Preprocess.preprocess_audio audio orig_sr (_target_sr e) false;
  let raw_indicators := Features.extract_indicators audio_rs (_target_sr e) in
  let rms_db := Heuristic.get raw_indicators "rms_db" NegInf in
  let threshold := Fin (rms_db_threshold (_config e)) in
  let is_speech := Float.gt rms_db threshold in
  if negb is_speech then
    let e :=
      match _enhancer e with
      | Some enh => set_enhancer e (Some (enhancer_update_noise enh audio_rs))
      | None => e
      end in
    Ok (mkInferenceResult NaN NaN (Fin 0) false raw_indicators [], e)
  else
    let '(e, audio_proc) :=
      match _enhancer e with
      | Some enh =>
          let '(enh, out) := enhancer_process enh audio_rs in
          (set_enhancer e (Some enh), out)
      | None => (e, audio_rs)
      end in
    let indicators := Features.extract_indicators audio_proc (_target_sr e) in
    '(p_fake, reasons, model_confidence, e) ← run_backend e audio_proc indicators;
    let ema :=
      match _ema e with
      | None => p_fake
      | Some ema =>
          Float.add (Float.mul (Fin (_ema_alpha e)) p_fake)
                    (Float.mul (Fin (1 - _ema_alpha e)) ema)
      end in
    let e := set_ema e (Some ema) in
    let p_smooth := ema in
    let quality :=
      Float._clamp (Float.div_const (Float.sub rms_db threshold) 30) (Fin 0) (Fin 1) in
    let conf := Float._clamp model_confidence (Fin 0) (Fin 1) in
    let confidence :=
      Float._clamp
        (Float.add (Fin (15 / 100))
           (Float.mul (Fin (85 / 100))
              (Float.add (Float.mul (Fin (60 / 100)) quality)
                         (Float.mul (Fin (40 / 100)) conf))))
        (Fin 0) (Fin 1) in
    Ok (mkInferenceResult (Float._clamp p_fake (Fin 0) (Fin 1))
                          (Float._clamp p_smooth (Fin 0) (Fin 1))
                          confidence true indicators reasons, e).

End WithExternal.
End Engine.

(** ** voiceguard/analysis.py, with the float half of windowing.py *)

Module Analysis.
Import Alerts Engine.
Section WithExternal.
Context `{External}.
Local Open Scope R_scope.

(** [str.lower] on the ASCII letters. *)
Definition lower_ascii (c : ascii) : ascii :=
  let n := nat_of_ascii c in
  if ((65 <=? n) && (n <=? 90))%nat then ascii_of_nat (n + 32) else c.

Fixpoint lower (s : string) : string :=
  match s with
  | EmptyString => EmptyString
  | String c rest => String (lower_ascii c) (lower rest)
  end.

Definition _sec_to_samples (sec : R) (sample_rate : Z) : Z :=
  Float.round (sec * IZR sample_rate).

Definition window_params (sample_rate : Z) (window_sec hop_sec : R) : outcome (Z * Z) :=
  let window_samples := _sec_to_samples window_sec sample_rate in
  let hop_samples := _sec_to_samples hop_sec sample_rate in
  if (window_samples <=? 0)%Z then Raise (ValueError "window_sec is too small (<= 0 samples)")
  else if (hop_samples <=? 0)%Z then Raise (ValueError "hop_sec is too small (<= 0 samples)")
  else Ok (window_samples, hop_samples).

Record AnalysisSummary : Type := mkAnalysisSummary {
  total_windows : Z;
  speech_windows : Z;
  duration_sec : R;
  p_fake_overall : pyfloat;
  p_fake_median : pyfloat;
  p_fake_p95 : pyfloat;
  p_fake_mean : pyfloat;
  p_fake_max : pyfloat;
  fake_fraction : pyfloat;
  confidence_mean : pyfloat;
  confidence_min : pyfloat;
  alert_segments : list AlertSegment
}.

(** [AnalysisResult] without its creation time and backend note. *)
Record AnalysisResult : Type := mkAnalysisResult {
  source_kind : string;
  source : string;
  res_sample_rate : Z;
  res_window_sec : R;
  res_hop_sec : R;
  res_backend : string;
  windows : list WindowScore;
  summary : AnalysisSummary
}.

(** The hold duration the tracker is built with. *)
Definition effective_hold_sec (config : AppConfig) (source_kind : string) : R :=
  let hold_sec := alert_hold_sec config in
  if String.eqb (lower source_kind) "file" then Float.rmin hold_sec (hop_sec config)
  else hold_sec.

(** The tracker [analyze_audio] constructs. *)
Definition make_alert (config : AppConfig) (source_kind : string) : AlertTracker :=
  new_tracker (alert_threshold config) (effective_hold_sec config source_kind)
              (hop_sec config).

Definition use_raw_for_alert (source_kind : string) : bool :=
  String.eqb (lower source_kind) "file".

(** The probability handed to the tracker for a speech window. *)
Definition p_alert (source_kind : string) (result : InferenceResult) : pyfloat :=
  if use_raw_for_alert source_kind then p_fake result else p_fake_smooth result.

(** What the loop over the windows carries. *)
Record LoopState : Type := mkLoopState {
  ls_engine : VoiceGuardEngine;
  ls_alert : AlertTracker;
  ls_windows : list WindowScore
}.

(** One turn of the loop over [iter_windows]; the optional progress callback
    is left out. *)
Definition score_window (target_sr window_samples : Z) (source_kind : string)
           (st : LoopState) (item : Z * list R) : outcome LoopState :=
  let '(start, win) := item in
  let t_start := IZR start / IZR target_sr in
  let t_end := IZR (start + window_samples) / IZR target_sr in
  '(result, engine) ← infer_window (ls_engine st) win target_sr;
  let windows := ls_windows st ++ [mkWindowScore t_start t_end result] in
  let alert :=
    if is_speech result then
      fst (update (ls_alert st) t_start t_end (p_alert source_kind result) true)
    else fst (update (ls_alert st) t_start t_end (Fin 0) false) in
  Ok (mkLoopState engine alert windows).

Fixpoint score_windows (target_sr window_samples : Z) (source_kind : string)
         (items : list (Z * list R)) (st : LoopState) : outcome LoopState :=
  match items with
  | [] => Ok st
  | item :: rest =>
      st ← score_window target_sr window_samples source_kind st item;
      score_windows target_sr window_samples source_kind rest st
  end.

(** [alert.finalize] at the end of the last window, when there is one. *)
Definition finalize_alert (alert : AlertTracker) (windows : list WindowScore) : AlertTracker :=
  match last windows with
  | Some w => finalize alert (t_end w)
  | None => alert
  end.

(** The probabilities of the speech windows that are numbers. *)
Definition speech_p_vals (windows : list WindowScore) : list pyfloat :=
  map (fun w => p_fake (result w))
      (List.filter (fun w => is_speech (result w) && negb (Float.isnan (p_fake (result w))))
                   windows).

Definition first_speech_start (windows : list WindowScore) : R :=
  match List.find (fun w => is_speech (result w)) windows with
  | Some w => t_start w
  | None => 0
  end.

(** The segment the whole-clip inference runs on, when it is not empty. *)
Definition clip_audio (windows : list WindowScore) (audio_rs : list R) (target_sr : Z)
  : option (list R) :=
  let start := Float.to_int (first_speech_start windows * IZR target_sr) in
  let clip_len := Z.min (Z.of_nat (length audio_rs) - start)
                        (Float.to_int (IZR target_sr * 12)) in
  if (0 <? clip_len)%Z then Some (Py.slice audio_rs start (start + clip_len))
  else None.

(** The body of the [try] block: the score of the whole clip. *)
Definition clip_score (engine : VoiceGuardEngine) (windows : list WindowScore)
           (audio_rs : list R) (target_sr : Z) (p_p95 : pyfloat) : outcome pyfloat :=
  match clip_audio windows audio_rs target_sr with
  | Some clip =>
      '(clip_res, _) ← infer_window engine clip target_sr;
      if is_speech clip_res && negb (Float.isnan (p_fake clip_res))
      then Ok (p_fake clip_res)
      else Ok p_p95
  | None => Ok p_p95
  end.

(** [p_clip] after the [try] statement. *)
Definition whole_clip (engine : VoiceGuardEngine) (windows : list WindowScore)
           (audio_rs : list R) (target_sr : Z) (p_vals : list pyfloat) (p_p95 : pyfloat)
  : outcome pyfloat :=
  if String.eqb (lower (backend_name (backend engine))) "hf" && negb (length p_vals =? 0)%nat
  then try_except (clip_score engine windows audio_rs target_sr p_p95) (fun _ => Ok p_p95)
  else Ok p_p95.

(** The aggregation that follows the loop. *)
Definition summarize (engine : VoiceGuardEngine) (alert : AlertTracker)
           (windows : list WindowScore) (audio_rs : list R) (config : AppConfig)
           (target_sr total : Z) : outcome AnalysisSummary :=
  let p_vals := speech_p_vals windows in
  let conf_vals :=
    map (fun w => confidence (result w))
        (List.filter (fun w => is_speech (result w)) windows) in
  let some (l : list pyfloat) := negb (length l =? 0)%nat in
  let speech_windows := Z.of_nat (length p_vals) in
  let p_mean := if some p_vals then np_mean p_vals else Fin 0 in
  let p_max := if some p_vals then np_max p_vals else Fin 0 in
  let p_median := if some p_vals then np_median p_vals else Fin 0 in
  let p_p95 := if some p_vals then np_quantile p_vals (95 / 100) else Fin 0 in
  let fake_fraction :=
    if some p_vals
    then np_mean (map (fun p => if Float.ge p (Fin (alert_threshold config))
                                then Fin 1 else Fin 0) p_vals)
    else Fin 0 in
  let conf_mean := if some conf_vals then np_mean conf_vals else Fin 0 in
  let conf_min := if some conf_vals then np_min conf_vals else Fin 0 in
  let duration_sec :=
    if (0 <? target_sr)%Z then INR (length audio_rs) / IZR target_sr else 0 in
  p_clip ← whole_clip engine windows audio_rs target_sr p_vals p_p95;
  let p_overall := Float.max p_p95 p_clip in
  Ok (mkAnalysisSummary total speech_windows duration_sec p_overall p_median p_p95
                        p_mean p_max fake_fraction conf_mean conf_min (segments alert)).

(** [analyze_audio] on a one-dimensional signal; [engine] is the engine the
    function constructs from the configuration. *)
Definition analyze_audio (engine : VoiceGuardEngine) (audio : list R) (orig_sr : Z)
           (config : AppConfig) (source_kind source : string) : outcome AnalysisResult :=
  let target_sr := sample_rate config in
  audio_rs ← Preprocess.preprocess_audio audio orig_sr target_sr false;
  '(window_samples, hop_samples) ←
    window_params target_sr (window_sec config) (hop_sec config);
  let total :=
    Windowing.estimate_num_windows (Z.of_nat (length audio_rs)) window_samples hop_samples in
  let engine := reset_state engine in
  let alert := make_alert config source_kind in
  items ← Windowing.iter_windows 0 audio_rs window_samples hop_samples;
  st ← score_windows target_sr window_samples source_kind items
         (mkLoopState engine alert []);
  let alert := finalize_alert (ls_alert st) (ls_windows st) in
  summary ← summarize (ls_engine st) alert (ls_windows st) audio_rs config target_sr total;
  Ok (mkAnalysisResult source_kind source target_sr (window_sec config) (hop_sec config)
                       (backend_name (backend (ls_engine st))) (ls_windows st) summary).

End WithExternal.
End Analysis.

(** ** voiceguard/ui/presentation.py *)

Module Presentation.
Local Open Scope R_scope.

Record Verdict : Type := mkVerdict {
  title : string;
  subtitle : string;
  color : string
}.

(** The expression [max(0.0, min(1.0, float(x)))] of the three functions. *)
Definition unit_clip (x : pyfloat) : pyfloat := Float.max (Fin 0) (Float.min (Fin 1) x).

(** The format [:.0f]: the nearest integer, ties to the even one, with the
    sign of a negative number kept when it rounds to zero. *)
Definition format_0f (x : pyfloat) : string :=
  match x with
  | Fin r =>
      if bool_decide (r < 0) && (Float.round r =? 0)%Z then "-0"%string
      else pretty (Float.round r)
  | PosInf => "inf"
  | NegInf => "-inf"
  | NaN => "nan"
  end.

Definition format_percent (p : option pyfloat) : string :=
  match p with
  | None => "—"
  | Some p => (format_0f (Float.mul (unit_clip p) (Fin 100)) +:+ "%")%string
  end.

Definition confidence_label (confidence : pyfloat) : string :=
  let c := unit_clip confidence in
  if Float.lt c (Fin (34 / 100)) then "низкая"
  else if Float.lt c (Fin (67 / 100)) then "средняя"
  else "высокая".

Definition make_verdict (p_fake : option pyfloat) (confidence threshold : pyfloat) : Verdict :=
  match p_fake with
  | None =>
      mkVerdict "Нет данных" "Говорите в микрофон или выберите файл для анализа." "#94a3b8"
  | Some p_fake =>
      let p := unit_clip p_fake in
      let th := unit_clip threshold in
      let conf_txt := confidence_label confidence in
      let conf_pct := format_percent (Some confidence) in
      if Float.ge p th then
        mkVerdict "Высокая вероятность: голос сгенерирован ИИ (не человек)"
                  ("Уверенность: " +:+ conf_txt +:+ " (" +:+ conf_pct +:+
                   "). Это вероятностная оценка, не 100% доказательство.")
                  "#ef4444"
      else if Float.ge p (Float.mul th (Fin (60 / 100))) then
        mkVerdict "Есть признаки синтетического голоса (возможен ИИ)"
                  ("Уверенность: " +:+ conf_txt +:+ " (" +:+ conf_pct +:+
                   "). Проверьте источник/условия записи.")
                  "#f59e0b"
      else
        mkVerdict "Похоже на реальный голос человека (не ИИ)"
                  ("Уверенность: " +:+ conf_txt +:+ " (" +:+ conf_pct +:+
                   "). Всё равно учитывайте контекст и риски мошенничества.")
                  "#22c55e"
  end.

End Presentation.

(** ** voiceguard/dsp/mel.py: the two frequency scales *)

Module Mel.
Local Open Scope R_scope.

Definition _hz_to_mel (hz : R) : pyfloat :=
  Float.mul (Fin 2595) (Vad.np_log10 (1 + hz / 700)).

(** [np.power(10.0, x)]. *)
Definition power10 (x : pyfloat) : pyfloat :=
  match x with
  | Fin r => Fin (Rpower 10 r)
  | PosInf => PosInf
  | NegInf => Fin 0
  | NaN => NaN
  end.

Definition _mel_to_hz (mel : pyfloat) : pyfloat :=
  Float.mul (Fin 700) (Float.sub (power10 (Float.div_const mel 2595)) (Fin 1)).

End Mel.

(** * Notions the properties are stated with *)

Module PyNotions.
Import Py.

(** The range with the fuel [Py.range] gives it. *)
Definition rng (cur stop step : Z) : list Z :=
  range_up (Z.to_nat (stop - cur)) cur stop step.

End PyNotions.

Module WindowingNotions.
Import Py PyNotions Windowing.
Section Notions.
Context {sample : Type}.
Implicit Types (s : list sample) (p : StreamWindowProcessor (sample := sample)).

(** The window of [s] that starts at [start]. *)
Definition window_at (w : Z) s (start : Z) : StreamWindow :=
  mkStreamWindow start (slice s start (start + w)).

(** The windows of [s] that lie whole inside it, from [cur] on. *)
Definition whole_windows (w hop : Z) s (cur : Z) : list StreamWindow :=
  map (window_at w s) (rng cur (Z.of_nat (length s) - w + 1) hop).

(** What holds of a processor between two pushes, [s] being the stream
    pushed so far. *)
Record consistent (w hop : Z) p s : Prop := mkConsistent {
  cs_window : _window_samples p = w;
  cs_hop : _hop_samples p = hop;
  cs_total : _total_samples p = Z.of_nat (length s);
  cs_start : _buffer_start p = _next_window_start p;
  cs_next : 0 <= _next_window_start p <= Z.of_nat (length s);
  cs_exit : Z.of_nat (length s) < _next_window_start p + w;
  cs_buffer : _buffer p = drop (Z.to_nat (_next_window_start p)) s
}.

End Notions.
End WindowingNotions.

Module AlertsNotions.
Import Alerts.
Local Open Scope R_scope.

(** Every segment ends no earlier than it starts, and no earlier segment
    reaches past the start of a later one. *)
Fixpoint separated (segs : list AlertSegment) : Prop :=
  match segs with
  | [] => True
  | a :: rest =>
      start_sec a <= end_sec a /\
      Forall (fun b => end_sec a <= start_sec b) rest /\
      separated rest
  end.

(** Each call ends at least one step after the call before it. *)
Fixpoint advancing (step : R) (calls : list call) : Prop :=
  match calls with
  | c1 :: rest =>
      match rest with
      | c2 :: _ => c_end c1 + step <= c_end c2
      | [] => True
      end /\ advancing step rest
  | [] => True
  end.

(** The start times and the end times never go back from one call to the
    next. *)
Fixpoint nondecreasing (calls : list call) : Prop :=
  match calls with
  | c1 :: rest =>
      match rest with
      | c2 :: _ => c_start c1 <= c_start c2 /\ c_end c1 <= c_end c2
      | [] => True
      end /\ nondecreasing rest
  | [] => True
  end.

(** The end of the last call, or [t0] when there is none. *)
Definition last_end (t0 : R) (calls : list call) : R :=
  match last calls with
  | Some c => c_end c
  | None => t0
  end.

(** What the tracker keeps true after a call that ended at [now]. *)
Record tracked (tr : AlertTracker) (now : R) : Prop := mkTracked {
  tk_step : 0 <= _step_sec tr;
  tk_above : 0 <= _above_sec tr;
  tk_separated : separated (_segments tr);
  tk_past : Forall (fun a => end_sec a + _above_sec tr <= now) (_segments tr);
  tk_open : _active tr = true ->
            _active_start tr <= now /\
            Forall (fun a => end_sec a <= _active_start tr) (_segments tr)
}.

End AlertsNotions.

Module VadNotions.
Local Open Scope R_scope.

(** A sampled sine of peak amplitude 1: sample [k] is
    [sin (omega * k + phase)]. *)
Definition sine_tone (n : nat) (omega phase : R) : list R :=
  map (fun k => sin (omega * INR k + phase)) (seq 0 n).

End VadNotions.

Module HeuristicNotions.
Local Open Scope R_scope.

(** [_clamp (x, 0, 1)] on a real. *)
Definition clamp01 (x : R) : R :=
  let y := if bool_decide (x < 0) then 0 else x in
  if bool_decide (1 < y) then 1 else y.

(** The logistic function [1 / (1 + exp (-x))]. *)
Definition logistic (x : R) : R := / (1 + exp (- x)).

(** The indicators of the two checks of the specification. *)
Definition healthy : gmap string pyfloat :=
  <["hf_energy_ratio" := Fin (10 / 100)]>
    (<["spectral_rolloff_hz" := Fin 5000]>
      (<["spectral_flatness" := Fin (20 / 100)]> ∅)).

Definition degraded : gmap string pyfloat :=
  <["hf_energy_ratio" := Fin 0]>
    (<["spectral_rolloff_hz" := Fin 1000]>
      (<["spectral_flatness" := Fin (2 / 100)]> ∅)).

End HeuristicNotions.

Module EngineNotions.
Import Engine.
Section WithExternal.
Context `{External}.

(** The result for a window the gate rejects. *)
Definition silent_result (audio_rs : list R) (sr : Z) : InferenceResult :=
  mkInferenceResult NaN NaN (Fin 0) false (Features.extract_indicators audio_rs sr) [].

(** The engine after a window the gate rejects: only the noise profile of
    the enhancer, when there is one, has moved. *)
Definition after_silence (e : VoiceGuardEngine) (audio_rs : list R) : VoiceGuardEngine :=
  match _enhancer e with
  | Some enh => set_enhancer e (Some (enhancer_update_noise enh audio_rs))
  | None => e
  end.

End WithExternal.
End EngineNotions.

Module AnalysisNotions.
Import Alerts Engine Analysis.
Section WithExternal.
Context `{External}.
Local Open Scope R_scope.

(** The 95th-percentile score of a clip: the quantile of the probabilities
    of its speech windows, 0 when there is none. *)
Definition p95_of (windows : list WindowScore) : pyfloat :=
  if negb (length (speech_p_vals windows) =? 0)%nat
  then np_quantile (speech_p_vals windows) (95 / 100)
  else Fin 0.

(** A speech window whose raw probability reaches the alert threshold. *)
Definition hot (config : AppConfig) (w : WindowScore) : Prop :=
  is_speech (result w) = true /\
  Float.ge (p_fake (result w)) (Fin (alert_threshold config)) = true.

(** The tracker has opened an alert: a segment is recorded or one is open. *)
Definition triggered (tr : AlertTracker) : Prop :=
  _segments tr <> [] \/ _active tr = true.

(** What holds of the tracker of a file analysis between two windows. *)
Record file_tracker (config : AppConfig) (tr : AlertTracker) : Prop := mkFileTracker {
  ft_threshold : _threshold tr = alert_threshold config;
  ft_hold : _hold_sec tr <= _step_sec tr;
  ft_idle : _active tr = false -> _above_sec tr = 0
}.

End WithExternal.
End AnalysisNotions.

(** ** A small environment to run the code in *)

Module Demo.
Import Engine.
Local Open Scope R_scope.

(** An environment for running the code: no scipy, no spectral content, no
    local model, and a pretrained classifier that answers 0.9 with confidence
    0.9 whatever the audio. *)
Definition demo_external : External := {|
  Enhancer := unit;
  Onnx := unit;
  Hf := unit;
  Mel := unit;
  resample_poly := None;
  spectral_fft := fun _ _ => (Fin 0, Fin 0, Fin 0, Fin 0, Fin 0);
  enhancer_reset := fun enh => enh;
  enhancer_update_noise := fun enh _ => enh;
  enhancer_process := fun enh audio => (enh, audio);
  log_mel_spectrogram_with_filterbank := fun _ => Raise (RuntimeError "scipy is required for STFT");
  onnx_predict := fun _ _ => Raise (RuntimeError "ONNX inference returned no outputs.");
  hf_predict := fun model _ _ => Ok (Fin (9 / 10), Fin (9 / 10), model);
  np_mean := fun l => hd (Fin 0) l;
  np_max := fun l => hd (Fin 0) l;
  np_min := fun l => hd (Fin 0) l;
  np_median := fun l => hd (Fin 0) l;
  np_quantile := fun l _ => hd (Fin 0) l
|}.

(** An engine on the pretrained classifier, at 2 samples per second. *)
Definition demo_config : AppConfig :=
  mkAppConfig 2 1 1 (8 / 10) 3 (35 / 100) (-45).

Definition demo_engine : @VoiceGuardEngine demo_external :=
  @mkEngine demo_external demo_config hf 2 (35 / 100) None None None (Some tt).

End Demo.

(** Deciding the comparisons of concrete reals met while running the code. *)
Ltac decide_reals :=
  repeat match goal with
    | |- context [@bool_decide ?P ?d] =>
        first [ rewrite (@bool_decide_eq_true_2 P d) by lra
              | rewrite (@bool_decide_eq_false_2 P d) by lra ];
        simpl
    end.

(** ** Notions and environments of the further properties *)

Module MoreNotions.
Import Engine.
Local Open Scope R_scope.

(** The environment of [Demo] with scipy present; its resampler repeats
    every sample [up] times and keeps every [down]-th of them. *)
Definition scipy_external : External := {|
  Enhancer := unit;
  Onnx := unit;
  Hf := unit;
  Mel := unit;
  resample_poly := Some (fun audio up down =>
    let repeated := concat (map (fun x => replicate (Z.to_nat up) x) audio) in
    map (fun k => nth (k * Z.to_nat down)%nat repeated 0)
        (seq 0 (Nat.div (length repeated) (Z.to_nat down))));
  spectral_fft := fun _ _ => (Fin 0, Fin 0, Fin 0, Fin 0, Fin 0);
  enhancer_reset := fun enh => enh;
  enhancer_update_noise := fun enh _ => enh;
  enhancer_process := fun enh audio => (enh, audio);
  log_mel_spectrogram_with_filterbank := fun _ => Raise (RuntimeError "scipy is required for STFT");
  onnx_predict := fun _ _ => Raise (RuntimeError "ONNX inference returned no outputs.");
  hf_predict := fun model _ _ => Ok (Fin (9 / 10), Fin (9 / 10), model);
  np_mean := fun l => hd (Fin 0) l;
  np_max := fun l => hd (Fin 0) l;
  np_min := fun l => hd (Fin 0) l;
  np_median := fun l => hd (Fin 0) l;
  np_quantile := fun l _ => hd (Fin 0) l
|}.

(** A float that is a number of the unit interval, or not a number. *)
Definition unit_or_nan (x : pyfloat) : Prop :=
  x = NaN \/ exists r, x = Fin r /\ 0 <= r <= 1.

(** The engine of the demonstration on the heuristic backend. *)
Definition heuristic_engine : @VoiceGuardEngine Demo.demo_external :=
  @mkEngine Demo.demo_external Demo.demo_config heuristic 2 (35 / 100) None None None None.

End MoreNotions.

Module PresentationNotions.
Import Presentation.

(** How alarming a verdict is, by its colour: green, amber, red; the grey
    verdict of a missing probability counts with green. *)
Definition severity (v : Verdict) : nat :=
  if String.eqb (color v) "#ef4444" then 2
  else if String.eqb (color v) "#f59e0b" then 1
  else 0.

End PresentationNotions.

(** * Properties *)

(** ** Ranges and slices *)

Module PyFacts.
Import Py PyNotions.

Lemma range_up_fuel (fuel1 fuel2 : nat) (cur stop step : Z) :
  0 < step ->
  (Z.to_nat (stop - cur) <= fuel1)%nat -> (Z.to_nat (stop - cur) <= fuel2)%nat ->
  range_up fuel1 cur stop step = range_up fuel2 cur stop step.
Proof.
  intros Hstep. revert fuel2 cur.
  induction fuel1 as [|fuel1 IH]; intros fuel2 cur H1 H2.
  - destruct fuel2 as [|fuel2]; simpl; [reflexivity|].
    destruct (Z.ltb_spec cur stop); [lia | reflexivity].
  - destruct fuel2 as [|fuel2]; simpl.
    + destruct (Z.ltb_spec cur stop); [lia | reflexivity].
    + destruct (Z.ltb_spec cur stop); [|reflexivity].
      f_equal. apply IH; lia.
Qed.

Lemma range_up_enough (fuel : nat) (cur stop step : Z) :
  0 < step -> (Z.to_nat (stop - cur) <= fuel)%nat ->
  range_up fuel cur stop step = rng cur stop step.
Proof. intros. unfold rng. apply range_up_fuel; lia. Qed.

Lemma rng_unfold (cur stop step : Z) :
  0 < step ->
  rng cur stop step = if cur <? stop then cur :: rng (cur + step) stop step else [].
Proof.
  intros Hstep. unfold rng at 1.
  destruct (Z.to_nat (stop - cur)) as [|n] eqn:Hn; simpl.
  - destruct (Z.ltb_spec cur stop); [lia | reflexivity].
  - destruct (Z.ltb_spec cur stop); [|reflexivity].
    f_equal. apply range_up_enough; lia.
Qed.

Lemma rng_nil (cur stop step : Z) : stop <= cur -> rng cur stop step = [].
Proof.
  intros Hle. unfold rng. replace (Z.to_nat (stop - cur)) with 0%nat by lia. reflexivity.
Qed.

(** Induction along a range: the distance to the stop shrinks with every
    element. *)
Lemma rng_ind (stop step : Z) (P : Z -> Prop) :
  0 < step ->
  (forall cur, stop <= cur -> P cur) ->
  (forall cur, cur < stop -> P (cur + step) -> P cur) ->
  forall cur, P cur.
Proof.
  intros Hstep Hdone Hmore cur.
  remember (Z.to_nat (stop - cur)) as n eqn:Hn.
  revert cur Hn. induction (lt_wf n) as [n _ IH]. intros cur Hn.
  destruct (Z_lt_le_dec cur stop) as [Hlt|Hge]; [|auto].
  apply Hmore; [assumption|].
  apply (IH (Z.to_nat (stop - (cur + step)))); [lia | reflexivity].
Qed.

Lemma rng_bounds (stop step : Z) :
  0 < step -> forall cur x, x ∈ rng cur stop step -> cur <= x < stop.
Proof.
  intros Hstep cur. pattern cur. apply (rng_ind stop step); [assumption| |]; clear cur.
  - intros cur Hge x. rewrite rng_nil by assumption. intros Hin. inversion Hin.
  - intros cur Hlt IH x. rewrite rng_unfold by assumption.
    destruct (Z.ltb_spec cur stop); [|lia].
    intros Hin. apply elem_of_cons in Hin as [->|Hin]; [lia|].
    specialize (IH x Hin). lia.
Qed.

(** The number of elements of a range. *)
Lemma rng_length (stop step : Z) :
  0 < step -> forall cur,
  Z.of_nat (length (rng cur stop step)) =
  if cur <? stop then 1 + (stop - 1 - cur) / step else 0.
Proof.
  intros Hstep cur. pattern cur. apply (rng_ind stop step); [assumption| |]; clear cur.
  - intros cur Hge. rewrite rng_nil by assumption.
    destruct (Z.ltb_spec cur stop); [lia | reflexivity].
  - intros cur Hlt IH. rewrite rng_unfold by assumption.
    destruct (Z.ltb_spec cur stop); [|lia].
    simpl length. rewrite Nat2Z.inj_succ, IH.
    destruct (Z.ltb_spec (cur + step) stop).
    + replace (stop - 1 - cur) with (stop - 1 - (cur + step) + 1 * step) by lia.
      rewrite Z.div_add by lia. lia.
    + rewrite Z.div_small by lia. lia.
Qed.

(** Where a range stops: the first value of the progression at or past the
    stop. *)
Lemma rng_next (stop step : Z) :
  0 < step -> forall cur,
  let next := cur + step * Z.of_nat (length (rng cur stop step)) in
  (cur < stop -> stop <= next < stop + step) /\ (stop <= cur -> next = cur).
Proof.
  intros Hstep cur. pattern cur. apply (rng_ind stop step); [assumption| |]; clear cur.
  - intros cur Hge. rewrite rng_nil by assumption. simpl. split; lia.
  - intros cur Hlt [IH1 IH2]. rewrite rng_unfold by assumption.
    destruct (Z.ltb_spec cur stop); [|lia].
    simpl length. rewrite Nat2Z.inj_succ. split; [intros _|lia].
    destruct (Z_lt_le_dec (cur + step) stop) as [Hlt'|Hge'].
    + specialize (IH1 Hlt'). lia.
    + specialize (IH2 Hge'). lia.
Qed.

(** A range towards a later stop is the range to the earlier one, continued
    from where that one stopped. *)
Lemma rng_split (stop stop' step : Z) :
  0 < step -> stop <= stop' -> forall cur,
  rng cur stop' step =
  rng cur stop step ++ rng (cur + step * Z.of_nat (length (rng cur stop step))) stop' step.
Proof.
  intros Hstep Hle cur. pattern cur. apply (rng_ind stop step); [assumption| |]; clear cur.
  - intros cur Hge. rewrite (rng_nil cur stop) by assumption. simpl.
    f_equal. lia.
  - intros cur Hlt IH. rewrite (rng_unfold cur stop), (rng_unfold cur stop') by assumption.
    destruct (Z.ltb_spec cur stop); [|lia].
    destruct (Z.ltb_spec cur stop'); [|lia].
    simpl. f_equal. rewrite IH. f_equal. f_equal. lia.
Qed.

Section Slices.
Context {A : Type}.
Implicit Types l k : list A.

Lemma slice_inside l (i j : Z) :
  0 <= i -> i <= j -> j <= Z.of_nat (length l) ->
  slice l i j = take (Z.to_nat (j - i)) (drop (Z.to_nat i) l).
Proof.
  intros Hi Hij Hj. unfold slice, slice_bound.
  destruct (Z.ltb_spec i 0); [lia|]. destruct (Z.ltb_spec j 0); [lia|].
  rewrite !Z.min_l by lia. reflexivity.
Qed.

Lemma slice_app_l l k (i j : Z) :
  0 <= i -> i <= j -> j <= Z.of_nat (length l) ->
  slice (l ++ k) i j = slice l i j.
Proof.
  intros Hi Hij Hj.
  rewrite !slice_inside by (rewrite ?length_app; lia).
  rewrite drop_app_le by lia. apply take_app_le. rewrite length_drop. lia.
Qed.

Lemma slice_drop l (b i j : Z) :
  0 <= b -> b <= i -> i <= j -> j <= Z.of_nat (length l) ->
  slice (drop (Z.to_nat b) l) (i - b) (j - b) = slice l i j.
Proof.
  intros Hb Hbi Hij Hj.
  rewrite !slice_inside by (rewrite ?length_drop; lia).
  rewrite drop_drop. f_equal; [lia|]. f_equal. lia.
Qed.

Lemma slice_from_inside l (i : Z) :
  0 <= i -> i <= Z.of_nat (length l) -> slice_from l i = drop (Z.to_nat i) l.
Proof.
  intros Hi Hl. unfold slice_from, slice_bound.
  destruct (Z.ltb_spec i 0); [lia|]. rewrite Z.min_l by lia. reflexivity.
Qed.

Lemma slice_length l (i j : Z) :
  0 <= i -> i <= j -> j <= Z.of_nat (length l) ->
  Z.of_nat (length (slice l i j)) = j - i.
Proof.
  intros Hi Hij Hj. rewrite slice_inside by lia.
  rewrite length_take, length_drop. lia.
Qed.
End Slices.

End PyFacts.

(** ** Windowing: the estimate and the two segmentations *)

Module WindowingFacts.
Import Py PyNotions PyFacts Windowing WindowingNotions.

Section Facts.
Context {sample : Type} (zero : sample).
Implicit Types (audio s chunk : list sample) (p : StreamWindowProcessor (sample := sample)).

Lemma iter_windows_long audio (w hop : Z) :
  0 < w -> 0 < hop -> w <= Z.of_nat (length audio) ->
  iter_windows zero audio w hop =
  Ok (map as_pair (whole_windows w hop audio 0)).
Proof.
  intros Hw Hhop Hlen. unfold iter_windows, range, whole_windows.
  destruct (Z.eqb_spec (Z.of_nat (length audio)) 0); [lia|].
  destruct (Z.ltb_spec (Z.of_nat (length audio)) w); [lia|].
  destruct (Z.eqb_spec hop 0); [lia|]. destruct (Z.ltb_spec 0 hop); [|lia].
  simpl. f_equal. rewrite map_map. reflexivity.
Qed.

Lemma whole_windows_short s (w hop cur : Z) :
  0 <= cur -> Z.of_nat (length s) < w -> whole_windows w hop s cur = [].
Proof. intros Hc Hlt. unfold whole_windows. rewrite rng_nil by lia. reflexivity. Qed.

(** The loop emits the whole windows that start at the cursor or later. *)
Lemma push_loop_spec (w hop : Z) s (fuel : nat) :
  0 < w -> 0 < hop -> forall p acc,
  _window_samples p = w -> _hop_samples p = hop ->
  _total_samples p = Z.of_nat (length s) ->
  0 <= _buffer_start p <= _next_window_start p ->
  _buffer p = drop (Z.to_nat (_buffer_start p)) s ->
  (Z.to_nat (Z.of_nat (length s) - w + 1 - _next_window_start p) <= fuel)%nat ->
  push_loop fuel p acc =
  (set_next p (_next_window_start p + hop *
                 Z.of_nat (length (rng (_next_window_start p)
                                       (Z.of_nat (length s) - w + 1) hop))),
   acc ++ whole_windows w hop s (_next_window_start p)).
Proof.
  intros Hw Hhop. induction fuel as [|fuel IH]; intros p acc Hpw Hph Htot Hbs Hbuf Hfuel.
  - unfold whole_windows. rewrite rng_nil by lia. simpl.
    rewrite app_nil_r, Z.mul_0_r, Z.add_0_r. destruct p; reflexivity.
  - simpl. rewrite Hpw, Htot.
    destruct (Z.leb_spec (_next_window_start p + w) (Z.of_nat (length s))) as [Hin|Hout].
    + destruct (Z.ltb_spec (_next_window_start p - _buffer_start p) 0); [lia|].
      rewrite Hpw.
      assert (Hlen : Z.of_nat (length (_buffer p)) =
                     Z.of_nat (length s) - _buffer_start p).
      { rewrite Hbuf, length_drop. lia. }
      destruct (Z.ltb_spec (Z.of_nat (length (_buffer p)))
                           (_next_window_start p - _buffer_start p + w)); [lia|].
      rewrite IH; simpl; try assumption; try lia.
      unfold whole_windows.
      rewrite (rng_unfold (_next_window_start p)) by assumption.
      destruct (Z.ltb_spec (_next_window_start p) (Z.of_nat (length s) - w + 1)); [|lia].
      simpl. rewrite Hph, <- app_assoc. simpl. f_equal.
      * unfold set_next. simpl. f_equal. lia.
      * f_equal. f_equal. unfold window_at. f_equal.
        rewrite Hbuf.
        replace (_next_window_start p - _buffer_start p + w)
          with (_next_window_start p + w - _buffer_start p) by lia.
        apply slice_drop; lia.
    + unfold whole_windows. rewrite rng_nil by lia. simpl.
      rewrite app_nil_r, Z.mul_0_r, Z.add_0_r. destruct p; reflexivity.
Qed.

Lemma push_spec (w hop : Z) s chunk p :
  0 < w -> 0 < hop <= w -> consistent w hop p s ->
  let next' := _next_window_start p + hop *
                 Z.of_nat (length (rng (_next_window_start p)
                                       (Z.of_nat (length (s ++ chunk)) - w + 1) hop)) in
  consistent w hop (fst (push p chunk)) (s ++ chunk) /\
  _next_window_start (fst (push p chunk)) = next' /\
  snd (push p chunk) = whole_windows w hop (s ++ chunk) (_next_window_start p).
Proof.
  intros Hw Hhop [Hpw Hph Htot Hbs Hnext Hexit Hbuf] next'.
  unfold push.
  destruct (Z.eqb_spec (Z.of_nat (length chunk)) 0) as [Hempty|Hsome].
  - assert (chunk = []) as -> by (destruct chunk; [reflexivity | simpl in Hempty; lia]).
    subst next'. rewrite app_nil_r. unfold whole_windows.
    rewrite rng_nil by lia. simpl. rewrite Z.mul_0_r, Z.add_0_r.
    split; [constructor; assumption | split; reflexivity].
  - set (p1 := mkProcessor _ _ _ _ _ _).
    assert (Hlen : Z.of_nat (length (s ++ chunk)) =
                   Z.of_nat (length s) + Z.of_nat (length chunk))
      by (rewrite length_app; lia).
    assert (Hbuf1 : _buffer p1 = drop (Z.to_nat (_buffer_start p1)) (s ++ chunk)).
    { subst p1. simpl. rewrite Hbuf, Hbs. symmetry. apply drop_app_le. lia. }
    rewrite (push_loop_spec w hop (s ++ chunk) (push_fuel p1) Hw (proj1 Hhop) p1 []);
      subst p1; simpl; try assumption; try lia.
    2:{ unfold push_fuel. simpl. lia. }
    fold next'.
    pose proof (rng_next (Z.of_nat (length (s ++ chunk)) - w + 1) hop (proj1 Hhop)
                         (_next_window_start p)) as [Hn1 Hn2].
    fold next' in Hn1, Hn2.
    assert (Hrange : _next_window_start p <= next' <= Z.of_nat (length (s ++ chunk))
                     /\ Z.of_nat (length (s ++ chunk)) < next' + w).
    { destruct (Z_lt_le_dec (_next_window_start p)
                            (Z.of_nat (length (s ++ chunk)) - w + 1)) as [Hlt|Hge].
      - specialize (Hn1 Hlt). lia.
      - specialize (Hn2 Hge). lia. }
    destruct (Z.ltb_spec 0 (Z.max 0 (next' - _buffer_start p))) as [Htrim|Hnotrim];
      simpl; (split; [|split; reflexivity]).
    + constructor; simpl; try assumption; try lia.
      rewrite slice_from_inside.
      * rewrite Hbuf, <- drop_app_le by lia. rewrite drop_drop. f_equal. lia.
      * lia.
      * rewrite length_app, Hbuf, length_drop. lia.
    + constructor; simpl; try assumption; try lia.
      rewrite Hbuf, <- drop_app_le by lia. f_equal. lia.
Qed.

(** The windows every push returns, together, are the whole windows of
    the stream from the first cursor on. *)
Lemma push_all_spec (w hop : Z) (chunks : list (list sample)) :
  0 < w -> 0 < hop <= w -> forall s p,
  consistent w hop p s ->
  consistent w hop (fst (push_all p chunks)) (s ++ concat chunks) /\
  snd (push_all p chunks) = whole_windows w hop (s ++ concat chunks) (_next_window_start p).
Proof.
  intros Hw Hhop. induction chunks as [|chunk rest IH]; intros s p Hc.
  - simpl. rewrite app_nil_r. split; [assumption|].
    unfold whole_windows. destruct Hc. rewrite rng_nil by lia. reflexivity.
  - simpl. destruct (push p chunk) as [p1 ws] eqn:Hpush.
    destruct (push_all p1 rest) as [p2 ws'] eqn:Hrest. simpl.
    pose proof (push_spec w hop s chunk p Hw Hhop Hc) as (Hc1 & Hnext1 & Hws).
    rewrite Hpush in Hc1, Hnext1, Hws. simpl in Hc1, Hnext1, Hws.
    destruct (IH (s ++ chunk) p1 Hc1) as [Hc2 Hws'].
    rewrite Hrest in Hc2, Hws'. simpl in Hc2, Hws'.
    rewrite <- app_assoc in Hc2, Hws'. split; [assumption|].
    rewrite Hws, Hws', Hnext1. unfold whole_windows.
    assert (Hstops : Z.of_nat (length (s ++ chunk)) - w + 1 <=
                     Z.of_nat (length (s ++ chunk ++ concat rest)) - w + 1)
      by (rewrite !length_app; lia).
    rewrite (rng_split _ _ hop (proj1 Hhop) Hstops (_next_window_start p)).
    rewrite map_app. f_equal.
    apply map_ext_in. intros start Hin.
    apply list_elem_of_In, rng_bounds in Hin; [|lia].
    destruct Hc as [_ _ _ _ Hnext _ _].
    unfold window_at. f_equal. rewrite app_assoc. symmetry. apply slice_app_l; lia.
Qed.

Lemma new_processor_consistent (w hop : Z) :
  0 < w -> 0 < hop ->
  exists p, new_processor w hop = Ok p /\ consistent w hop p [] /\ _next_window_start p = 0.
Proof.
  intros Hw Hhop. unfold new_processor.
  destruct (Z.leb_spec w 0); [lia|]. destruct (Z.leb_spec hop 0); [lia|].
  eexists. split; [reflexivity|]. split; [|reflexivity].
  constructor; simpl; try reflexivity; lia.
Qed.

(** With enough fuel the loop of [push] leaves by its own tests: more fuel
    changes nothing. *)
Lemma push_loop_fuel (fuel1 fuel2 : nat) p (acc : list StreamWindow) :
  0 < _hop_samples p ->
  (Z.to_nat (_total_samples p - _window_samples p + 1 - _next_window_start p) <= fuel1)%nat ->
  (Z.to_nat (_total_samples p - _window_samples p + 1 - _next_window_start p) <= fuel2)%nat ->
  push_loop fuel1 p acc = push_loop fuel2 p acc.
Proof.
  revert fuel2 p acc. induction fuel1 as [|fuel1 IH]; intros fuel2 p acc Hhop H1 H2.
  - destruct fuel2 as [|fuel2]; [reflexivity|]. simpl.
    destruct (Z.leb_spec (_next_window_start p + _window_samples p) (_total_samples p));
      [lia | reflexivity].
  - destruct fuel2 as [|fuel2]; simpl.
    + destruct (Z.leb_spec (_next_window_start p + _window_samples p) (_total_samples p));
        [lia | reflexivity].
    + destruct (Z.leb_spec (_next_window_start p + _window_samples p) (_total_samples p));
        [|reflexivity].
      destruct (Z.ltb_spec (_next_window_start p - _buffer_start p) 0); simpl.
      * destruct (Z.ltb_spec (Z.of_nat (length (_buffer p))) (0 + _window_samples p));
          [reflexivity|].
        apply IH; simpl; lia.
      * destruct (Z.ltb_spec (Z.of_nat (length (_buffer p)))
                             (_next_window_start p - _buffer_start p + _window_samples p));
          [reflexivity|].
        apply IH; simpl; lia.
Qed.

(** The fuel [push] gives its loop is enough: any larger amount yields
    the same processor and the same windows. *)
Lemma push_fuel_enough p (acc : list StreamWindow) (extra : nat) :
  0 < _hop_samples p ->
  push_loop (push_fuel p + extra) p acc = push_loop (push_fuel p) p acc.
Proof. intros Hhop. apply push_loop_fuel; unfold push_fuel; [assumption | lia | lia]. Qed.

(** C4. For positive window and hop sizes [estimate_num_windows n] is 0 for
    [n <= 0], 1 for [0 < n < window_samples] and
    [1 + floor((n - window_samples) / hop_samples)] otherwise; it is [1 + k] at
    [n = window_samples + k * hop_samples]; and it is the number of windows
    [iter_windows] yields on any signal of [n] samples. *)
Theorem estimate_num_windows_counts (w hop : Z) audio :
  0 < w -> 0 < hop ->
  (forall n, estimate_num_windows n w hop =
             if n <=? 0 then 0 else if n <? w then 1 else 1 + (n - w) / hop) /\
  (forall k, 0 <= k -> estimate_num_windows (w + k * hop) w hop = 1 + k) /\
  exists windows,
    iter_windows zero audio w hop = Ok windows /\
    Z.of_nat (length windows) = estimate_num_windows (Z.of_nat (length audio)) w hop.
Proof.
  intros Hw Hhop.
  assert (Hformula : forall n, estimate_num_windows n w hop =
            if n <=? 0 then 0 else if n <? w then 1 else 1 + (n - w) / hop).
  { intros n. unfold estimate_num_windows.
    destruct (Z.leb_spec n 0); [reflexivity|].
    destruct (Z.leb_spec w 0); [lia|]. destruct (Z.leb_spec hop 0); [lia|].
    reflexivity. }
  split; [exact Hformula|]. split.
  - intros k Hk. rewrite Hformula.
    assert (0 <= k * hop) by nia.
    destruct (Z.leb_spec (w + k * hop) 0); [lia|].
    destruct (Z.ltb_spec (w + k * hop) w); [lia|].
    replace (w + k * hop - w) with (k * hop) by lia.
    rewrite Z.div_mul by lia. reflexivity.
  - rewrite Hformula.
    destruct (Z.leb_spec (Z.of_nat (length audio)) 0) as [Hzero|Hpos].
    + exists []. unfold iter_windows.
      destruct (Z.eqb_spec (Z.of_nat (length audio)) 0); [split; reflexivity | lia].
    + destruct (Z.ltb_spec (Z.of_nat (length audio)) w) as [Hshort|Hlong].
      * eexists. unfold iter_windows.
        destruct (Z.eqb_spec (Z.of_nat (length audio)) 0); [lia|].
        destruct (Z.ltb_spec (Z.of_nat (length audio)) w); [|lia].
        split; reflexivity.
      * eexists. split; [apply iter_windows_long; assumption|].
        unfold whole_windows. rewrite !length_map, rng_length by assumption.
        destruct (Z.ltb_spec 0 (Z.of_nat (length audio) - w + 1)); [|lia].
        do 2 f_equal. lia.
Qed.

(** C1, as it holds. With [0 < hop_samples <= window_samples], feeding a
    signal to [push] in chunks of any sizes yields, over all pushes, exactly
    the [(start_sample, window)] pairs of [iter_windows] when the signal is
    empty or at least one window long; a shorter signal yields one zero-padded
    window offline and no window from the stream. *)
Theorem streaming_matches_offline (w hop : Z) (chunks : list (list sample)) :
  0 < w -> 0 < hop <= w ->
  exists p,
    new_processor w hop = Ok p /\
    let s := concat chunks in
    let streamed := map as_pair (snd (push_all p chunks)) in
    (length s = 0%nat \/ w <= Z.of_nat (length s) ->
     iter_windows zero s w hop = Ok streamed) /\
    (0 < Z.of_nat (length s) < w ->
     streamed = [] /\
     iter_windows zero s w hop =
     Ok [(0, s ++ replicate (Z.to_nat (w - Z.of_nat (length s))) zero)]).
Proof.
  intros Hw Hhop.
  destruct (new_processor_consistent w hop Hw (proj1 Hhop)) as (p & Hnew & Hc & Hnext).
  exists p. split; [assumption|]. intros s streamed.
  destruct (push_all_spec w hop chunks Hw Hhop [] p Hc) as [_ Hws].
  simpl in Hws. fold s in Hws. rewrite Hnext in Hws.
  subst streamed. rewrite Hws. split.
  - intros [Hempty|Hlong].
    + unfold iter_windows. rewrite Hempty. simpl.
      rewrite whole_windows_short by (rewrite ?Hempty; simpl; lia). reflexivity.
    + apply iter_windows_long; lia.
  - intros Hshort. rewrite whole_windows_short by lia. split; [reflexivity|].
    unfold iter_windows.
    destruct (Z.eqb_spec (Z.of_nat (length s)) 0); [lia|].
    destruct (Z.ltb_spec (Z.of_nat (length s)) w); [reflexivity | lia].
Qed.

End Facts.

Local Open Scope R_scope.

Lemma estimate_num_windows_counts_witness :
  (0 < 4)%Z /\ (0 < 2)%Z /\
  exists windows,
    iter_windows 0 [1; 2; 3; 4; 5; 6; 7] 4 2 = Ok windows /\
    Z.of_nat (length windows) = estimate_num_windows 7 4 2.
Proof.
  split; [lia|]. split; [lia|].
  apply (estimate_num_windows_counts 0 4 2 [1; 2; 3; 4; 5; 6; 7]); lia.
Defined.

Lemma streaming_matches_offline_witness :
  (0 < 3)%Z /\ (0 < 2 <= 3)%Z /\
  exists p,
    new_processor 3 2 = Ok p /\
    let s := concat [[1]; []; [2; 3; 4; 5]; [6; 7]] in
    let streamed := map as_pair (snd (push_all p [[1]; []; [2; 3; 4; 5]; [6; 7]])) in
    (length s = 0%nat \/ (3 <= Z.of_nat (length s))%Z ->
     iter_windows 0 s 3 2 = Ok streamed) /\
    ((0 < Z.of_nat (length s) < 3)%Z ->
     streamed = [] /\
     iter_windows 0 s 3 2 =
     Ok [(0%Z, s ++ replicate (Z.to_nat (3 - Z.of_nat (length s))) 0)]).
Proof.
  split; [lia|]. split; [lia|].
  apply (streaming_matches_offline 0 3 2 [[1]; []; [2; 3; 4; 5]; [6; 7]]); lia.
Defined.

(** What the stream of the witness yields. *)
Example stream_of_seven_samples :
  map as_pair
      (snd (push_all (mkProcessor 3 2 [] 0 0 0) [[1]; []; [2; 3; 4; 5]; [6; 7]])) =
  [(0%Z, [1; 2; 3]); (2%Z, [3; 4; 5]); (4%Z, [5; 6; 7])].
Proof. reflexivity. Qed.

(** C1 as stated fails on a signal shorter than one window: offline
    segmentation pads it to one window, the stream emits nothing. *)
Lemma short_signal_offline_only :
  exists p,
    new_processor 2 1 = Ok p /\
    iter_windows 0 (concat [[1]]) 2 1 = Ok [(0%Z, [1; 0])] /\
    map as_pair (snd (push_all p [[1]])) = [] /\
    iter_windows 0 (concat [[1]]) 2 1 <> Ok (map as_pair (snd (push_all p [[1]]))).
Proof.
  eexists. split; [reflexivity|]. split; [reflexivity|]. split; [reflexivity|].
  discriminate.
Qed.

(** With a hop longer than the window the cursor can run past the samples
    received; [push] then adds the whole distance to [_buffer_start] although
    the buffer held fewer samples, and the next window is cut from the wrong
    place: samples 3 and 4 stand where samples 5 and 6 should. *)
Example hop_longer_than_window :
  map as_pair
      (snd (push_all (mkProcessor 2 5 [] 0 0 0) [[10; 11; 12]; [13; 14; 15; 16]])) =
  [(0%Z, [10; 11]); (5%Z, [13; 14])] /\
  iter_windows 0 (concat [[10; 11; 12]; [13; 14; 15; 16]]) 2 5 =
  Ok [(0%Z, [10; 11]); (5%Z, [15; 16])].
Proof. split; reflexivity. Qed.

End WindowingFacts.

(** ** Alert tracker: the segments it produces *)

Module AlertsFacts.
Import Alerts AlertsNotions.
Local Open Scope R_scope.

Lemma separated_snoc (segs : list AlertSegment) (x : AlertSegment) :
  separated segs -> Forall (fun a => end_sec a <= start_sec x) segs ->
  start_sec x <= end_sec x -> separated (segs ++ [x]).
Proof.
  induction segs as [|a segs IH]; simpl; intros Hsep Hall Hx.
  - repeat split; [assumption | constructor].
  - destruct Hsep as (Ha & Hrest & Hsep). inversion Hall; subst.
    repeat split; [assumption | | auto].
    apply Forall_app. split; [assumption | constructor; [assumption | constructor]].
Qed.

Lemma separated_lookup (segs : list AlertSegment) :
  separated segs ->
  (forall a, a ∈ segs -> start_sec a <= end_sec a) /\
  (forall (i j : nat) a b, (i < j)%nat -> segs !! i = Some a -> segs !! j = Some b ->
                           end_sec a <= start_sec b).
Proof.
  induction segs as [|x segs IH]; simpl; intros Hsep.
  - split; [intros a Ha; inversion Ha | intros i j a b _ Hi; discriminate Hi].
  - destruct Hsep as (Hx & Hrest & Hsep). destruct (IH Hsep) as [IH1 IH2]. split.
    + intros a Ha. apply elem_of_cons in Ha as [->|Ha]; auto.
    + intros i j a b Hij Hi Hj. destruct j as [|j]; [lia|]. simpl in Hj.
      destruct i as [|i]; simpl in Hi.
      * injection Hi as <-. rewrite Forall_forall in Hrest. apply Hrest.
        eapply list_elem_of_lookup_2. eassumption.
      * apply (IH2 i j); [lia | assumption..].
Qed.

Lemma close_alert_tracked (tr : AlertTracker) (now t_end : R) :
  tracked tr now -> now <= t_end -> tracked (close_alert tr t_end) t_end.
Proof.
  intros [Hstep Habove Hsep Hpast Hopen] Hle. unfold close_alert.
  assert (Hends : Forall (fun a => end_sec a + 0 <= t_end) (_segments tr)).
  { eapply Forall_impl; [exact Hpast|]. simpl. intros a Ha. lra. }
  destruct (_active tr) eqn:Hact.
  - destruct (Hopen eq_refl) as [Hstart Hbefore].
    constructor; simpl; try assumption; try lra; try discriminate.
    + apply separated_snoc; simpl; [assumption | assumption | lra].
    + apply Forall_app. split; [assumption|].
      constructor; [simpl; lra | constructor].
  - constructor; simpl; try assumption; try lra; discriminate.
Qed.

Lemma update_tracked (tr : AlertTracker) (now : R) (c : call) :
  tracked tr now -> now + _step_sec tr <= c_end c -> c_start c <= c_end c ->
  tracked (fst (update tr (c_start c) (c_end c) (c_p c) (c_speech c))) (c_end c)
  /\ _step_sec (fst (update tr (c_start c) (c_end c) (c_p c) (c_speech c))) = _step_sec tr.
Proof.
  intros Htr Hadv Hwf. pose proof Htr as [Hstep Habove Hsep Hpast Hopen].
  assert (Hclose : tracked (close_alert tr (c_end c)) (c_end c))
    by (apply (close_alert_tracked tr now); [assumption | lra]).
  assert (Hends : Forall (fun a => end_sec a + (_above_sec tr + _step_sec tr) <= c_end c)
                         (_segments tr)).
  { eapply Forall_impl; [exact Hpast|]. simpl. intros a Ha. lra. }
  unfold update. generalize (Float.ge (c_p c) (Fin (_threshold tr))). intros above_threshold.
  destruct (c_speech c); simpl; [|split; [assumption | reflexivity]].
  destruct above_threshold; [|split; [assumption | reflexivity]].
  destruct (_active tr) eqn:Hact; simpl.
  - split; [|reflexivity]. destruct (Hopen eq_refl) as [Hstart Hbefore].
    constructor; simpl; try assumption; try lra.
    intros _. split; [lra | assumption].
  - destruct (bool_decide (_hold_sec tr <= _above_sec tr + _step_sec tr)); simpl.
    + split; [|reflexivity].
      assert (Hmax : c_end c - (_above_sec tr + _step_sec tr) <=
                     Float.rmax (c_start c) (c_end c - (_above_sec tr + _step_sec tr))
                     <= c_end c).
      { unfold Float.rmax. case_bool_decide; lra. }
      constructor; simpl; try assumption; try lra.
      intros _. split; [lra|].
      eapply Forall_impl; [exact Hends|]. simpl. intros a Ha. lra.
    + split; [|reflexivity].
      constructor; simpl; try assumption; try lra; discriminate.
Qed.

Lemma last_end_cons (now : R) (c : call) (rest : list call) :
  last_end now (c :: rest) = last_end (c_end c) rest.
Proof. unfold last_end. rewrite last_cons. destruct (last rest); reflexivity. Qed.

Lemma run_tracked (calls : list call) :
  forall (tr : AlertTracker) (now : R),
  tracked tr now ->
  match calls with c :: _ => now + _step_sec tr <= c_end c | [] => True end ->
  advancing (_step_sec tr) calls ->
  Forall (fun c => c_start c <= c_end c) calls ->
  tracked (run tr calls) (last_end now calls).
Proof.
  induction calls as [|c rest IH]; intros tr now Htr Hfirst Hadv Hwf.
  - exact Htr.
  - inversion Hwf as [|? ? Hc Hrest]; subst. destruct Hadv as [Hnext Hadv].
    destruct (update_tracked tr now c Htr Hfirst Hc) as [Htr' Hstep'].
    unfold run in *. simpl fold_left.
    rewrite last_end_cons.
    apply IH; rewrite ?Hstep'; assumption.
Qed.

(** C3, as it holds. Let the step of the tracker be non-negative, every
    call have [t_start <= t_end], every call end at least one step after the
    call before it, and [finalize] come no earlier than the end of the last
    call. Then every segment has [end_sec >= start_sec], and each segment
    ends no later than every later segment starts, so that the segments are
    ordered by [start_sec] and do not overlap. *)
Theorem segments_separated (threshold hold_sec step_sec t_fin : R) (calls : list call) :
  0 <= step_sec ->
  Forall (fun c => c_start c <= c_end c) calls ->
  advancing step_sec calls ->
  last_end t_fin calls <= t_fin ->
  let segs := segments (finalize (run (new_tracker threshold hold_sec step_sec) calls) t_fin) in
  (forall a, a ∈ segs -> start_sec a <= end_sec a) /\
  (forall (i j : nat) a b, (i < j)%nat -> segs !! i = Some a -> segs !! j = Some b ->
     start_sec a <= start_sec b /\ end_sec a <= start_sec b).
Proof.
  intros Hstep Hwf Hadv Hfin segs.
  set (t0 := match calls with c :: _ => c_end c - step_sec | [] => t_fin end).
  assert (Hrun : tracked (run (new_tracker threshold hold_sec step_sec) calls)
                         (last_end t0 calls)).
  { apply run_tracked; try assumption.
    - constructor; simpl; try lra; try constructor; discriminate.
    - subst t0. destruct calls; simpl; [exact I | lra]. }
  assert (Hlast : last_end t0 calls <= t_fin).
  { subst t0. unfold last_end in *. destruct (last calls) eqn:Hl; [assumption|].
    destruct calls; [lra | discriminate (proj1 (last_None _) Hl)]. }
  pose proof (close_alert_tracked _ _ t_fin Hrun Hlast) as [_ _ Hsep _ _].
  destruct (separated_lookup _ Hsep) as [Hwf' Hord].
  split; [exact Hwf'|]. intros i j a b Hij Hi Hj.
  pose proof (Hord i j a b Hij Hi Hj).
  assert (start_sec a <= end_sec a).
  { apply Hwf'. eapply list_elem_of_lookup_2. exact Hi. }
  split; lra.
Qed.

Lemma segments_separated_witness :
  let calls := [mkCall 0 1 (Fin (9 / 10)) true; mkCall (1 / 4) (5 / 4) (Fin (9 / 10)) true;
                mkCall (1 / 2) (3 / 2) (Fin (1 / 10)) true;
                mkCall (3 / 4) (7 / 4) (Fin (9 / 10)) true] in
  0 <= 1 / 4 /\
  Forall (fun c => c_start c <= c_end c) calls /\
  advancing (1 / 4) calls /\
  last_end (7 / 4) calls <= 7 / 4 /\
  let segs := segments (finalize (run (new_tracker (8 / 10) (1 / 4) (1 / 4)) calls) (7 / 4)) in
  (forall a, a ∈ segs -> start_sec a <= end_sec a) /\
  (forall (i j : nat) a b, (i < j)%nat -> segs !! i = Some a -> segs !! j = Some b ->
     start_sec a <= start_sec b /\ end_sec a <= start_sec b).
Proof.
  intros calls.
  assert (H0 : 0 <= 1 / 4) by lra.
  assert (H1 : Forall (fun c => c_start c <= c_end c) calls)
    by (repeat constructor; simpl; lra).
  assert (H2 : advancing (1 / 4) calls) by (simpl; repeat split; lra).
  assert (H3 : last_end (7 / 4) calls <= 7 / 4) by (unfold last_end; simpl; lra).
  repeat (split; [assumption|]).
  exact (segments_separated (8 / 10) (1 / 4) (1 / 4) (7 / 4) calls H0 H1 H2 H3).
Defined.

(** C3 as stated fails: with a step of 5 seconds and calls one second apart
    (times non-decreasing, [t_start <= t_end] in each, [finalize] at the end of
    the last call), the second segment starts at 7 while the first one ends
    at 11. *)
Lemma overlapping_segments :
  let calls := [mkCall 0 10 (Fin (9 / 10)) true; mkCall 1 11 (Fin (1 / 10)) true;
                mkCall 2 12 (Fin (9 / 10)) true] in
  Forall (fun c => c_start c <= c_end c) calls /\
  nondecreasing calls /\
  last_end 12 calls <= 12 /\
  exists a b,
    segments (finalize (run (new_tracker (8 / 10) 5 5) calls) 12) = [a; b] /\
    start_sec a <= start_sec b /\ start_sec b < end_sec a.
Proof.
  intros calls. split; [repeat constructor; simpl; lra|].
  split; [simpl; lra|]. split; [unfold last_end; simpl; lra|].
  do 2 eexists. split.
  - subst calls. unfold run, finalize, segments, new_tracker. simpl.
    unfold update, close_alert, Float.ge, Float.le. simpl. decide_reals. reflexivity.
  - simpl. unfold Float.rmax. decide_reals. lra.
Qed.

(** A negative step, which the constructor accepts, puts the start of a
    segment after its end. *)
Example negative_step_segment :
  segments (finalize (run (new_tracker (8 / 10) (-1) (-1))
                          [mkCall 0 10 (Fin (9 / 10)) true]) 10) =
  [mkAlertSegment 11 10].
Proof.
  unfold run, finalize, segments, new_tracker. simpl.
  unfold update, close_alert, Float.ge, Float.le. simpl. decide_reals.
  unfold Float.rmax. decide_reals. do 2 f_equal. lra.
Qed.

End AlertsFacts.

(** ** Voice-activity gate *)

Module VadFacts.
Import Vad VadNotions.
Local Open Scope R_scope.

Lemma ln_10_pos : 0 < ln 10.
Proof. rewrite <- ln_1. apply ln_increasing; lra. Qed.

Lemma log10_increasing (x y : R) : 0 < x -> x < y -> log10 x < log10 y.
Proof.
  intros Hx Hxy. unfold log10. pose proof ln_10_pos.
  apply Rmult_lt_compat_r; [apply Rinv_0_lt_compat; assumption|].
  apply ln_increasing; assumption.
Qed.

Lemma log10_eps : log10 default_eps = -12.
Proof.
  unfold log10, default_eps. pose proof ln_10_pos.
  rewrite ln_Rinv by (apply pow_lt; lra).
  rewrite ln_pow by lra.
  replace (INR 12) with 12 by (simpl; lra). field. lra.
Qed.

Lemma default_eps_pos : 0 < default_eps.
Proof. unfold default_eps. apply Rinv_0_lt_compat, pow_lt. lra. Qed.

Lemma sum_squares_zero (audio : list R) :
  Forall (fun x => x = 0) audio -> fold_right Rplus 0 (map square audio) = 0.
Proof.
  induction 1 as [|x l Hx _ IH]; simpl; [reflexivity|].
  rewrite IH, Hx. unfold square. lra.
Qed.

(** The level of a silent window is that of [eps] alone: -240 dB. *)
Lemma rms_db_silence (audio : list R) :
  audio <> [] -> Forall (fun x => x = 0) audio ->
  rms_db audio default_eps = Fin (-240).
Proof.
  intros Hne Hzero. unfold rms_db.
  destruct audio as [|x l]; [contradiction|]. cbn [length Nat.eqb].
  unfold mean. rewrite sum_squares_zero by assumption.
  replace (0 / INR (length (map square (x :: l)))) with 0 by (unfold Rdiv; lra).
  rewrite sqrt_0, Rplus_0_l. unfold np_log10.
  rewrite bool_decide_eq_true_2 by apply default_eps_pos.
  rewrite log10_eps. simpl. f_equal. lra.
Qed.

Lemma rms_db_silence_gate (audio : list R) (threshold_db : R) :
  audio <> [] -> Forall (fun x => x = 0) audio -> -240 <= threshold_db ->
  is_speech_window audio (Fin threshold_db) = false.
Proof.
  intros Hne Hzero Ht. unfold is_speech_window.
  rewrite rms_db_silence by assumption. apply bool_decide_eq_false_2. lra.
Qed.

(** C6, as it holds. A non-empty all-zero window has the level of [eps],
    -240 dB: it is non-speech for every threshold of -240 dB or more, and
    speech for every threshold below. *)
Theorem silence_is_not_speech (audio : list R) (threshold_db : R) :
  audio <> [] -> Forall (fun x => x = 0) audio ->
  (-240 <= threshold_db -> is_speech_window audio (Fin threshold_db) = false) /\
  (threshold_db < -240 -> is_speech_window audio (Fin threshold_db) = true).
Proof.
  intros Hne Hzero. unfold is_speech_window.
  rewrite rms_db_silence by assumption. unfold Float.gt, Float.lt. split; intros Ht.
  - apply bool_decide_eq_false_2. lra.
  - apply bool_decide_eq_true_2. lra.
Qed.

Lemma silence_is_not_speech_witness :
  [0; 0; 0] <> [] /\ Forall (fun x => x = 0) [0; 0; 0] /\
  (-240 <= -45 -> is_speech_window [0; 0; 0] (Fin (-45)) = false) /\
  (-45 < -240 -> is_speech_window [0; 0; 0] (Fin (-45)) = true).
Proof.
  assert (H1 : [0; 0; 0] <> ([] : list R)) by discriminate.
  assert (H2 : Forall (fun x => x = 0) [0; 0; 0]) by (repeat constructor).
  split; [exact H1|]. split; [exact H2|].
  exact (silence_is_not_speech [0; 0; 0] (-45) H1 H2).
Defined.

(** C6 as stated fails: at the finite threshold of -300 dB a window of
    zeros is classified as speech. *)
Lemma silence_above_low_threshold :
  is_speech_window [0] (Fin (-300)) = true.
Proof.
  unfold is_speech_window.
  rewrite rms_db_silence; [|discriminate | repeat constructor].
  apply bool_decide_eq_true_2. lra.
Qed.

Lemma sqrt_half_bounds : 7 / 10 < sqrt (1 / 2) < 71 / 100.
Proof.
  split.
  - replace (7 / 10) with (sqrt (7 / 10 * (7 / 10))) by (apply sqrt_square; lra).
    apply sqrt_lt_1; lra.
  - replace (71 / 100) with (sqrt (71 / 100 * (71 / 100))) by (apply sqrt_square; lra).
    apply sqrt_lt_1; lra.
Qed.

(** The level of a full-scale sine: [20 * log10 (sqrt (1/2))] is
    [-10 * log10 2], about -3.01 dB. *)
Lemma level_of_sqrt_half : 20 * log10 (sqrt (1 / 2)) = -10 * log10 2.
Proof.
  unfold log10. pose proof ln_10_pos. pose proof sqrt_half_bounds.
  assert (Hln : ln (sqrt (1 / 2)) + ln (sqrt (1 / 2)) = - ln 2).
  { rewrite <- ln_mult by lra. rewrite sqrt_sqrt by lra.
    replace (1 / 2) with (/ 2) by lra. apply ln_Rinv. lra. }
  replace (ln (sqrt (1 / 2))) with (- ln 2 / 2) by lra. field. lra.
Qed.

Lemma log10_2_bounds : 0 < log10 2 < 1.
Proof.
  unfold log10. pose proof ln_10_pos.
  assert (0 < ln 2) by (rewrite <- ln_1; apply ln_increasing; lra).
  assert (ln 2 < ln 10) by (apply ln_increasing; lra).
  split.
  - apply Rdiv_lt_0_compat; assumption.
  - apply (Rmult_lt_reg_r (ln 10)); [assumption|]. field_simplify; lra.
Qed.

(** The level of a window in terms of its mean square. *)
Lemma rms_db_finite (audio : list R) :
  audio <> [] -> 0 <= mean (map square audio) ->
  rms_db audio default_eps =
  Fin (20 * log10 (sqrt (mean (map square audio)) + default_eps)).
Proof.
  intros Hne Hms. unfold rms_db. destruct audio as [|x l]; [contradiction|].
  cbn [length Nat.eqb]. unfold np_log10.
  pose proof default_eps_pos. pose proof (sqrt_pos (mean (map square (x :: l)))).
  rewrite bool_decide_eq_true_2 by lra. reflexivity.
Qed.

Lemma loud_window_gate (audio : list R) (threshold_db : R) :
  audio <> [] -> 1 / 2 <= mean (map square audio) ->
  threshold_db <= -10 * log10 2 ->
  is_speech_window audio (Fin threshold_db) = true.
Proof.
  intros Hne Hms Ht. unfold is_speech_window.
  rewrite rms_db_finite by (assumption || lra).
  unfold Float.gt, Float.lt. apply bool_decide_eq_true_2.
  pose proof default_eps_pos. pose proof sqrt_half_bounds.
  assert (sqrt (1 / 2) <= sqrt (mean (map square audio))) by (apply sqrt_le_1; lra).
  assert (log10 (sqrt (1 / 2)) < log10 (sqrt (mean (map square audio)) + default_eps))
    by (apply log10_increasing; lra).
  pose proof level_of_sqrt_half. lra.
Qed.

(** C7, as it holds. A window whose mean square is at least 1/2, the mean
    square of a sine of peak amplitude 1.0 over whole periods, is classified
    as speech for every threshold up to [-10 * log10 2], about -3.01 dB. *)
Theorem full_scale_tone_is_speech (audio : list R) (threshold_db : R) :
  audio <> [] -> 1 / 2 <= mean (map square audio) ->
  threshold_db <= -10 * log10 2 ->
  is_speech_window audio (Fin threshold_db) = true.
Proof. exact (loud_window_gate audio threshold_db). Qed.

(** The tone at a quarter of the sample rate: 0, 1, 0, -1. *)
Lemma quarter_rate_tone : sine_tone 4 (PI / 2) 0 = [0; 1; 0; -1].
Proof.
  unfold sine_tone. simpl.
  replace (PI / 2 * 0 + 0) with 0 by lra.
  replace (PI / 2 * 1 + 0) with (PI / 2) by lra.
  replace (PI / 2 * (1 + 1) + 0) with PI by lra.
  replace (PI / 2 * (1 + 1 + 1) + 0) with (3 * (PI / 2)) by lra.
  rewrite sin_0, sin_PI2, sin_PI, sin_3PI2. reflexivity.
Qed.

Lemma quarter_rate_tone_mean_square : mean (map square (sine_tone 4 (PI / 2) 0)) = 1 / 2.
Proof. rewrite quarter_rate_tone. unfold mean, square. simpl. lra. Qed.

Lemma full_scale_tone_is_speech_witness :
  sine_tone 4 (PI / 2) 0 <> [] /\
  1 / 2 <= mean (map square (sine_tone 4 (PI / 2) 0)) /\
  -45 <= -10 * log10 2 /\
  is_speech_window (sine_tone 4 (PI / 2) 0) (Fin (-45)) = true.
Proof.
  assert (H1 : sine_tone 4 (PI / 2) 0 <> []) by (rewrite quarter_rate_tone; discriminate).
  assert (H2 : 1 / 2 <= mean (map square (sine_tone 4 (PI / 2) 0)))
    by (rewrite quarter_rate_tone_mean_square; lra).
  assert (H3 : -45 <= -10 * log10 2) by (pose proof log10_2_bounds; lra).
  repeat (split; [assumption|]).
  exact (full_scale_tone_is_speech (sine_tone 4 (PI / 2) 0) (-45) H1 H2 H3).
Defined.

(** C7 as stated fails: the sine of peak amplitude 1.0 at a quarter of the
    sample rate has a level of about -3.01 dB and is not speech at the
    threshold of -1 dB, which is below 0 dB. *)
Lemma tone_below_threshold :
  -1 < 0 /\ is_speech_window (sine_tone 4 (PI / 2) 0) (Fin (-1)) = false.
Proof.
  split; [lra|]. unfold is_speech_window.
  rewrite rms_db_finite;
    [| rewrite quarter_rate_tone; discriminate
     | rewrite quarter_rate_tone_mean_square; lra].
  rewrite quarter_rate_tone_mean_square.
  unfold Float.gt, Float.lt. apply bool_decide_eq_false_2.
  pose proof default_eps_pos. pose proof sqrt_half_bounds. pose proof ln_10_pos.
  assert (Heps : default_eps < 1 / 100).
  { unfold default_eps. apply (Rmult_lt_reg_r (10 ^ 12)); [apply pow_lt; lra|].
    rewrite Rinv_l by (apply pow_nonzero; lra). simpl. lra. }
  assert (Hlog : log10 (sqrt (1 / 2) + default_eps) < log10 (3 / 4))
    by (apply log10_increasing; lra).
  assert (Hpow : ln 10 < 20 * ln (4 / 3)).
  { replace 20 with (INR 20) by (simpl; lra). rewrite <- ln_pow by lra.
    apply ln_increasing; [lra|]. simpl. lra. }
  assert (Hinv : ln (3 / 4) = - ln (4 / 3)).
  { replace (3 / 4) with (/ (4 / 3)) by lra. apply ln_Rinv. lra. }
  assert (H34 : 20 * log10 (3 / 4) < -1).
  { unfold log10. rewrite Hinv.
    apply (Rmult_lt_reg_r (ln 10)); [assumption|]. field_simplify; lra. }
  lra.
Qed.

End VadFacts.

(** ** Heuristic score *)

Module HeuristicFacts.
Import Heuristic HeuristicNotions.
Local Open Scope R_scope.

Lemma clamp_unit (x : R) : Float._clamp (Fin x) (Fin 0) (Fin 1) = Fin (clamp01 x).
Proof.
  unfold Float._clamp, Float.max, Float.min, Float.gt, Float.lt, clamp01.
  destruct (bool_decide (x < 0)); simpl; destruct (bool_decide (1 < _)); reflexivity.
Qed.

Lemma clamp01_bounds (x : R) : 0 <= clamp01 x <= 1.
Proof. unfold clamp01. repeat case_bool_decide; lra. Qed.

Lemma logistic_bounds (x : R) : 0 < logistic x < 1.
Proof.
  unfold logistic. pose proof (exp_pos (- x)). split.
  - apply Rinv_0_lt_compat. lra.
  - rewrite <- Rinv_1 at 2. apply Rinv_lt_contravar; lra.
Qed.

Lemma sigmoid_finite (x : R) : _sigmoid (Fin x) = Ok (Fin (logistic x)).
Proof.
  unfold _sigmoid. simpl. pose proof (exp_pos (- x)).
  rewrite bool_decide_eq_false_2 by lra. reflexivity.
Qed.

(** On finite indicators the score is the logistic function, centred at
    0.35 with steepness 7, of the 0.50/0.35/0.15 combination of the three
    deficiency scores. *)
Lemma heuristic_p_fake_finite (indicators : gmap string pyfloat) (hf_ratio rolloff_hz flatness : R) :
  get indicators "hf_energy_ratio" (Fin 0) = Fin hf_ratio ->
  get indicators "spectral_rolloff_hz" (Fin 0) = Fin rolloff_hz ->
  get indicators "spectral_flatness" (Fin 0) = Fin flatness ->
  let cutoff_score := clamp01 ((6 / 100 - hf_ratio) / (6 / 100)) in
  let rolloff_score := clamp01 ((4200 - rolloff_hz) / 4200) in
  let flat_score := clamp01 ((12 / 100 - flatness) / (12 / 100)) in
  let raw := 50 / 100 * cutoff_score + 35 / 100 * rolloff_score + 15 / 100 * flat_score in
  heuristic_p_fake indicators =
  Ok (Fin (logistic ((raw - 35 / 100) * 7)), heuristic_reasons indicators).
Proof.
  intros Hhf Hro Hfl cutoff_score rolloff_score flat_score raw.
  unfold heuristic_p_fake, raw_score. rewrite Hhf, Hro, Hfl.
  unfold Float.div_const, Float.sub. simpl Float.neg. simpl Float.add at 4 5 6.
  simpl Float.mul at 2 4 6. rewrite !clamp_unit. simpl.
  rewrite sigmoid_finite. cbn [mbind outcome_bind obind]. rewrite clamp_unit.
  assert (Hid : forall x, clamp01 (logistic x) = logistic x).
  { intros x. pose proof (logistic_bounds x). unfold clamp01.
    rewrite (bool_decide_eq_false_2 (logistic x < 0)) by lra.
    rewrite bool_decide_eq_false_2 by lra. reflexivity. }
  rewrite Hid. reflexivity.
Qed.

Lemma healthy_values :
  get healthy "hf_energy_ratio" (Fin 0) = Fin (10 / 100) /\
  get healthy "spectral_rolloff_hz" (Fin 0) = Fin 5000 /\
  get healthy "spectral_flatness" (Fin 0) = Fin (20 / 100).
Proof. repeat split. Qed.

Lemma degraded_values :
  get degraded "hf_energy_ratio" (Fin 0) = Fin 0 /\
  get degraded "spectral_rolloff_hz" (Fin 0) = Fin 1000 /\
  get degraded "spectral_flatness" (Fin 0) = Fin (2 / 100).
Proof. repeat split. Qed.

Lemma clamp01_below (x : R) : x <= 0 -> clamp01 x = 0.
Proof. intros Hx. unfold clamp01. repeat case_bool_decide; lra. Qed.

Lemma clamp01_above (x : R) : 1 <= x -> clamp01 x = 1.
Proof. intros Hx. unfold clamp01. repeat case_bool_decide; lra. Qed.

Lemma clamp01_inside (x : R) : 0 <= x <= 1 -> clamp01 x = x.
Proof. intros Hx. unfold clamp01. repeat case_bool_decide; lra. Qed.

(** The logistic function is small on the left and large on the right. *)
Lemma logistic_low (x : R) : x <= -2 -> logistic x < 3 / 10.
Proof.
  intros Hx. unfold logistic. pose proof (exp_ineq1_le (- x)).
  replace (3 / 10) with (/ (10 / 3)) by lra.
  apply Rinv_lt_contravar; lra.
Qed.

Lemma logistic_high (x : R) : 2 <= x -> 7 / 10 < logistic x.
Proof.
  intros Hx. unfold logistic. pose proof (exp_pos (- x)).
  assert (Hinv : exp (- x) = / exp x).
  { rewrite exp_Ropp. reflexivity. }
  pose proof (exp_ineq1_le x). pose proof (exp_pos x).
  assert (exp (- x) < 3 / 7).
  { rewrite Hinv. replace (3 / 7) with (/ (7 / 3)) by lra.
    apply Rinv_lt_contravar; nra. }
  replace (7 / 10) with (/ (10 / 7)) by lra.
  apply Rinv_lt_contravar; nra.
Qed.

(** C8. [heuristic_p_fake] gives less than 0.3 on the healthy indicators
    and more than 0.7 on the degraded ones; on finite indicators the score is
    the logistic function, centred at 0.35 with steepness 7.0, of the
    0.50/0.35/0.15 combination of the three deficiency scores. *)
Theorem heuristic_scores :
  (exists p reasons, heuristic_p_fake healthy = Ok (Fin p, reasons) /\ p < 3 / 10) /\
  (exists p reasons, heuristic_p_fake degraded = Ok (Fin p, reasons) /\ 7 / 10 < p) /\
  (forall indicators hf_ratio rolloff_hz flatness,
     get indicators "hf_energy_ratio" (Fin 0) = Fin hf_ratio ->
     get indicators "spectral_rolloff_hz" (Fin 0) = Fin rolloff_hz ->
     get indicators "spectral_flatness" (Fin 0) = Fin flatness ->
     exists reasons,
       heuristic_p_fake indicators =
       Ok (Fin (logistic
                  ((50 / 100 * clamp01 ((6 / 100 - hf_ratio) / (6 / 100)) +
                    35 / 100 * clamp01 ((4200 - rolloff_hz) / 4200) +
                    15 / 100 * clamp01 ((12 / 100 - flatness) / (12 / 100)) -
                    35 / 100) * 7)), reasons)).
Proof.
  split; [|split].
  - destruct healthy_values as (Hhf & Hro & Hfl).
    rewrite (heuristic_p_fake_finite healthy _ _ _ Hhf Hro Hfl).
    do 2 eexists. split; [reflexivity|].
    rewrite !clamp01_below by lra. apply logistic_low. lra.
  - destruct degraded_values as (Hhf & Hro & Hfl).
    rewrite (heuristic_p_fake_finite degraded _ _ _ Hhf Hro Hfl).
    do 2 eexists. split; [reflexivity|].
    rewrite (clamp01_above ((6 / 100 - 0) / (6 / 100))) by lra.
    rewrite !clamp01_inside by lra. apply logistic_high. lra.
  - intros indicators hf_ratio rolloff_hz flatness Hhf Hro Hfl.
    eexists. apply (heuristic_p_fake_finite indicators _ _ _ Hhf Hro Hfl).
Qed.

End HeuristicFacts.

(** ** Resampling and the gate of the engine *)

Module PreprocessFacts.
Import Preprocess.
Section WithExternal.
Context `{External}.

(** C9. Resampling from a rate to the same rate returns the input signal,
    sample for sample. *)
Theorem resample_audio_same_rate (audio : list R) (sr : Z) :
  resample_audio audio sr sr = Ok audio.
Proof. unfold resample_audio. rewrite Z.eqb_refl. reflexivity. Qed.

Lemma preprocess_audio_same_rate (audio : list R) (sr : Z) :
  preprocess_audio audio sr sr false = Ok audio.
Proof. unfold preprocess_audio, resample_audio. rewrite Z.eqb_refl. reflexivity. Qed.

End WithExternal.
End PreprocessFacts.

Module EngineFacts.
Import Engine EngineNotions Demo.
Section WithExternal.
Context `{External}.
Local Open Scope R_scope.

(** The level the gate reads back from the indicators is the one [rms_db]
    computed. *)
Lemma extract_indicators_rms_db (audio : list R) (sr : Z) :
  Heuristic.get (Features.extract_indicators audio sr) "rms_db" NegInf =
  Vad.rms_db audio Vad.default_eps.
Proof.
  unfold Heuristic.get, Features.extract_indicators, Features.spectral_indicators,
    Features.dict_update.
  destruct (if (length audio =? 0)%nat then _ else _) as [[[[a b] c] d] e].
  reflexivity.
Qed.

Lemma infer_window_silent (e : VoiceGuardEngine) (audio audio_rs : list R) (orig_sr : Z) :
  Preprocess.preprocess_audio audio orig_sr (_target_sr e) false = Ok audio_rs ->
  Vad.is_speech_window audio_rs (Fin (rms_db_threshold (_config e))) = false ->
  infer_window e audio orig_sr =
  Ok (silent_result audio_rs (_target_sr e), after_silence e audio_rs).
Proof.
  intros Hpre Hgate. unfold infer_window. rewrite Hpre.
  cbn [mbind outcome_bind obind]. rewrite extract_indicators_rms_db.
  unfold Vad.is_speech_window in Hgate. rewrite Hgate. reflexivity.
Qed.

Lemma after_silence_models (e : VoiceGuardEngine) (audio_rs : list R) :
  _onnx (after_silence e audio_rs) = _onnx e /\
  _hf (after_silence e audio_rs) = _hf e /\
  _ema (after_silence e audio_rs) = _ema e /\
  backend (after_silence e audio_rs) = backend e.
Proof. unfold after_silence. destruct (_enhancer e); repeat split. Qed.

(** C5. When the signal reaches the gate and the gate finds no speech,
    [infer_window] returns, without raising, a result with
    [is_speech = false], [p_fake] and [p_fake_smooth] not-a-number and
    [confidence = 0]; the models and the smoothing state of the engine are
    those of before the call, whatever the backends would do when run, those
    that raise on every call included. *)
Theorem silent_window_result (e : VoiceGuardEngine) (audio audio_rs : list R) (orig_sr : Z) :
  Preprocess.preprocess_audio audio orig_sr (_target_sr e) false = Ok audio_rs ->
  Vad.is_speech_window audio_rs (Fin (rms_db_threshold (_config e))) = false ->
  exists res e',
    infer_window e audio orig_sr = Ok (res, e') /\
    is_speech res = false /\ p_fake res = NaN /\ p_fake_smooth res = NaN /\
    confidence res = Fin 0 /\ reasons res = [] /\
    _onnx e' = _onnx e /\ _hf e' = _hf e /\ _ema e' = _ema e /\ backend e' = backend e.
Proof.
  intros Hpre Hgate.
  exists (silent_result audio_rs (_target_sr e)), (after_silence e audio_rs).
  split; [apply infer_window_silent; assumption|].
  repeat (split; [reflexivity|]). apply after_silence_models.
Qed.

End WithExternal.

Local Open Scope R_scope.

Lemma silent_window_result_witness :
  @Preprocess.preprocess_audio demo_external [0; 0] 2 (_target_sr demo_engine) false
    = Ok [0; 0] /\
  Vad.is_speech_window [0; 0] (Fin (rms_db_threshold (_config demo_engine))) = false /\
  exists res e',
    infer_window demo_engine [0; 0] 2 = Ok (res, e') /\
    is_speech res = false /\ p_fake res = NaN /\ p_fake_smooth res = NaN /\
    confidence res = Fin 0 /\ reasons res = [] /\
    _onnx e' = _onnx demo_engine /\ _hf e' = _hf demo_engine /\
    _ema e' = _ema demo_engine /\ backend e' = backend demo_engine.
Proof.
  assert (H1 : @Preprocess.preprocess_audio demo_external [0; 0] 2
                 (_target_sr demo_engine) false = Ok [0; 0]) by reflexivity.
  assert (H2 : Vad.is_speech_window [0; 0]
                 (Fin (rms_db_threshold (_config demo_engine))) = false).
  { apply (VadFacts.rms_db_silence_gate [0; 0] (-45));
      [discriminate | repeat constructor | lra]. }
  split; [exact H1|]. split; [exact H2|].
  exact (silent_window_result demo_engine [0; 0] [0; 0] 2 H1 H2).
Defined.

End EngineFacts.

(** ** Aggregation over a clip and alerts in file mode *)

Module AnalysisFacts.
Import Alerts Engine Analysis AnalysisNotions HeuristicNotions Demo.
Section WithExternal.
Context `{External}.
Local Open Scope R_scope.

Lemma max_same (x : pyfloat) : Float.max x x = x.
Proof. unfold Float.max. destruct (Float.gt x x); reflexivity. Qed.

Lemma summarize_ok (engine : VoiceGuardEngine) (alert : AlertTracker)
      (windows : list WindowScore) (audio_rs : list R) (config : AppConfig)
      (target_sr total : Z) :
  exists s p_clip,
    summarize engine alert windows audio_rs config target_sr total = Ok s /\
    whole_clip engine windows audio_rs target_sr (speech_p_vals windows) (p95_of windows)
      = Ok p_clip /\
    p_fake_p95 s = p95_of windows /\
    p_fake_overall s = Float.max (p95_of windows) p_clip /\
    alert_segments s = segments alert /\
    total_windows s = total.
Proof.
  unfold summarize. fold (p95_of windows).
  destruct (whole_clip engine windows audio_rs target_sr (speech_p_vals windows)
                       (p95_of windows)) as [p_clip|e] eqn:Hclip.
  - eexists _, p_clip. cbn [mbind outcome_bind obind].
    split; [reflexivity|]. repeat split.
  - exfalso. unfold whole_clip in Hclip.
    destruct (String.eqb _ _ && _); [|discriminate].
    unfold try_except in Hclip. destruct (clip_score _ _ _ _ _); discriminate.
Qed.

Lemma no_speech_no_p_vals (windows : list WindowScore) :
  Forall (fun w => is_speech (result w) = false) windows -> speech_p_vals windows = [].
Proof.
  unfold speech_p_vals. induction 1 as [|w l Hw _ IH]; simpl; [reflexivity|].
  rewrite Hw. simpl. exact IH.
Qed.

Lemma backend_is_hf (b : Backend) :
  String.eqb (lower (backend_name b)) "hf" = true <-> b = hf.
Proof. destruct b; simpl; split; intros Hb; congruence. Qed.

(** C2. The aggregation always returns a summary: nothing raised by the
    whole-clip inference reaches the caller. Its [p_fake_overall] is the
    maximum of the 95th-percentile score and the clip score, where the clip
    score is the probability of the whole-clip inference when the backend is
    the pretrained classifier, some speech window has a probability, the clip
    is not empty and the inference returns a speech result that is a number,
    and is the 95th-percentile score otherwise; so [p_fake_overall] is exactly
    the 95th-percentile score when the backend is another one, when no window
    is speech, and when the inference raises or returns a result that is not
    speech or not a number. *)
Theorem overall_is_max_of_p95_and_clip (engine : VoiceGuardEngine) (alert : AlertTracker)
        (windows : list WindowScore) (audio_rs : list R) (config : AppConfig)
        (target_sr total : Z) :
  exists s,
    summarize engine alert windows audio_rs config target_sr total = Ok s /\
    p_fake_p95 s = p95_of windows /\
    (forall clip res e',
       backend engine = hf -> speech_p_vals windows <> [] ->
       clip_audio windows audio_rs target_sr = Some clip ->
       infer_window engine clip target_sr = Ok (res, e') ->
       is_speech res = true -> Float.isnan (p_fake res) = false ->
       p_fake_overall s = Float.max (p_fake_p95 s) (p_fake res)) /\
    (backend engine <> hf -> p_fake_overall s = p_fake_p95 s) /\
    (Forall (fun w => is_speech (result w) = false) windows ->
     p_fake_overall s = p_fake_p95 s) /\
    (speech_p_vals windows = [] -> p_fake_overall s = p_fake_p95 s) /\
    (clip_audio windows audio_rs target_sr = None -> p_fake_overall s = p_fake_p95 s) /\
    (forall clip e,
       clip_audio windows audio_rs target_sr = Some clip ->
       infer_window engine clip target_sr = Raise e ->
       p_fake_overall s = p_fake_p95 s) /\
    (forall clip res e',
       clip_audio windows audio_rs target_sr = Some clip ->
       infer_window engine clip target_sr = Ok (res, e') ->
       is_speech res = false \/ Float.isnan (p_fake res) = true ->
       p_fake_overall s = p_fake_p95 s).
Proof.
  destruct (summarize_ok engine alert windows audio_rs config target_sr total)
    as (s & p_clip & Hs & Hclip & Hp95 & Hoverall & _ & _).
  exists s. split; [exact Hs|]. split; [exact Hp95|].
  rewrite Hoverall, Hp95. unfold whole_clip in Hclip.
  assert (Hempty : speech_p_vals windows = [] -> p_clip = p95_of windows).
  { intros Hnil. rewrite Hnil in Hclip. simpl in Hclip.
    rewrite andb_false_r in Hclip. congruence. }
  split; [|split; [|split; [|split; [|split; [|split]]]]].
  - intros clip res e' Hhf Hvals Hsome Hinfer Hspeech Hnan.
    apply backend_is_hf in Hhf. rewrite Hhf in Hclip.
    destruct (speech_p_vals windows) as [|v vs]; [contradiction|].
    simpl in Hclip. unfold clip_score in Hclip. rewrite Hsome, Hinfer in Hclip.
    cbn [mbind outcome_bind obind] in Hclip. rewrite Hspeech, Hnan in Hclip.
    simpl in Hclip. congruence.
  - intros Hother.
    destruct (String.eqb (lower (backend_name (backend engine))) "hf") eqn:Hb.
    + apply backend_is_hf in Hb. contradiction.
    + simpl in Hclip. injection Hclip as <-. apply max_same.
  - intros Hnone. rewrite (Hempty (no_speech_no_p_vals windows Hnone)). apply max_same.
  - intros Hnil. rewrite (Hempty Hnil). apply max_same.
  - intros Hnone.
    destruct (String.eqb _ _ && _); [|injection Hclip as <-; apply max_same].
    unfold clip_score in Hclip. rewrite Hnone in Hclip. simpl in Hclip.
    injection Hclip as <-. apply max_same.
  - intros clip e Hsome Hinfer.
    destruct (String.eqb _ _ && _); [|injection Hclip as <-; apply max_same].
    unfold clip_score in Hclip. rewrite Hsome, Hinfer in Hclip. simpl in Hclip.
    injection Hclip as <-. apply max_same.
  - intros clip res e' Hsome Hinfer Hbad.
    destruct (String.eqb _ _ && _); [|injection Hclip as <-; apply max_same].
    unfold clip_score in Hclip. rewrite Hsome, Hinfer in Hclip.
    cbn [mbind outcome_bind obind try_except] in Hclip.
    destruct Hbad as [Hbad|Hbad]; rewrite Hbad in Hclip;
      rewrite ?andb_false_r in Hclip; simpl in Hclip;
      injection Hclip as <-; apply max_same.
Qed.

Lemma snoc_not_nil {A : Type} (l : list A) (x : A) : l ++ [x] <> [].
Proof. destruct l; discriminate. Qed.

Lemma rmin_le_r (a b : R) : Float.rmin a b <= b.
Proof. unfold Float.rmin. case_bool_decide; lra. Qed.

Lemma make_alert_file (config : AppConfig) (source_kind : string) :
  lower source_kind = "file"%string ->
  _hold_sec (make_alert config source_kind) =
    Float.rmin (alert_hold_sec config) (hop_sec config) /\
  file_tracker config (make_alert config source_kind) /\
  _segments (make_alert config source_kind) = [].
Proof.
  intros Hfile. unfold make_alert, effective_hold_sec. rewrite Hfile. simpl.
  split; [reflexivity|]. split; [|reflexivity].
  constructor; simpl; [reflexivity | apply rmin_le_r | reflexivity].
Qed.

Lemma close_alert_file (config : AppConfig) (tr : AlertTracker) (t_end : R) :
  file_tracker config tr ->
  file_tracker config (close_alert tr t_end) /\
  (triggered tr -> triggered (close_alert tr t_end)) /\
  (triggered tr -> _segments (close_alert tr t_end) <> []).
Proof.
  intros [Hthr Hhold Hidle]. unfold close_alert, triggered.
  destruct (_active tr); simpl.
  - split; [constructor; simpl; auto|].
    split; [intros _; left|intros _]; apply snoc_not_nil.
  - split; [constructor; simpl; auto|].
    split; intros [Hs|Ha]; auto; discriminate.
Qed.

Lemma update_file (config : AppConfig) (tr : AlertTracker) (t_start t_end : R)
      (p : pyfloat) (speech : bool) :
  file_tracker config tr ->
  file_tracker config (fst (update tr t_start t_end p speech)) /\
  (triggered tr -> triggered (fst (update tr t_start t_end p speech))) /\
  (speech = true -> Float.ge p (Fin (alert_threshold config)) = true ->
   triggered (fst (update tr t_start t_end p speech))).
Proof.
  intros Hft. pose proof Hft as [Hthr Hhold Hidle].
  destruct (close_alert_file config tr t_end Hft) as (Hc1 & Hc2 & _).
  unfold update. rewrite Hthr.
  generalize (Float.ge p (Fin (alert_threshold config))). intros above_threshold.
  destruct speech; simpl.
  2:{ split; [assumption|]. split; [assumption | discriminate]. }
  destruct above_threshold.
  2:{ split; [assumption|]. split; [assumption | discriminate]. }
  destruct (_active tr) eqn:Hact; simpl.
  - split; [constructor; simpl; auto; discriminate|].
    split; intros; right; reflexivity.
  - rewrite (Hidle eq_refl), Rplus_0_l.
    rewrite bool_decide_eq_true_2 by exact Hhold. simpl.
    split; [constructor; simpl; auto; discriminate|].
    split; intros; right; reflexivity.
Qed.

Lemma score_window_file (config : AppConfig) (target_sr window_samples : Z)
      (source_kind : string) (st st' : LoopState) (item : Z * list R) :
  lower source_kind = "file"%string ->
  score_window target_sr window_samples source_kind st item = Ok st' ->
  file_tracker config (ls_alert st) ->
  (Exists (hot config) (ls_windows st) -> triggered (ls_alert st)) ->
  file_tracker config (ls_alert st') /\
  (Exists (hot config) (ls_windows st') -> triggered (ls_alert st')).
Proof.
  intros Hfile Hstep Hft Htrig. unfold score_window in Hstep. destruct item as [start win].
  destruct (infer_window (ls_engine st) win target_sr) as [[res engine]|e]; [|discriminate].
  cbn [mbind outcome_bind obind] in Hstep. injection Hstep as <-. simpl.
  unfold p_alert, use_raw_for_alert. rewrite Hfile. simpl.
  destruct (is_speech res) eqn:Hspeech.
  - destruct (update_file config (ls_alert st) (IZR start / IZR target_sr)
                (IZR (start + window_samples) / IZR target_sr) (p_fake res) true Hft)
      as (H1 & H2 & H3).
    split; [assumption|]. intros Hex. apply Exists_app in Hex as [Hex|Hex]; [auto|].
    apply Exists_cons in Hex as [[_ Hge]|Hex]; [|inversion Hex]. simpl in Hge. auto.
  - destruct (update_file config (ls_alert st) (IZR start / IZR target_sr)
                (IZR (start + window_samples) / IZR target_sr) (Fin 0) false Hft)
      as (H1 & H2 & _).
    split; [assumption|]. intros Hex. apply Exists_app in Hex as [Hex|Hex]; [auto|].
    apply Exists_cons in Hex as [[Hs _]|Hex]; [|inversion Hex]. simpl in Hs. congruence.
Qed.

Lemma score_windows_file (config : AppConfig) (target_sr window_samples : Z)
      (source_kind : string) (items : list (Z * list R)) :
  lower source_kind = "file"%string -> forall st st',
  score_windows target_sr window_samples source_kind items st = Ok st' ->
  file_tracker config (ls_alert st) ->
  (Exists (hot config) (ls_windows st) -> triggered (ls_alert st)) ->
  file_tracker config (ls_alert st') /\
  (Exists (hot config) (ls_windows st') -> triggered (ls_alert st')).
Proof.
  intros Hfile. induction items as [|item rest IH]; intros st st' Hrun Hft Htrig.
  - simpl in Hrun. injection Hrun as <-. auto.
  - simpl in Hrun.
    destruct (score_window target_sr window_samples source_kind st item) as [st1|e] eqn:Hstep;
      [|discriminate].
    cbn [mbind outcome_bind obind] in Hrun.
    destruct (score_window_file config _ _ _ _ _ _ Hfile Hstep Hft Htrig) as [Hft1 Htrig1].
    exact (IH st1 st' Hrun Hft1 Htrig1).
Qed.

(** C10. In a file analysis the tracker is built with the hold duration
    [min (alert_hold_sec, hop_sec)] and is fed the raw [p_fake] of every
    speech window; hence, whatever [alert_hold_sec] is, an analysis that
    contains one speech window with [p_fake] at or above the alert threshold
    reports at least one alert segment. *)
Theorem file_mode_single_window_alert (engine : VoiceGuardEngine) (audio : list R)
        (orig_sr : Z) (config : AppConfig) (source_kind source : string)
        (res : AnalysisResult) :
  lower source_kind = "file"%string ->
  analyze_audio engine audio orig_sr config source_kind source = Ok res ->
  _hold_sec (make_alert config source_kind) =
    Float.rmin (alert_hold_sec config) (hop_sec config) /\
  (forall r, p_alert source_kind r = p_fake r) /\
  (Exists (hot config) (windows res) -> alert_segments (summary res) <> []).
Proof.
  intros Hfile Hrun.
  destruct (make_alert_file config source_kind Hfile) as (Hhold & Hft & Hnil).
  split; [exact Hhold|]. split.
  { intros r. unfold p_alert, use_raw_for_alert. rewrite Hfile. reflexivity. }
  unfold analyze_audio in Hrun.
  destruct (Preprocess.preprocess_audio audio orig_sr (sample_rate config) false)
    as [audio_rs|e]; [|discriminate].
  cbn [mbind outcome_bind obind] in Hrun.
  destruct (window_params (sample_rate config) (window_sec config) (hop_sec config))
    as [[window_samples hop_samples]|e]; [|discriminate].
  cbn [mbind outcome_bind obind] in Hrun.
  destruct (Windowing.iter_windows 0 audio_rs window_samples hop_samples)
    as [items|e]; [|discriminate].
  cbn [mbind outcome_bind obind] in Hrun.
  destruct (score_windows (sample_rate config) window_samples source_kind items _)
    as [st|e] eqn:Hloop; [|discriminate].
  cbn [mbind outcome_bind obind] in Hrun.
  destruct (summarize_ok (ls_engine st) (finalize_alert (ls_alert st) (ls_windows st))
              (ls_windows st) audio_rs config (sample_rate config)
              (Windowing.estimate_num_windows (Z.of_nat (length audio_rs))
                 window_samples hop_samples))
    as (s & p_clip & Hs & _ & _ & _ & Hsegs & _).
  rewrite Hs in Hrun. cbn [mbind outcome_bind obind] in Hrun. injection Hrun as <-.
  simpl. rewrite Hsegs.
  apply score_windows_file with (config := config) in Hloop; simpl; auto.
  2:{ intros Hex. inversion Hex. }
  destruct Hloop as [Hft' Htrig]. intros Hex. specialize (Htrig Hex).
  unfold finalize_alert, finalize, segments.
  destruct (last (ls_windows st)) as [w|] eqn:Hlast.
  - apply (close_alert_file config); assumption.
  - apply last_None in Hlast. rewrite Hlast in Hex. inversion Hex.
Qed.

End WithExternal.

Local Open Scope R_scope.

Lemma round_IZR (n : Z) : Float.round (IZR n) = n.
Proof.
  unfold Float.round.
  assert (Hn : Int_part (IZR n) = n) by (symmetry; apply Int_part_spec; lra).
  rewrite Hn. replace (IZR n - IZR n) with 0 by lra.
  rewrite bool_decide_eq_true_2 by lra. reflexivity.
Qed.

Lemma demo_window_params : window_params 2 1 1 = Ok (2%Z, 2%Z).
Proof.
  unfold window_params, _sec_to_samples. replace (1 * IZR 2) with (IZR 2) by lra.
  rewrite round_IZR. reflexivity.
Qed.

(** The pretrained classifier of the demonstration scores a loud window. *)
Lemma demo_infer_window :
  exists r e',
    infer_window demo_engine [1; 1] 2 = Ok (r, e') /\
    is_speech r = true /\ p_fake r = Fin (9 / 10).
Proof.
  assert (Hgate : Vad.is_speech_window [1; 1] (Fin (-45)) = true).
  { apply VadFacts.loud_window_gate; [discriminate | |].
    - unfold Vad.mean, Vad.square. simpl. lra.
    - pose proof VadFacts.log10_2_bounds. lra. }
  do 2 eexists. split.
  - unfold infer_window.
    change (_target_sr demo_engine) with 2%Z.
    rewrite (PreprocessFacts.preprocess_audio_same_rate (H := demo_external)).
    cbn [mbind outcome_bind obind].
    rewrite (EngineFacts.extract_indicators_rms_db (H := demo_external)).
    unfold Vad.is_speech_window in Hgate.
    change (rms_db_threshold (_config demo_engine)) with (-45).
    rewrite Hgate. reflexivity.
  - split; [reflexivity|]. cbn [p_fake].
    rewrite HeuristicFacts.clamp_unit, HeuristicFacts.clamp01_inside by lra. reflexivity.
Qed.

(** A file analysis of one loud window on the demonstration engine. *)
Lemma demo_analysis :
  exists res,
    analyze_audio demo_engine [1; 1] 2 demo_config "file" "clip"
      = Ok res /\
    Exists (hot demo_config) (windows res).
Proof.
  destruct demo_infer_window as (r & e' & Hinfer & Hspeech & Hp).
  set (w := mkWindowScore (IZR 0 / IZR 2) (IZR (0 + 2) / IZR 2) r).
  set (alert :=
         if is_speech r
         then fst (update (make_alert demo_config "file")
                          (IZR 0 / IZR 2) (IZR (0 + 2) / IZR 2) (p_alert "file" r) true)
         else fst (update (make_alert demo_config "file")
                          (IZR 0 / IZR 2) (IZR (0 + 2) / IZR 2) (Fin 0) false)).
  destruct (summarize_ok (H := demo_external) e' (finalize_alert alert ([] ++ [w]))
              ([] ++ [w]) [1; 1] demo_config 2
              (Windowing.estimate_num_windows (Z.of_nat (length [1; 1])) 2 2))
    as (s & p_clip & Hs & _).
  exists (mkAnalysisResult "file" "clip" 2 1 1 (backend_name (backend e')) ([] ++ [w]) s).
  split.
  - unfold analyze_audio.
    change (sample_rate demo_config) with 2%Z.
    change (window_sec demo_config) with 1.
    change (hop_sec demo_config) with 1.
    rewrite (PreprocessFacts.preprocess_audio_same_rate (H := demo_external)).
    cbn [mbind outcome_bind obind]. rewrite demo_window_params.
    cbn [mbind outcome_bind obind].
    change (Windowing.iter_windows 0 [1; 1] 2 2) with (Ok [(0%Z, [1; 1])]).
    cbn [mbind outcome_bind obind score_windows score_window ls_engine].
    change (reset_state demo_engine) with demo_engine.
    rewrite Hinfer. cbn [mbind outcome_bind obind ls_engine ls_alert ls_windows].
    fold w. fold alert. rewrite Hs. reflexivity.
  - subst w. cbn [windows app]. apply Exists_cons. left.
    split; cbn [result]; [assumption|].
    rewrite Hp. unfold Float.ge, Float.le. apply bool_decide_eq_true_2.
    change (alert_threshold demo_config) with (8 / 10). lra.
Qed.

Lemma file_mode_single_window_alert_witness :
  exists res,
    lower "file" = "file"%string /\
    analyze_audio demo_engine [1; 1] 2 demo_config "file" "clip"
      = Ok res /\
    Exists (hot demo_config) (windows res) /\
    _hold_sec (make_alert demo_config "file") =
      Float.rmin (alert_hold_sec demo_config) (hop_sec demo_config) /\
    (forall r, p_alert "file" r = p_fake r) /\
    (Exists (hot demo_config) (windows res) ->
     alert_segments (summary res) <> []).
Proof.
  destruct demo_analysis as (res & Hrun & Hhot).
  exists res. split; [reflexivity|]. split; [exact Hrun|]. split; [exact Hhot|].
  exact (file_mode_single_window_alert (H := demo_external) demo_engine [1; 1] 2
           demo_config "file" "clip" res eq_refl Hrun).
Defined.

End AnalysisFacts.

(** * Further properties of the code *)

(** ** Windowing: shape of the windows, chunking, memory of the stream *)

Module WindowingMore.
Import Py PyNotions PyFacts Windowing WindowingNotions WindowingFacts.

Lemma rng_lookup (stop step : Z) :
  0 < step -> forall cur (k : nat) x,
  rng cur stop step !! k = Some x -> x = cur + Z.of_nat k * step /\ x < stop.
Proof.
  intros Hstep cur. pattern cur. apply (rng_ind stop step); [assumption| |]; clear cur.
  - intros cur Hge k x. rewrite rng_nil by assumption. intros Hk. discriminate Hk.
  - intros cur Hlt IH k x. rewrite rng_unfold by assumption.
    destruct (Z.ltb_spec cur stop); [|lia].
    destruct k as [|k]; simpl.
    + intros [= <-]. lia.
    + intros Hk. destruct (IH k x Hk). lia.
Qed.

Lemma rng_length_app (stop stop' step : Z) (cur : Z) :
  0 < step -> stop <= stop' ->
  length (rng cur stop' step) =
  (length (rng cur stop step) +
   length (rng (cur + step * Z.of_nat (length (rng cur stop step))) stop' step))%nat.
Proof.
  intros Hstep Hle. rewrite (rng_split stop stop' step Hstep Hle cur) at 1.
  apply length_app.
Qed.

Section Facts.
Context {sample : Type} (zero : sample).
Implicit Types (audio s chunk : list sample) (p : StreamWindowProcessor (sample := sample)).

Lemma iter_windows_returns (w hop : Z) audio :
  0 < w -> 0 < hop -> exists windows, iter_windows zero audio w hop = Ok windows.
Proof.
  intros Hw Hhop.
  destruct (Z_lt_le_dec (Z.of_nat (length audio)) w) as [Hshort|Hlong].
  - unfold iter_windows.
    destruct (Z.of_nat (length audio) =? 0); [eexists; reflexivity|].
    destruct (Z.ltb_spec (Z.of_nat (length audio)) w); [eexists; reflexivity | lia].
  - eexists. apply iter_windows_long; assumption.
Qed.

(** X1. Every window [iter_windows] yields has exactly [window_samples]
    samples and the [k]-th one starts at sample [k * hop_samples]; a window of
    a signal at least one window long is the slice of the signal at its
    start, and the one window of a shorter signal is the signal followed by
    zeros. *)
Theorem iter_windows_shape (w hop : Z) audio :
  0 < w -> 0 < hop ->
  exists windows,
    iter_windows zero audio w hop = Ok windows /\
    forall (k : nat) start win,
      windows !! k = Some (start, win) ->
      start = Z.of_nat k * hop /\
      Z.of_nat (length win) = w /\
      (w <= Z.of_nat (length audio) ->
       start + w <= Z.of_nat (length audio) /\
       win = take (Z.to_nat w) (drop (Z.to_nat start) audio)) /\
      (Z.of_nat (length audio) < w ->
       win = audio ++ replicate (Z.to_nat (w - Z.of_nat (length audio))) zero).
Proof.
  intros Hw Hhop.
  destruct (Z_lt_le_dec (Z.of_nat (length audio)) w) as [Hshort|Hlong].
  - unfold iter_windows.
    destruct (Z.eqb_spec (Z.of_nat (length audio)) 0) as [Hzero|Hpos].
    + eexists. split; [reflexivity|]. intros k start win Hk. discriminate Hk.
    + destruct (Z.ltb_spec (Z.of_nat (length audio)) w); [|lia].
      eexists. split; [reflexivity|]. intros k start win Hk.
      destruct k as [|k]; [|discriminate Hk]. injection Hk as <- <-.
      split; [lia|]. split; [|split; [lia | reflexivity]].
      rewrite length_app, length_replicate. lia.
  - eexists. split; [apply iter_windows_long; assumption|].
    intros k start win Hk. unfold whole_windows in Hk.
    rewrite list_lookup_fmap in Hk.
    destruct (map (window_at w audio) (rng 0 (Z.of_nat (length audio) - w + 1) hop) !! k)
      as [sw|] eqn:Hsw; [|discriminate Hk].
    rewrite list_lookup_fmap in Hsw.
    destruct (rng 0 (Z.of_nat (length audio) - w + 1) hop !! k) as [x|] eqn:Hx;
      [|discriminate Hsw].
    apply rng_lookup in Hx as [Hx Hstop]; [|assumption].
    simpl in Hsw. injection Hsw as <-. simpl in Hk. injection Hk as <- <-.
    assert (Hslice : slice audio x (x + w) = take (Z.to_nat w) (drop (Z.to_nat x) audio)).
    { rewrite slice_inside by lia. f_equal. lia. }
    split; [lia|]. split; [|split; [split; [lia | exact Hslice] | lia]].
    rewrite slice_length by lia. lia.
Qed.

(** The cursor after a sequence of pushes. *)
Lemma push_all_next (w hop : Z) (chunks : list (list sample)) :
  0 < w -> 0 < hop <= w -> forall s p,
  consistent w hop p s ->
  _next_window_start (fst (push_all p chunks)) =
  _next_window_start p +
  hop * Z.of_nat (length (rng (_next_window_start p)
                              (Z.of_nat (length (s ++ concat chunks)) - w + 1) hop)).
Proof.
  intros Hw Hhop. induction chunks as [|chunk rest IH]; intros s p Hc.
  - simpl. rewrite app_nil_r. destruct Hc. rewrite rng_nil by lia. simpl. lia.
  - simpl. destruct (push p chunk) as [p1 ws] eqn:Hpush.
    destruct (push_all p1 rest) as [p2 ws'] eqn:Hrest. simpl.
    pose proof (push_spec w hop s chunk p Hw Hhop Hc) as (Hc1 & Hnext1 & _).
    rewrite Hpush in Hc1, Hnext1. simpl in Hc1, Hnext1.
    pose proof (IH (s ++ chunk) p1 Hc1) as Hnext2.
    rewrite Hrest in Hnext2. simpl in Hnext2. rewrite <- app_assoc in Hnext2.
    rewrite Hnext2, Hnext1.
    assert (Hstops : Z.of_nat (length (s ++ chunk)) - w + 1 <=
                     Z.of_nat (length (s ++ chunk ++ concat rest)) - w + 1)
      by (rewrite !length_app; lia).
    rewrite (rng_length_app _ _ hop (_next_window_start p) (proj1 Hhop) Hstops).
    lia.
Qed.

(** X2. With [0 < hop_samples <= window_samples] the windows a stream
    yields depend on the samples pushed only, not on how they were cut into
    chunks. *)
Theorem streaming_ignores_chunking (w hop : Z) (chunks1 chunks2 : list (list sample)) p :
  0 < w -> 0 < hop <= w -> new_processor w hop = Ok p ->
  concat chunks1 = concat chunks2 ->
  snd (push_all p chunks1) = snd (push_all p chunks2).
Proof.
  intros Hw Hhop Hnew Hsame.
  destruct (@new_processor_consistent sample w hop Hw (proj1 Hhop)) as (p' & Hnew' & Hc & Hnext).
  rewrite Hnew in Hnew'. injection Hnew' as <-.
  destruct (push_all_spec w hop chunks1 Hw Hhop [] p Hc) as [_ H1].
  destruct (push_all_spec w hop chunks2 Hw Hhop [] p Hc) as [_ H2].
  simpl in H1, H2. rewrite H1, H2, Hsame. reflexivity.
Qed.

(** X3. With [0 < hop_samples <= window_samples], after any sequence of
    pushes the buffer of the stream is the part of the stream from the cursor
    on, and holds fewer than [window_samples] samples. *)
Theorem stream_buffer_bounded (w hop : Z) (chunks : list (list sample)) p :
  0 < w -> 0 < hop <= w -> new_processor w hop = Ok p ->
  let p' := fst (push_all p chunks) in
  _buffer p' = drop (Z.to_nat (_next_window_start p')) (concat chunks) /\
  _buffer_start p' = _next_window_start p' /\
  Z.of_nat (length (_buffer p')) < w.
Proof.
  intros Hw Hhop Hnew p'.
  destruct (@new_processor_consistent sample w hop Hw (proj1 Hhop)) as (p0 & Hnew' & Hc & Hnext).
  rewrite Hnew in Hnew'. injection Hnew' as <-.
  destruct (push_all_spec w hop chunks Hw Hhop [] p Hc) as [[_ _ _ Hbs Hn Hexit Hbuf] _].
  simpl in Hbs, Hn, Hexit, Hbuf. fold p' in Hbs, Hn, Hexit, Hbuf.
  split; [exact Hbuf|]. split; [exact Hbs|].
  rewrite Hbuf, length_drop. lia.
Qed.

(** X4. With [0 < hop_samples <= window_samples] a stream of [n] samples
    has yielded no window when [n < window_samples] and
    [1 + floor((n - window_samples) / hop_samples)] windows otherwise; its
    sample counter is [n] and its cursor stands at [hop_samples] times the
    number of windows yielded. *)
Theorem stream_window_count (w hop : Z) (chunks : list (list sample)) p :
  0 < w -> 0 < hop <= w -> new_processor w hop = Ok p ->
  let n := Z.of_nat (length (concat chunks)) in
  let p' := fst (push_all p chunks) in
  let count := Z.of_nat (length (snd (push_all p chunks))) in
  count = (if n <? w then 0 else 1 + (n - w) / hop) /\
  _total_samples p' = n /\
  _next_window_start p' = hop * count.
Proof.
  intros Hw Hhop Hnew n p' count.
  destruct (@new_processor_consistent sample w hop Hw (proj1 Hhop)) as (p0 & Hnew' & Hc & Hnext).
  rewrite Hnew in Hnew'. injection Hnew' as <-.
  destruct (push_all_spec w hop chunks Hw Hhop [] p Hc) as [[_ _ Htot _ _ _ _] Hws].
  pose proof (push_all_next w hop chunks Hw Hhop [] p Hc) as Hcursor.
  simpl in Htot, Hws, Hcursor. rewrite Hnext in Hws, Hcursor.
  assert (Hcount : count = Z.of_nat (length (rng 0 (n - w + 1) hop))).
  { subst count n. rewrite Hws. unfold whole_windows. rewrite length_map. reflexivity. }
  split; [|split; [exact Htot | subst p'; rewrite Hcursor, Hcount; subst n; lia]].
  rewrite Hcount, rng_length by lia.
  destruct (Z.ltb_spec 0 (n - w + 1)); destruct (Z.ltb_spec n w); try lia.
  do 2 f_equal. lia.
Qed.

(** X5. When [window_params] returns, both sample counts are positive and
    are the rounded products of the durations with the sample rate; with such
    counts [iter_windows] never raises. *)
Theorem window_params_positive (sample_rate : Z) (window_sec hop_sec : R) (w hop : Z) audio :
  Analysis.window_params sample_rate window_sec hop_sec = Ok (w, hop) ->
  w = Analysis._sec_to_samples window_sec sample_rate /\
  hop = Analysis._sec_to_samples hop_sec sample_rate /\
  0 < w /\ 0 < hop /\
  exists windows, iter_windows zero audio w hop = Ok windows.
Proof.
  unfold Analysis.window_params. intros Hparams.
  destruct (Z.leb_spec (Analysis._sec_to_samples window_sec sample_rate) 0);
    [discriminate|].
  destruct (Z.leb_spec (Analysis._sec_to_samples hop_sec sample_rate) 0);
    [discriminate|].
  injection Hparams as <- <-. repeat (split; [reflexivity || assumption|]).
  apply iter_windows_returns; assumption.
Qed.

End Facts.

Local Open Scope R_scope.

Lemma iter_windows_shape_witness :
  (0 < 2)%Z /\ (0 < 2)%Z /\
  exists windows,
    iter_windows 0 [1; 2; 3; 4; 5] 2 2 = Ok windows /\
    forall (k : nat) start win,
      windows !! k = Some (start, win) ->
      start = (Z.of_nat k * 2)%Z /\
      Z.of_nat (length win) = 2%Z /\
      ((2 <= Z.of_nat (length [1; 2; 3; 4; 5]))%Z ->
       (start + 2 <= Z.of_nat (length [1; 2; 3; 4; 5]))%Z /\
       win = take (Z.to_nat 2) (drop (Z.to_nat start) [1; 2; 3; 4; 5])) /\
      ((Z.of_nat (length [1; 2; 3; 4; 5]) < 2)%Z ->
       win = [1; 2; 3; 4; 5] ++
             replicate (Z.to_nat (2 - Z.of_nat (length [1; 2; 3; 4; 5]))) 0).
Proof.
  split; [lia|]. split; [lia|].
  apply (iter_windows_shape 0 2 2 [1; 2; 3; 4; 5]); lia.
Defined.

Lemma streaming_ignores_chunking_witness :
  (0 < 3)%Z /\ (0 < 2 <= 3)%Z /\
  new_processor 3 2 = Ok (mkProcessor 3 2 ([] : list R) 0 0 0) /\
  concat [[1; 2]; [3; 4; 5]] = concat [[1]; [2; 3; 4]; []; [5]] /\
  snd (push_all (mkProcessor 3 2 [] 0 0 0) [[1; 2]; [3; 4; 5]]) =
  snd (push_all (mkProcessor 3 2 [] 0 0 0) [[1]; [2; 3; 4]; []; [5]]).
Proof.
  split; [lia|]. split; [lia|]. split; [reflexivity|]. split; [reflexivity|].
  apply (streaming_ignores_chunking 3 2); [lia | lia | reflexivity | reflexivity].
Defined.

Lemma stream_buffer_bounded_witness :
  (0 < 3)%Z /\ (0 < 2 <= 3)%Z /\
  new_processor 3 2 = Ok (mkProcessor 3 2 ([] : list R) 0 0 0) /\
  let p' := fst (push_all (mkProcessor 3 2 [] 0 0 0) [[1; 2]; [3; 4; 5; 6]]) in
  _buffer p' = drop (Z.to_nat (_next_window_start p')) (concat [[1; 2]; [3; 4; 5; 6]]) /\
  _buffer_start p' = _next_window_start p' /\
  (Z.of_nat (length (_buffer p')) < 3)%Z.
Proof.
  split; [lia|]. split; [lia|]. split; [reflexivity|].
  apply (stream_buffer_bounded 3 2 [[1; 2]; [3; 4; 5; 6]]); [lia | lia | reflexivity].
Defined.

Lemma stream_window_count_witness :
  (0 < 3)%Z /\ (0 < 2 <= 3)%Z /\
  new_processor 3 2 = Ok (mkProcessor 3 2 ([] : list R) 0 0 0) /\
  let n := Z.of_nat (length (concat [[1; 2]; [3; 4; 5; 6]])) in
  let p' := fst (push_all (mkProcessor 3 2 [] 0 0 0) [[1; 2]; [3; 4; 5; 6]]) in
  let count := Z.of_nat (length (snd (push_all (mkProcessor 3 2 [] 0 0 0)
                                               [[1; 2]; [3; 4; 5; 6]]))) in
  count = (if (n <? 3)%Z then 0 else 1 + (n - 3) / 2)%Z /\
  _total_samples p' = n /\
  _next_window_start p' = (2 * count)%Z.
Proof.
  split; [lia|]. split; [lia|]. split; [reflexivity|].
  apply (stream_window_count 3 2 [[1; 2]; [3; 4; 5; 6]]); [lia | lia | reflexivity].
Defined.

Lemma window_params_positive_witness :
  Analysis.window_params 2 1 1 = Ok (2%Z, 2%Z) /\
  2%Z = Analysis._sec_to_samples 1 2 /\
  2%Z = Analysis._sec_to_samples 1 2 /\
  (0 < 2)%Z /\ (0 < 2)%Z /\
  exists windows, iter_windows 0 [1; 2; 3] 2 2 = Ok windows.
Proof.
  split; [exact AnalysisFacts.demo_window_params|].
  exact (window_params_positive 0 2 1 1 2 2 [1; 2; 3] AnalysisFacts.demo_window_params).
Defined.

End WindowingMore.

(** ** Alert tracker: what a call can and cannot do *)

Module AlertsMore.
Import Alerts AlertsNotions.
Local Open Scope R_scope.

Lemma close_alert_segments (tr : AlertTracker) (t_end : R) :
  _segments (close_alert tr t_end) =
  _segments tr ++ (if _active tr then [mkAlertSegment (_active_start tr) t_end] else []).
Proof. unfold close_alert. destruct (_active tr); simpl; [reflexivity|]. symmetry. apply app_nil_r. Qed.

Lemma update_segments (tr : AlertTracker) (t_start t_end : R) (p : pyfloat) (speech : bool) :
  _segments (fst (update tr t_start t_end p speech)) =
  _segments tr ++
  (if _active tr && negb (speech && Float.ge p (Fin (_threshold tr)))
   then [mkAlertSegment (_active_start tr) t_end] else []).
Proof.
  unfold update. generalize (Float.ge p (Fin (_threshold tr))). intros above_threshold.
  destruct speech; simpl; [|rewrite andb_true_r; apply close_alert_segments].
  destruct above_threshold; simpl.
  - rewrite andb_false_r, app_nil_r.
    destruct (negb (_active tr) && bool_decide _); reflexivity.
  - rewrite andb_true_r. apply close_alert_segments.
Qed.

Lemma run_snoc (tr : AlertTracker) (calls : list call) (c : call) :
  run tr (calls ++ [c]) =
  fst (update (run tr calls) (c_start c) (c_end c) (c_p c) (c_speech c)).
Proof. unfold run. rewrite fold_left_app. reflexivity. Qed.

(** X6. Recorded segments are never removed or changed: a call of
    [update] keeps the list and appends at most one segment, which happens
    exactly when an open alert meets a call that is not speech at or above the
    threshold, and that segment runs from the start of the alert to the end
    of the call; so the segments before any sequence of calls and a final
    [finalize] are a prefix of the segments after it. *)
Theorem segments_only_grow (tr : AlertTracker) (calls : list call) (t_fin : R) :
  (forall t_start t_end p speech,
     _segments (fst (update tr t_start t_end p speech)) =
     _segments tr ++
     (if _active tr && negb (speech && Float.ge p (Fin (_threshold tr)))
      then [mkAlertSegment (_active_start tr) t_end] else [])) /\
  segments tr `prefix_of` segments (run tr calls) /\
  segments tr `prefix_of` segments (finalize (run tr calls) t_fin).
Proof.
  split; [intros; apply update_segments|].
  assert (Hrun : segments tr `prefix_of` segments (run tr calls)).
  { induction calls as [|c calls IH] using rev_ind; [reflexivity|].
    rewrite run_snoc. unfold segments in *. rewrite update_segments.
    etransitivity; [exact IH|]. apply prefix_app_r. reflexivity. }
  split; [exact Hrun|].
  unfold finalize, segments in *. rewrite close_alert_segments.
  etransitivity; [exact Hrun|]. apply prefix_app_r. reflexivity.
Qed.

(** X7. The hold: on a fresh tracker with a non-negative step, after [n]
    calls that are all speech at or above the threshold the accumulated time
    is [n * step_sec], no segment is recorded yet, and the alert is open
    exactly when [n >= 1] and [hold_sec <= n * step_sec]; when the hold was
    not reached, closing the stream records no segment. *)
Theorem hold_before_alert (threshold hold_sec step_sec t_fin : R) (calls : list call) :
  0 <= step_sec ->
  Forall (fun c => c_speech c = true /\ Float.ge (c_p c) (Fin threshold) = true) calls ->
  let tr := run (new_tracker threshold hold_sec step_sec) calls in
  let n := INR (length calls) in
  _above_sec tr = n * step_sec /\
  _segments tr = [] /\
  (_active tr = true <-> calls <> [] /\ hold_sec <= n * step_sec) /\
  (n * step_sec < hold_sec -> segments (finalize tr t_fin) = []).
Proof.
  intros Hstep Hhot. cbv zeta.
  assert (Hinv : _threshold (run (new_tracker threshold hold_sec step_sec) calls) = threshold /\
                 _hold_sec (run (new_tracker threshold hold_sec step_sec) calls) = hold_sec /\
                 _step_sec (run (new_tracker threshold hold_sec step_sec) calls) = step_sec /\
                 _above_sec (run (new_tracker threshold hold_sec step_sec) calls) =
                   INR (length calls) * step_sec /\
                 _segments (run (new_tracker threshold hold_sec step_sec) calls) = [] /\
                 (_active (run (new_tracker threshold hold_sec step_sec) calls) = true <->
                  calls <> [] /\ hold_sec <= INR (length calls) * step_sec)).
  { induction calls as [|c calls IH] using rev_ind.
    - simpl. split; [reflexivity|]. split; [reflexivity|]. split; [reflexivity|].
      split; [lra|]. split; [reflexivity|].
      split; [discriminate | intros [Hne _]; contradiction].
    - apply Forall_app in Hhot as [Hhot Hc]. inversion Hc as [|? ? [Hspeech Hge] _]; subst.
      destruct (IH Hhot) as (Hthr & Hhold & Hst & Habove & Hsegs & Hact). clear IH.
      rewrite run_snoc, length_app, plus_INR. simpl INR.
      set (tr := run (new_tracker threshold hold_sec step_sec) calls) in *.
      unfold update. rewrite Hspeech, Hthr, Hge. cbn [negb].
      rewrite Hhold, Hst, Habove.
      assert (Hne : calls ++ [c] <> []).
      { intros Hnil. apply app_eq_nil in Hnil as [_ Hnil]. discriminate. }
      destruct (_active tr) eqn:Hactive; cbn [negb andb].
      + simpl. split; [reflexivity|]. split; [reflexivity|]. split; [reflexivity|].
        split; [lra|]. split; [assumption|].
        split; [intros _|reflexivity]. split; [assumption|].
        destruct (proj1 Hact eq_refl). nra.
      + case_bool_decide as Hreach; simpl.
        * split; [reflexivity|]. split; [reflexivity|]. split; [reflexivity|].
          split; [lra|]. split; [assumption|].
          split; [intros _|reflexivity]. split; [assumption | lra].
        * split; [reflexivity|]. split; [reflexivity|]. split; [reflexivity|].
          split; [lra|]. split; [assumption|].
          split; [discriminate|]. intros [_ Hle]. lra. }
  destruct Hinv as (_ & _ & _ & Habove & Hsegs & Hact).
  split; [assumption|]. split; [assumption|]. split; [assumption|].
  intros Hshort. unfold finalize, segments. rewrite close_alert_segments, Hsegs.
  destruct (_active _) eqn:Hactive; [|reflexivity].
  destruct (proj1 Hact eq_refl). lra.
Qed.

Lemma hold_before_alert_witness :
  let calls := [mkCall 0 1 (Fin (95 / 100)) true; mkCall (1 / 4) (5 / 4) (Fin (95 / 100)) true;
                mkCall (1 / 2) (3 / 2) (Fin (95 / 100)) true] in
  0 <= 1 / 4 /\
  Forall (fun c => c_speech c = true /\ Float.ge (c_p c) (Fin (8 / 10)) = true) calls /\
  let tr := run (new_tracker (8 / 10) 1 (1 / 4)) calls in
  let n := INR (length calls) in
  _above_sec tr = n * (1 / 4) /\
  _segments tr = [] /\
  (_active tr = true <-> calls <> [] /\ 1 <= n * (1 / 4)) /\
  (n * (1 / 4) < 1 -> segments (finalize tr (3 / 2)) = []).
Proof.
  intros calls.
  assert (H0 : 0 <= 1 / 4) by lra.
  assert (H1 : Forall (fun c => c_speech c = true /\
                                Float.ge (c_p c) (Fin (8 / 10)) = true) calls).
  { repeat constructor; simpl; apply bool_decide_eq_true_2; lra. }
  split; [exact H0|]. split; [exact H1|].
  exact (hold_before_alert (8 / 10) 1 (1 / 4) (3 / 2) calls H0 H1).
Defined.

(** X8. [finalize] leaves the tracker idle, and a second [finalize], at
    whatever time, changes nothing. *)
Theorem finalize_idempotent (tr : AlertTracker) (t_end t_end' : R) :
  active (finalize tr t_end) = false /\
  _above_sec (finalize tr t_end) = 0 /\
  finalize (finalize tr t_end) t_end' = finalize tr t_end.
Proof.
  unfold finalize, close_alert, active. simpl. repeat split.
Qed.

(** X9. [update] returns the [active] flag the tracker has after the
    call; a call that is not speech, or whose probability is not-a-number or
    otherwise not at or above the threshold, closes the alert: the flag is
    false and the accumulated time is zero again. *)
Theorem update_returns_active (tr : AlertTracker) (t_start t_end : R) (p : pyfloat)
        (speech : bool) :
  snd (update tr t_start t_end p speech) = active (fst (update tr t_start t_end p speech)) /\
  (speech = false \/ p = NaN \/ Float.ge p (Fin (_threshold tr)) = false ->
   snd (update tr t_start t_end p speech) = false /\
   _above_sec (fst (update tr t_start t_end p speech)) = 0) /\
  (snd (update tr t_start t_end p speech) = true ->
   speech = true /\ Float.ge p (Fin (_threshold tr)) = true).
Proof.
  unfold update, active.
  assert (Hnan : p = NaN -> Float.ge p (Fin (_threshold tr)) = false) by (intros ->; reflexivity).
  revert Hnan. generalize (Float.ge p (Fin (_threshold tr))). intros above_threshold Hnan.
  destruct speech; [destruct above_threshold|]; cbn [negb].
  - split; [destruct (negb (_active tr) && bool_decide _); reflexivity|].
    split; [|intros _; split; reflexivity].
    intros [H|[H|H]]; [discriminate | specialize (Hnan H); discriminate | discriminate].
  - split; [reflexivity|]. split; [intros _; split; reflexivity | discriminate].
  - split; [reflexivity|]. split; [intros _; split; reflexivity | discriminate].
Qed.

End AlertsMore.

(** ** Voice-activity gate: empty input, floor of the level, monotonicity *)

Module VadMore.
Import Vad VadNotions VadFacts.
Local Open Scope R_scope.

Lemma sum_squares_nonneg (audio : list R) : 0 <= fold_right Rplus 0 (map square audio).
Proof.
  induction audio as [|x l IH]; simpl; [lra|].
  unfold square at 1. pose proof (Rle_0_sqr x) as Hx. unfold Rsqr in Hx. lra.
Qed.

Lemma mean_square_nonneg (audio : list R) : audio <> [] -> 0 <= mean (map square audio).
Proof.
  intros Hne. unfold mean. rewrite length_map.
  apply Rmult_le_pos; [apply sum_squares_nonneg|].
  apply Rlt_le, Rinv_0_lt_compat. apply lt_0_INR.
  destruct audio; [contradiction | simpl; lia].
Qed.

Lemma log10_le (x y : R) : 0 < x -> x <= y -> log10 x <= log10 y.
Proof.
  intros Hx [Hlt|Heq]; [|rewrite Heq; lra]. apply Rlt_le, log10_increasing; assumption.
Qed.

(** X10. The level of an empty window is minus infinity, so an empty window
    is speech for no threshold, finite or not; the level of a non-empty
    window is a number, never less than the -240 dB of [eps]. *)
Theorem rms_db_floor :
  rms_db [] default_eps = NegInf /\
  (forall threshold_db, is_speech_window [] threshold_db = false) /\
  (forall audio, audio <> [] ->
     exists level, rms_db audio default_eps = Fin level /\ -240 <= level).
Proof.
  split; [reflexivity|]. split.
  - intros threshold_db. unfold is_speech_window. simpl.
    destruct threshold_db; reflexivity.
  - intros audio Hne. pose proof (mean_square_nonneg audio Hne) as Hms.
    eexists. split; [apply rms_db_finite; assumption|].
    pose proof default_eps_pos. pose proof (sqrt_pos (mean (map square audio))).
    assert (log10 default_eps <= log10 (sqrt (mean (map square audio)) + default_eps))
      by (apply log10_le; lra).
    rewrite log10_eps in *. lra.
Qed.

(** X11. The gate is monotone: a window that is speech at a threshold is
    speech at every lower threshold, and so is every window of at least the
    same mean square. *)
Theorem gate_is_monotone (quiet loud : list R) (threshold_db threshold_db' : R) :
  quiet <> [] -> loud <> [] ->
  mean (map square quiet) <= mean (map square loud) ->
  threshold_db' <= threshold_db ->
  is_speech_window quiet (Fin threshold_db) = true ->
  is_speech_window loud (Fin threshold_db') = true.
Proof.
  intros Hq Hl Hms Ht. unfold is_speech_window.
  pose proof (mean_square_nonneg quiet Hq). pose proof (mean_square_nonneg loud Hl).
  rewrite !rms_db_finite by assumption. unfold Float.gt, Float.lt.
  intros Hspeech. apply bool_decide_eq_true_1 in Hspeech. apply bool_decide_eq_true_2.
  pose proof default_eps_pos. pose proof (sqrt_pos (mean (map square quiet))).
  assert (sqrt (mean (map square quiet)) <= sqrt (mean (map square loud)))
    by (apply sqrt_le_1; assumption).
  assert (log10 (sqrt (mean (map square quiet)) + default_eps) <=
          log10 (sqrt (mean (map square loud)) + default_eps)) by (apply log10_le; lra).
  lra.
Qed.

Lemma gate_is_monotone_witness :
  [0; 1; 0; -1] <> [] /\ [2; 2] <> [] /\
  mean (map square [0; 1; 0; -1]) <= mean (map square [2; 2]) /\
  -45 <= -10 * log10 2 /\
  is_speech_window [0; 1; 0; -1] (Fin (-10 * log10 2)) = true /\
  is_speech_window [2; 2] (Fin (-45)) = true.
Proof.
  assert (H1 : [0; 1; 0; -1] <> ([] : list R)) by discriminate.
  assert (H2 : [2; 2] <> ([] : list R)) by discriminate.
  assert (H3 : mean (map square [0; 1; 0; -1]) <= mean (map square [2; 2]))
    by (unfold mean, square; simpl; lra).
  assert (H4 : -45 <= -10 * log10 2) by (pose proof log10_2_bounds; lra).
  assert (H5 : is_speech_window [0; 1; 0; -1] (Fin (-10 * log10 2)) = true).
  { apply loud_window_gate; [discriminate | unfold mean, square; simpl; lra | lra]. }
  repeat (split; [assumption|]).
  exact (gate_is_monotone [0; 1; 0; -1] [2; 2] (-10 * log10 2) (-45) H1 H2 H3 H4 H5).
Defined.

End VadMore.

(** ** Normalisation and resampling *)

Module PreprocessMore.
Import Preprocess MoreNotions.
Local Open Scope R_scope.






Lemma max_abs_ge (audio : list R) (y : R) : y ∈ audio -> Rabs y <= max_abs audio.
Proof.
  induction audio as [|x l IH]; intros Hin; [inversion Hin|].
  simpl. apply elem_of_cons in Hin as [->|Hin].
  - apply Rmax_l.
  - etransitivity; [apply IH; assumption | apply Rmax_r].
Qed.

Lemma max_abs_scale (audio : list R) (k : R) :
  0 <= k -> max_abs (map (fun x => x * k) audio) = max_abs audio * k.
Proof.
  intros Hk. induction audio as [|x l IH]; simpl; [lra|].
  rewrite IH, Rabs_mult, (Rabs_pos_eq k) by assumption.
  rewrite !(Rmult_comm _ k). apply RmaxRmult. assumption.
Qed.

Lemma sum_scale (audio : list R) (k : R) :
  fold_right Rplus 0 (map (fun x => x * k) audio) = fold_right Rplus 0 audio * k.
Proof. induction audio as [|x l IH]; simpl; [lra | rewrite IH; lra]. Qed.

Lemma sum_shift (audio : list R) (mu : R) :
  fold_right Rplus 0 (map (fun x => x - mu) audio) =
  fold_right Rplus 0 audio - INR (length audio) * mu.
Proof.
  induction audio as [|x l IH]; [simpl; lra|].
  cbn [map fold_right]. rewrite IH. change (length (x :: l)) with (S (length l)).
  rewrite S_INR. lra.
Qed.

(** X13. On a signal that is not constant, and for a peak that is not
    negative, [normalize_audio] returns a signal of the same length whose
    samples sum to zero and whose largest magnitude is exactly the peak. *)
Theorem normalize_audio_peak (audio : list R) (peak : R) :
  0 <= peak ->
  (exists x, x ∈ audio /\ x <> Vad.mean audio) ->
  let out := normalize_audio audio peak in
  length out = length audio /\
  fold_right Rplus 0 out = 0 /\
  max_abs out = peak /\
  Forall (fun y => Rabs y <= peak) out.
Proof.
  intros Hpeak (x0 & Hin & Hx0) out.
  assert (Hne : (length audio =? 0)%nat = false).
  { destruct audio; [inversion Hin | reflexivity]. }
  assert (Hlen : 0 < INR (length audio)).
  { apply lt_0_INR. destruct audio; [inversion Hin | simpl; lia]. }
  set (centered := map (fun x => x - Vad.mean audio) audio).
  assert (Hpos : 0 < max_abs centered).
  { assert (Rabs (x0 - Vad.mean audio) <= max_abs centered).
    { apply max_abs_ge. subst centered. apply list_elem_of_fmap. exists x0. auto. }
    assert (0 < Rabs (x0 - Vad.mean audio)) by (apply Rabs_pos_lt; lra).
    lra. }
  assert (Hsum : fold_right Rplus 0 centered = 0).
  { subst centered. rewrite sum_shift. unfold Vad.mean. field. lra. }
  assert (Hout : out = map (fun x => x * (/ max_abs centered * peak)) centered).
  { subst out. unfold normalize_audio. rewrite Hne. fold centered.
    replace (length centered =? 0)%nat with false
      by (subst centered; rewrite length_map; symmetry; exact Hne).
    rewrite bool_decide_eq_false_2 by lra.
    apply map_ext. intros y. unfold Rdiv. ring. }
  assert (Hk : 0 <= / max_abs centered * peak).
  { apply Rmult_le_pos; [|assumption]. apply Rlt_le, Rinv_0_lt_compat. assumption. }
  assert (Hmax : max_abs out = peak).
  { rewrite Hout, max_abs_scale by assumption. field. lra. }
  split; [rewrite Hout; subst centered; rewrite !length_map; reflexivity|].
  split; [rewrite Hout, sum_scale, Hsum; lra|].
  split; [exact Hmax|].
  apply Forall_forall. intros y Hy. rewrite <- Hmax. apply max_abs_ge. exact Hy.
Qed.

Lemma normalize_audio_peak_witness :
  0 <= 99 / 100 /\
  (exists x, x ∈ [1; 3] /\ x <> Vad.mean [1; 3]) /\
  let out := normalize_audio [1; 3] (99 / 100) in
  length out = length [1; 3] /\
  fold_right Rplus 0 out = 0 /\
  max_abs out = 99 / 100 /\
  Forall (fun y => Rabs y <= 99 / 100) out.
Proof.
  assert (H1 : 0 <= 99 / 100) by lra.
  assert (H2 : exists x, x ∈ [1; 3] /\ x <> Vad.mean [1; 3]).
  { exists 1. split; [apply elem_of_cons; left; reflexivity|].
    unfold Vad.mean. simpl. lra. }
  split; [exact H1|]. split; [exact H2|].
  exact (normalize_audio_peak [1; 3] (99 / 100) H1 H2).
Defined.

Section WithExternal.
Context `{External}.

(** X14. When the two rates differ, [resample_audio] needs scipy: without
    it the call raises [RuntimeError], for an empty signal too. With it, an
    empty signal comes back as it is, and a non-empty one is handed to the
    polyphase resampler with the ratio of positive rates in lowest terms:
    [up * orig_sr = down * target_sr] and [gcd (up, down) = 1]. *)
Theorem resample_audio_ratio (audio : list R) (orig_sr target_sr : Z) :
  orig_sr <> target_sr ->
  (resample_poly = None ->
   resample_audio audio orig_sr target_sr =
   Raise (RuntimeError "scipy is required for resampling")) /\
  (forall resample, resample_poly = Some resample ->
     resample_audio [] orig_sr target_sr = Ok [] /\
     (audio <> [] -> (0 < orig_sr)%Z -> (0 < target_sr)%Z ->
      exists up down,
        resample_audio audio orig_sr target_sr = Ok (resample audio up down) /\
        (0 < up)%Z /\ (0 < down)%Z /\
        (up * orig_sr = down * target_sr)%Z /\ Z.gcd up down = 1%Z)).
Proof.
  intros Hdiff. unfold resample_audio.
  destruct (Z.eqb_spec orig_sr target_sr); [contradiction|]. split.
  - intros ->. reflexivity.
  - intros resample ->. split; [reflexivity|].
    intros Hne Ho Ht. destruct audio as [|x l]; [contradiction|]. cbn [length Nat.eqb].
    set (g := Z.gcd orig_sr target_sr).
    assert (Hg : (0 < g)%Z).
    { pose proof (Z.gcd_nonneg orig_sr target_sr).
      assert (g <> 0%Z) by (subst g; intros Hz; apply Z.gcd_eq_0_l in Hz; lia).
      subst g. lia. }
    destruct (Z.gcd_divide_l orig_sr target_sr) as [down Hdown].
    destruct (Z.gcd_divide_r orig_sr target_sr) as [up Hup].
    fold g in Hdown, Hup.
    assert (Hd : (orig_sr / g = down)%Z) by (rewrite Hdown at 1; apply Z.div_mul; lia).
    assert (Hu : (target_sr / g = up)%Z) by (rewrite Hup at 1; apply Z.div_mul; lia).
    exists (target_sr / g)%Z, (orig_sr / g)%Z. split; [reflexivity|].
    rewrite Hd, Hu. split; [nia|]. split; [nia|]. split; [nia|].
    rewrite <- Hd, <- Hu, Z.gcd_comm. apply Z.gcd_div_gcd; [lia | reflexivity].
Qed.

End WithExternal.

Lemma resample_audio_ratio_witness :
  44100%Z <> 16000%Z /\
  (@resample_poly scipy_external = None ->
   @resample_audio scipy_external [1; 2] 44100 16000 =
   Raise (RuntimeError "scipy is required for resampling")) /\
  (forall resample, @resample_poly scipy_external = Some resample ->
     @resample_audio scipy_external [] 44100 16000 = Ok [] /\
     ([1; 2] <> [] -> (0 < 44100)%Z -> (0 < 16000)%Z ->
      exists up down,
        @resample_audio scipy_external [1; 2] 44100 16000 = Ok (resample [1; 2] up down) /\
        (0 < up)%Z /\ (0 < down)%Z /\
        (up * 44100 = down * 16000)%Z /\ Z.gcd up down = 1%Z)).
Proof.
  assert (H1 : 44100%Z <> 16000%Z) by lia.
  split; [exact H1|].
  exact (resample_audio_ratio (H := scipy_external) [1; 2] 44100 16000 H1).
Defined.

End PreprocessMore.

(** ** Indicators *)

Module FeaturesMore.
Import Features.
Local Open Scope R_scope.

Lemma sign_flips_bound (signs : list bool) : (sign_flips signs <= length signs - 1)%nat.
Proof.
  induction signs as [|a [|b rest] IH]; simpl in *; try lia.
  destruct (Bool.eqb a b); simpl; lia.
Qed.

Lemma sign_flips_constant (signs : list bool) (b : bool) :
  Forall (fun a => a = b) signs -> sign_flips signs = 0%nat.
Proof.
  induction 1 as [|a l Ha Hl IH]; [reflexivity|].
  destruct l as [|a' l']; [reflexivity|].
  change (sign_flips (a :: a' :: l'))
    with ((if Bool.eqb a a' then 0 else 1) + sign_flips (a' :: l'))%nat.
  rewrite IH. inversion Hl; subst. rewrite Bool.eqb_reflx. reflexivity.
Qed.

(** X15. The zero-crossing rate is a fraction: it lies between 0 and 1; it
    is 0 for a signal of fewer than two samples, for a signal whose samples
    are all positive and for one whose samples are all negative. *)
Theorem zero_crossing_rate_bounds (audio : list R) :
  0 <= zero_crossing_rate audio <= 1 /\
  ((length audio < 2)%nat -> zero_crossing_rate audio = 0) /\
  (Forall (fun x => 0 < x) audio \/ Forall (fun x => x < 0) audio ->
   zero_crossing_rate audio = 0).
Proof.
  unfold zero_crossing_rate.
  destruct (Nat.ltb_spec (length audio) 2) as [Hshort|Hlong].
  - split; [lra|]. split; reflexivity.
  - assert (Hn : 0 < INR (length audio - 1)) by (apply lt_0_INR; lia).
    pose proof (sign_flips_bound (map signbit audio)) as Hflips.
    rewrite length_map in Hflips. apply le_INR in Hflips.
    pose proof (pos_INR (sign_flips (map signbit audio))).
    split; [|split; [lia|]].
    + split.
      * apply Rmult_le_pos; [assumption | apply Rlt_le, Rinv_0_lt_compat; assumption].
      * apply (Rmult_le_reg_r (INR (length audio - 1))); [assumption|].
        unfold Rdiv. rewrite Rmult_assoc, Rinv_l by lra. lra.
    + intros [Hpos|Hneg].
      * rewrite (sign_flips_constant _ false).
        -- simpl. unfold Rdiv. lra.
        -- apply Forall_fmap. eapply Forall_impl; [exact Hpos|].
           intros x Hx. simpl. unfold signbit. apply bool_decide_eq_false_2. lra.
      * rewrite (sign_flips_constant _ true).
        -- simpl. unfold Rdiv. lra.
        -- apply Forall_fmap. eapply Forall_impl; [exact Hneg|].
           intros x Hx. simpl. unfold signbit. apply bool_decide_eq_true_2. lra.
Qed.

Section WithExternal.
Context `{External}.

(** X16. On an empty signal, and on any signal when the sample rate is
    not zero (the spectral part divides by it), [extract_indicators] defines
    the same seven indicators, so no later [get] falls back on its default;
    on an empty signal they are the neutral values: a level of minus infinity
    and zeros. *)
Theorem extract_indicators_keys (audio : list R) (sample_rate : Z) :
  (audio = [] \/ sample_rate <> 0%Z ->
   dom (extract_indicators audio sample_rate) =
     ({[ "rms_db"; "zcr"; "spectral_centroid_hz"; "spectral_bandwidth_hz";
         "spectral_rolloff_hz"; "hf_energy_ratio"; "spectral_flatness" ]} : gset string)) /\
  extract_indicators [] sample_rate =
    <["rms_db" := NegInf]> (<["zcr" := Fin 0]>
      (<["spectral_centroid_hz" := Fin 0]> (<["spectral_bandwidth_hz" := Fin 0]>
        (<["spectral_rolloff_hz" := Fin 0]> (<["hf_energy_ratio" := Fin 0]>
          (<["spectral_flatness" := Fin 0]> ∅)))))).
Proof.
  split.
  - intros _. unfold extract_indicators, spectral_indicators, dict_update.
    destruct (if (length audio =? 0)%nat then _ else _) as [[[[a b] c] d] e].
    rewrite dom_union_L, !dom_insert_L, dom_empty_L. set_solver.
  - unfold extract_indicators, spectral_indicators, dict_update. cbn [length Nat.eqb].
    apply map_eq. intros key.
    rewrite lookup_union.
    repeat (rewrite ?lookup_insert; case_decide; subst; simpl; try reflexivity).
Qed.

End WithExternal.
End FeaturesMore.

(** ** Heuristic score: totality, range, monotonicity, reasons *)

Module HeuristicMore.
Import Heuristic HeuristicNotions HeuristicFacts MoreNotions.
Local Open Scope R_scope.

Lemma clamp_range (x : pyfloat) : unit_or_nan (Float._clamp x (Fin 0) (Fin 1)).
Proof.
  destruct x as [r| | |].
  - right. rewrite clamp_unit. eexists. split; [reflexivity | apply clamp01_bounds].
  - right. exists 1. unfold Float._clamp, Float.max, Float.min, Float.gt, Float.lt. simpl.
    split; [reflexivity | lra].
  - right. exists 0. unfold Float._clamp, Float.max, Float.min, Float.gt, Float.lt. simpl.
    rewrite bool_decide_eq_false_2 by lra. split; [reflexivity | lra].
  - left. reflexivity.
Qed.

Lemma clamp_nan_iff (x : pyfloat) : Float._clamp x (Fin 0) (Fin 1) = NaN <-> x = NaN.
Proof.
  split; [|intros ->; reflexivity].
  destruct x as [r| | |]; [rewrite clamp_unit; discriminate | | | reflexivity];
    unfold Float._clamp, Float.max, Float.min, Float.gt, Float.lt; simpl;
    try rewrite bool_decide_eq_false_2 by lra; discriminate.
Qed.

Lemma clamp01_mono (x y : R) : x <= y -> clamp01 x <= clamp01 y.
Proof. intros Hxy. unfold clamp01. repeat case_bool_decide; lra. Qed.

Lemma logistic_mono (x y : R) : x <= y -> logistic x <= logistic y.
Proof.
  intros Hxy. unfold logistic. pose proof (exp_pos (- x)). pose proof (exp_pos (- y)).
  assert (exp (- y) <= exp (- x)).
  { destruct Hxy as [Hlt|Heq]; [|rewrite Heq; lra].
    apply Rlt_le, exp_increasing. lra. }
  apply Rinv_le_contravar; lra.
Qed.

Lemma weighted_sum (a b c : pyfloat) :
  unit_or_nan a -> unit_or_nan b -> unit_or_nan c ->
  unit_or_nan (Float.add (Float.add (Float.mul (Fin (50 / 100)) a)
                                    (Float.mul (Fin (35 / 100)) b))
                         (Float.mul (Fin (15 / 100)) c)).
Proof.
  intros [->|(x & -> & Hx)] [->|(y & -> & Hy)] [->|(z & -> & Hz)];
    try (left; reflexivity).
  right. eexists. split; [reflexivity|]. lra.
Qed.

Lemma raw_score_range (indicators : gmap string pyfloat) : unit_or_nan (raw_score indicators).
Proof. unfold raw_score. apply weighted_sum; apply clamp_range. Qed.

Lemma heuristic_p_fake_of_raw (indicators : gmap string pyfloat) :
  (raw_score indicators = NaN /\
   heuristic_p_fake indicators = Ok (NaN, heuristic_reasons indicators)) \/
  (exists raw, raw_score indicators = Fin raw /\ 0 <= raw <= 1 /\
     heuristic_p_fake indicators =
     Ok (Fin (logistic ((raw - 35 / 100) * 7)), heuristic_reasons indicators)).
Proof.
  unfold heuristic_p_fake.
  destruct (raw_score_range indicators) as [->|(raw & -> & Hraw)].
  - left. split; reflexivity.
  - right. exists raw. split; [reflexivity|]. split; [assumption|].
    unfold Float.sub. simpl Float.neg. simpl Float.add. simpl Float.mul.
    rewrite sigmoid_finite. cbn [mbind outcome_bind obind]. rewrite clamp_unit.
    pose proof (logistic_bounds ((raw + - (35 / 100)) * 7)).
    rewrite clamp01_inside by lra. reflexivity.
Qed.

(** X17. [heuristic_p_fake] never raises, whatever the indicators are,
    missing or not-a-number included. Its probability is either not-a-number
    or a number strictly between 0 and 1, between the logistic values at
    -2.45 and at 4.55; the upper end is the score of an empty indicator map,
    whose missing keys count as zeros and bring all three reasons. *)
Theorem heuristic_p_fake_total :
  (forall indicators, exists p,
     heuristic_p_fake indicators = Ok (p, heuristic_reasons indicators) /\
     (p = NaN \/
      exists r, p = Fin r /\ 0 < r < 1 /\
                logistic (- (245 / 100)) <= r <= logistic (455 / 100))) /\
  exists reasons,
    heuristic_p_fake ∅ = Ok (Fin (logistic (455 / 100)), reasons) /\ length reasons = 3%nat.
Proof.
  split.
  - intros indicators.
    destruct (heuristic_p_fake_of_raw indicators) as [[_ Hp]|(raw & _ & Hraw & Hp)].
    + exists NaN. split; [exact Hp | left; reflexivity].
    + eexists. split; [exact Hp|]. right. eexists. split; [reflexivity|].
      split; [apply logistic_bounds|]. split; apply logistic_mono; lra.
  - destruct (heuristic_p_fake_of_raw ∅) as [[Hraw _]|(raw & Hraw & _ & Hp)].
    + exfalso. revert Hraw. unfold raw_score, get. rewrite !lookup_empty. simpl.
      unfold Float.div_const, Float.sub. simpl. rewrite !clamp_unit. discriminate.
    + assert (raw = 1) as ->.
      { revert Hraw. unfold raw_score, get. rewrite !lookup_empty. simpl.
        unfold Float.div_const, Float.sub. simpl. rewrite !clamp_unit.
        rewrite !clamp01_above by (apply Req_le; field).
        simpl. intros [= <-]. lra. }
      eexists. split.
      * rewrite Hp. replace ((1 - 35 / 100) * 7) with (455 / 100) by lra. reflexivity.
      * unfold heuristic_reasons, get. rewrite !lookup_empty. simpl.
        unfold Float.lt. rewrite !bool_decide_eq_true_2 by lra. reflexivity.
Qed.

(** X18. The score is monotone in the deficiencies: for finite
    indicators, lowering the high-frequency ratio, the roll-off or the
    flatness never lowers [p_fake]. *)
Theorem heuristic_p_fake_monotone (indicators indicators' : gmap string pyfloat)
        (hf_ratio rolloff_hz flatness hf_ratio' rolloff_hz' flatness' : R) :
  get indicators "hf_energy_ratio" (Fin 0) = Fin hf_ratio ->
  get indicators "spectral_rolloff_hz" (Fin 0) = Fin rolloff_hz ->
  get indicators "spectral_flatness" (Fin 0) = Fin flatness ->
  get indicators' "hf_energy_ratio" (Fin 0) = Fin hf_ratio' ->
  get indicators' "spectral_rolloff_hz" (Fin 0) = Fin rolloff_hz' ->
  get indicators' "spectral_flatness" (Fin 0) = Fin flatness' ->
  hf_ratio <= hf_ratio' -> rolloff_hz <= rolloff_hz' -> flatness <= flatness' ->
  exists p p',
    heuristic_p_fake indicators = Ok (Fin p, heuristic_reasons indicators) /\
    heuristic_p_fake indicators' = Ok (Fin p', heuristic_reasons indicators') /\
    p' <= p.
Proof.
  intros Hhf Hro Hfl Hhf' Hro' Hfl' Hle1 Hle2 Hle3.
  rewrite (heuristic_p_fake_finite indicators _ _ _ Hhf Hro Hfl).
  rewrite (heuristic_p_fake_finite indicators' _ _ _ Hhf' Hro' Hfl').
  do 2 eexists. split; [reflexivity|]. split; [reflexivity|].
  apply logistic_mono.
  pose proof (clamp01_mono ((6 / 100 - hf_ratio') / (6 / 100))
                           ((6 / 100 - hf_ratio) / (6 / 100))).
  pose proof (clamp01_mono ((4200 - rolloff_hz') / 4200) ((4200 - rolloff_hz) / 4200)).
  pose proof (clamp01_mono ((12 / 100 - flatness') / (12 / 100))
                           ((12 / 100 - flatness) / (12 / 100))).
  lra.
Qed.

Lemma heuristic_p_fake_monotone_witness :
  get degraded "hf_energy_ratio" (Fin 0) = Fin 0 /\
  get degraded "spectral_rolloff_hz" (Fin 0) = Fin 1000 /\
  get degraded "spectral_flatness" (Fin 0) = Fin (2 / 100) /\
  get healthy "hf_energy_ratio" (Fin 0) = Fin (10 / 100) /\
  get healthy "spectral_rolloff_hz" (Fin 0) = Fin 5000 /\
  get healthy "spectral_flatness" (Fin 0) = Fin (20 / 100) /\
  0 <= 10 / 100 /\ 1000 <= 5000 /\ 2 / 100 <= 20 / 100 /\
  exists p p',
    heuristic_p_fake degraded = Ok (Fin p, heuristic_reasons degraded) /\
    heuristic_p_fake healthy = Ok (Fin p', heuristic_reasons healthy) /\
    p' <= p.
Proof.
  destruct degraded_values as (D1 & D2 & D3). destruct healthy_values as (G1 & G2 & G3).
  assert (H1 : 0 <= 10 / 100) by lra.
  assert (H2 : 1000 <= 5000) by lra.
  assert (H3 : 2 / 100 <= 20 / 100) by lra.
  repeat (split; [assumption|]).
  exact (heuristic_p_fake_monotone degraded healthy _ _ _ _ _ _ D1 D2 D3 G1 G2 G3 H1 H2 H3).
Defined.

Lemma logistic_at_most_one (x : R) : x <= 1 -> logistic x < 8 / 10.
Proof.
  intros Hx. pose proof (logistic_mono x 1 Hx).
  assert (logistic 1 <= 3 / 4).
  { unfold logistic. pose proof exp_le_3. pose proof (exp_pos 1).
    assert (Hinv : / 3 <= exp (- (1))).
    { rewrite (exp_Ropp 1). apply Rinv_le_contravar; lra. }
    change (/ (1 + exp (- (1))) <= 3 / 4).
    replace (3 / 4) with (/ (4 / 3)) by lra. apply Rinv_le_contravar; lra. }
  lra.
Qed.

Lemma logistic_positive_side (x : R) : 0 < x -> 1 / 2 < logistic x.
Proof.
  intros Hx. unfold logistic. pose proof (exp_pos (- x)).
  assert (exp (- x) < 1) by (rewrite <- exp_0; apply exp_increasing; lra).
  replace (1 / 2) with (/ 2) by lra. apply Rinv_lt_contravar; lra.
Qed.

(** X19. Reasons and score agree on finite indicators: when
    [heuristic_reasons] reports nothing, [heuristic_p_fake] stays below 0.8,
    the default alert threshold; when it reports all three reasons, the score
    is above 0.5. *)
Theorem reasons_match_score (indicators : gmap string pyfloat)
        (hf_ratio rolloff_hz flatness : R) :
  get indicators "hf_energy_ratio" (Fin 0) = Fin hf_ratio ->
  get indicators "spectral_rolloff_hz" (Fin 0) = Fin rolloff_hz ->
  get indicators "spectral_flatness" (Fin 0) = Fin flatness ->
  exists p,
    heuristic_p_fake indicators = Ok (Fin p, heuristic_reasons indicators) /\
    (heuristic_reasons indicators = [] -> p < 8 / 10) /\
    (length (heuristic_reasons indicators) = 3%nat -> 1 / 2 < p).
Proof.
  intros Hhf Hro Hfl.
  rewrite (heuristic_p_fake_finite indicators _ _ _ Hhf Hro Hfl).
  eexists. split; [reflexivity|].
  unfold heuristic_reasons. rewrite Hhf, Hro, Hfl. unfold Float.lt.
  pose proof (clamp01_bounds ((6 / 100 - hf_ratio) / (6 / 100))).
  pose proof (clamp01_bounds ((4200 - rolloff_hz) / 4200)).
  pose proof (clamp01_bounds ((12 / 100 - flatness) / (12 / 100))).
  destruct (bool_decide (hf_ratio < 2 / 100)) eqn:B1;
    destruct (bool_decide (rolloff_hz < 3200)) eqn:B2;
    destruct (bool_decide (flatness < 8 / 100)) eqn:B3;
    simpl; (split; [intros Hnone; try discriminate Hnone
                   | intros Hall; try discriminate Hall]).
  - apply bool_decide_eq_true_1 in B1, B2, B3.
    apply logistic_positive_side.
    pose proof (clamp01_mono (2 / 3) ((6 / 100 - hf_ratio) / (6 / 100))).
    pose proof (clamp01_mono (1000 / 4200) ((4200 - rolloff_hz) / 4200)).
    pose proof (clamp01_mono (1 / 3) ((12 / 100 - flatness) / (12 / 100))).
    rewrite (clamp01_inside (2 / 3)) in * by lra.
    rewrite (clamp01_inside (1000 / 4200)) in * by lra.
    rewrite (clamp01_inside (1 / 3)) in * by lra.
    lra.
  - apply bool_decide_eq_false_1 in B1, B2, B3.
    apply logistic_at_most_one.
    pose proof (clamp01_mono ((6 / 100 - hf_ratio) / (6 / 100)) (2 / 3)).
    pose proof (clamp01_mono ((4200 - rolloff_hz) / 4200) (1000 / 4200)).
    pose proof (clamp01_mono ((12 / 100 - flatness) / (12 / 100)) (1 / 3)).
    rewrite (clamp01_inside (2 / 3)) in * by lra.
    rewrite (clamp01_inside (1000 / 4200)) in * by lra.
    rewrite (clamp01_inside (1 / 3)) in * by lra.
    lra.
Qed.

Lemma reasons_match_score_witness :
  get healthy "hf_energy_ratio" (Fin 0) = Fin (10 / 100) /\
  get healthy "spectral_rolloff_hz" (Fin 0) = Fin 5000 /\
  get healthy "spectral_flatness" (Fin 0) = Fin (20 / 100) /\
  exists p,
    heuristic_p_fake healthy = Ok (Fin p, heuristic_reasons healthy) /\
    (heuristic_reasons healthy = [] -> p < 8 / 10) /\
    (length (heuristic_reasons healthy) = 3%nat -> 1 / 2 < p).
Proof.
  destruct healthy_values as (G1 & G2 & G3).
  repeat (split; [assumption|]).
  exact (reasons_match_score healthy _ _ _ G1 G2 G3).
Defined.

End HeuristicMore.

(** ** Engine: ranges of a result, smoothing state, what can raise *)

Module EngineMore.
Import Engine EngineNotions HeuristicNotions MoreNotions HeuristicFacts HeuristicMore.
Section WithExternal.
Context `{External}.
Local Open Scope R_scope.

Lemma clamp_inside_inv (x : pyfloat) (p : R) :
  Float._clamp x (Fin 0) (Fin 1) = Fin p -> 0 < p < 1 -> x = Fin p.
Proof.
  intros Hx Hp. destruct x as [r| | |].
  - rewrite clamp_unit in Hx. injection Hx as Hx. f_equal.
    revert Hx. unfold clamp01. repeat case_bool_decide; lra.
  - exfalso. revert Hx. unfold Float._clamp, Float.max, Float.min, Float.gt, Float.lt. simpl.
    intros [= <-]. lra.
  - exfalso. revert Hx. unfold Float._clamp, Float.max, Float.min, Float.gt, Float.lt. simpl.
    rewrite bool_decide_eq_false_2 by lra. intros [= <-]. lra.
  - discriminate Hx.
Qed.

(** The level above the threshold, scaled to the unit interval. *)
Lemma quality_finite (rms_db : pyfloat) (threshold : R) :
  Float.gt rms_db (Fin threshold) = true ->
  exists q,
    Float._clamp (Float.div_const (Float.sub rms_db (Fin threshold)) 30) (Fin 0) (Fin 1)
    = Fin q /\ 0 <= q <= 1.
Proof.
  intros Hgt.
  destruct (clamp_range (Float.div_const (Float.sub rms_db (Fin threshold)) 30))
    as [Hnan|(q & Hq & Hrange)]; [|exists q; split; assumption].
  exfalso. apply (proj1 (clamp_nan_iff _)) in Hnan. revert Hnan.
  destruct rms_db as [a| | |]; try discriminate Hgt.
  - unfold Float.div_const, Float.sub. simpl. discriminate.
  - unfold Float.div_const, Float.sub. simpl. unfold Float.scale_inf.
    rewrite bool_decide_eq_false_2 by lra. rewrite bool_decide_eq_true_2 by lra.
    discriminate.
Qed.

Lemma confidence_range (q : R) (model_confidence : pyfloat) :
  0 <= q <= 1 ->
  let confidence :=
    Float._clamp
      (Float.add (Fin (15 / 100))
         (Float.mul (Fin (85 / 100))
            (Float.add (Float.mul (Fin (60 / 100)) (Fin q))
                       (Float.mul (Fin (40 / 100))
                                  (Float._clamp model_confidence (Fin 0) (Fin 1))))))
      (Fin 0) (Fin 1) in
  (model_confidence = NaN /\ confidence = NaN) \/
  exists c, confidence = Fin c /\ 15 / 100 + 51 / 100 * q <= c <= 49 / 100 + 51 / 100 * q.
Proof.
  intros Hq confidence. subst confidence.
  destruct (clamp_range model_confidence) as [Hnan|(c & -> & Hc)].
  - left. rewrite Hnan. split; [apply clamp_nan_iff; assumption | reflexivity].
  - right. simpl Float.mul. simpl Float.add. rewrite clamp_unit.
    rewrite clamp01_inside by lra. eexists. split; [reflexivity|]. lra.
Qed.

Lemma run_backend_state (e e' : VoiceGuardEngine) (audio_proc : list R)
      (indicators : gmap string pyfloat) (p model_confidence : pyfloat)
      (reasons : list string) :
  run_backend e audio_proc indicators = Ok (p, reasons, model_confidence, e') ->
  _ema e' = _ema e /\ _ema_alpha e' = _ema_alpha e /\ _config e' = _config e /\
  backend e' = backend e /\ _target_sr e' = _target_sr e /\
  reasons = Heuristic.heuristic_reasons indicators.
Proof.
  unfold run_backend. destruct (backend e) eqn:Hb.
  - destruct (heuristic_p_fake_of_raw indicators) as [[_ Hp]|(raw & _ & _ & Hp)];
      rewrite Hp; cbn [mbind outcome_bind obind]; intros [= <- <- <- <-];
      repeat split; assumption.
  - destruct (_onnx e); [|discriminate].
    destruct (log_mel_spectrogram_with_filterbank _); [|discriminate].
    cbn [mbind outcome_bind obind].
    destruct (onnx_predict _ _) as [[p' model]|]; [|discriminate].
    cbn [mbind outcome_bind obind]. intros [= <- <- <- <-]. repeat split; assumption.
  - destruct (_hf e); [|discriminate].
    destruct (hf_predict _ _ _) as [[[p' mc] model]|]; [|discriminate].
    cbn [mbind outcome_bind obind]. intros [= <- <- <- <-]. repeat split; assumption.
Qed.

(** The two ways [infer_window] returns. *)
Lemma infer_window_returns (e e' : VoiceGuardEngine) (audio : list R) (orig_sr : Z)
      (r : InferenceResult) :
  infer_window e audio orig_sr = Ok (r, e') ->
  (is_speech r = false /\ p_fake r = NaN /\ p_fake_smooth r = NaN /\
   confidence r = Fin 0 /\ reasons r = [] /\ _ema e' = _ema e) \/
  (is_speech r = true /\
   exists (p model_confidence : pyfloat) (q : R),
     0 <= q <= 1 /\
     let ema := match _ema e with
                | None => p
                | Some ema => Float.add (Float.mul (Fin (_ema_alpha e)) p)
                                        (Float.mul (Fin (1 - _ema_alpha e)) ema)
                end in
     p_fake r = Float._clamp p (Fin 0) (Fin 1) /\
     p_fake_smooth r = Float._clamp ema (Fin 0) (Fin 1) /\
     _ema e' = Some ema /\
     reasons r = Heuristic.heuristic_reasons (indicators r) /\
     confidence r =
       Float._clamp
         (Float.add (Fin (15 / 100))
            (Float.mul (Fin (85 / 100))
               (Float.add (Float.mul (Fin (60 / 100)) (Fin q))
                          (Float.mul (Fin (40 / 100))
                                     (Float._clamp model_confidence (Fin 0) (Fin 1))))))
         (Fin 0) (Fin 1)).
Proof.
  unfold infer_window.
  destruct (Preprocess.preprocess_audio audio orig_sr (_target_sr e) false)
    as [audio_rs|err]; [|discriminate].
  cbn [mbind outcome_bind obind].
  destruct (Float.gt (Heuristic.get (Features.extract_indicators audio_rs (_target_sr e))
                                    "rms_db" NegInf)
                     (Fin (rms_db_threshold (_config e)))) eqn:Hgt; cbn [negb].
  - intros Hrun. right.
    destruct (quality_finite _ _ Hgt) as (q & Hquality & Hq).
    rewrite Hquality in Hrun.
    set (e1 := match _enhancer e with
               | Some enh => let '(enh, out) := enhancer_process enh audio_rs in
                             (set_enhancer e (Some enh), out)
               | None => (e, audio_rs)
               end) in Hrun.
    assert (He1 : _ema (fst e1) = _ema e /\ _ema_alpha (fst e1) = _ema_alpha e /\
                  _target_sr (fst e1) = _target_sr e).
    { subst e1. destruct (_enhancer e) as [enh|]; [|repeat split].
      destruct (enhancer_process enh audio_rs). repeat split. }
    destruct e1 as [e1 audio_proc]. simpl in He1. destruct He1 as (Hema1 & Halpha1 & Hsr1).
    destruct (run_backend e1 audio_proc
                (Features.extract_indicators audio_proc (_target_sr e1)))
      as [[[[p rs] mc] e2]|err] eqn:Hback; [|discriminate].
    cbn [mbind outcome_bind obind] in Hrun.
    destruct (run_backend_state _ _ _ _ _ _ _ Hback) as (Hema2 & Halpha2 & _ & _ & _ & Hrs).
    injection Hrun as <- <-. split; [reflexivity|].
    exists p, mc, q. split; [assumption|].
    rewrite Hema2, Halpha2, Hema1, Halpha1. cbn.
    repeat split; try reflexivity. exact Hrs.
  - intros [= <- <-]. left. repeat split.
    destruct (_enhancer e); reflexivity.
Qed.

(** X20. Whatever the backend answers, the probabilities of a result
    of [infer_window] are numbers of the unit interval or not-a-number; the
    confidence of a window that is not speech is 0, and that of a speech
    window is not-a-number or lies between 0.15 and 1. *)
Theorem infer_window_ranges (e e' : VoiceGuardEngine) (audio : list R) (orig_sr : Z)
        (r : InferenceResult) :
  infer_window e audio orig_sr = Ok (r, e') ->
  unit_or_nan (p_fake r) /\ unit_or_nan (p_fake_smooth r) /\
  (is_speech r = false -> confidence r = Fin 0) /\
  (is_speech r = true ->
   confidence r = NaN \/ exists c, confidence r = Fin c /\ 15 / 100 <= c <= 1).
Proof.
  intros Hrun.
  destruct (infer_window_returns _ _ _ _ _ Hrun)
    as [(Hs & Hp & Hsm & Hc & _)|(Hs & p & mc & q & Hq & Hp & Hsm & _ & _ & Hc)].
  - rewrite Hp, Hsm, Hs. split; [left; reflexivity|]. split; [left; reflexivity|].
    split; [intros _; exact Hc | discriminate].
  - rewrite Hp, Hsm, Hs. split; [apply clamp_range|]. split; [apply clamp_range|].
    split; [discriminate|]. intros _. rewrite Hc.
    destruct (confidence_range q mc Hq) as [[_ Hnan]|(c & Hconf & Hrange)].
    + left. exact Hnan.
    + right. exists c. split; [exact Hconf | lra].
Qed.

(** X21. The smoothing state: [reset_state] clears it; a window that is
    not speech leaves it as it was; the first speech window after a reset has
    [p_fake_smooth] equal to [p_fake]; and with a factor [ema_alpha] in the
    unit interval, a later speech window whose probability lies strictly
    between 0 and 1 stores and reports the weighted mean of that probability
    and the state, which lies between the two. *)
Theorem smoothing_state (e e' : VoiceGuardEngine) (audio : list R) (orig_sr : Z)
        (r : InferenceResult) :
  infer_window e audio orig_sr = Ok (r, e') ->
  _ema (reset_state e') = None /\
  (is_speech r = false -> _ema e' = _ema e) /\
  (is_speech r = true -> _ema e = None -> p_fake_smooth r = p_fake r) /\
  (forall p m,
     p_fake r = Fin p -> 0 < p < 1 -> _ema e = Some (Fin m) -> 0 <= m <= 1 ->
     0 <= _ema_alpha e <= 1 ->
     let s := _ema_alpha e * p + (1 - _ema_alpha e) * m in
     p_fake_smooth r = Fin s /\ _ema e' = Some (Fin s) /\ Rmin p m <= s <= Rmax p m).
Proof.
  intros Hrun. split.
  { unfold reset_state. destruct (_enhancer (set_ema e' None)); reflexivity. }
  destruct (infer_window_returns _ _ _ _ _ Hrun)
    as [(Hs & Hp & _ & _ & _ & Hema)|(Hs & p & mc & q & _ & Hp & Hsm & Hema & _)].
  - rewrite Hs, Hp. split; [intros _; exact Hema|]. split; [discriminate|].
    intros p m Hfin. discriminate Hfin.
  - rewrite Hs. split; [discriminate|]. split.
    + intros _ Hnone. rewrite Hsm, Hp, Hnone. reflexivity.
    + intros p0 m Hfin Hp0 Hsome Hm Halpha s.
      rewrite Hp in Hfin. apply clamp_inside_inv in Hfin; [|assumption]. subst p.
      rewrite Hsome in Hsm, Hema. simpl in Hsm, Hema.
      assert (Hs01 : 0 <= s <= 1) by (subst s; nra).
      split; [rewrite Hsm, clamp_unit, clamp01_inside by exact Hs01; reflexivity|].
      split; [exact Hema|].
      unfold Rmin, Rmax. destruct (Rle_dec p0 m); subst s; nra.
Qed.

Lemma infer_window_preprocessed (e : VoiceGuardEngine) (audio audio_rs : list R)
      (orig_sr : Z) :
  backend e = heuristic ->
  Preprocess.preprocess_audio audio orig_sr (_target_sr e) false = Ok audio_rs ->
  exists r e', infer_window e audio orig_sr = Ok (r, e') /\ backend e' = heuristic.
Proof.
  intros Hb Hpre. unfold infer_window. rewrite Hpre. cbn [mbind outcome_bind obind].
  destruct (Float.gt _ _); cbn [negb].
  - destruct (_enhancer e) as [enh|]; [destruct (enhancer_process enh audio_rs) as [enh' out]|].
    + unfold run_backend.
      change (backend (set_enhancer e (Some enh'))) with (backend e). rewrite Hb.
      destruct (heuristic_p_fake_of_raw
                  (Features.extract_indicators out (_target_sr (set_enhancer e (Some enh')))))
        as [[_ Hp]|(raw & _ & _ & Hp)];
        rewrite Hp; cbn [mbind outcome_bind obind]; do 2 eexists;
        (split; [reflexivity | exact Hb]).
    + unfold run_backend. rewrite Hb.
      destruct (heuristic_p_fake_of_raw (Features.extract_indicators audio_rs (_target_sr e)))
        as [[_ Hp]|(raw & _ & _ & Hp)];
        rewrite Hp; cbn [mbind outcome_bind obind]; do 2 eexists;
        (split; [reflexivity | exact Hb]).
  - do 2 eexists. split; [reflexivity|]. destruct (_enhancer e); exact Hb.
Qed.

(** X22. With the heuristic backend and positive sample rates
    [infer_window] raises in one case only: the window has to be resampled
    and scipy is missing, and the error is then the [RuntimeError] of
    [resample_audio]. In every other case it returns a result, indicators
    that are not-a-number included, and the engine stays on the heuristic
    backend. *)
Theorem heuristic_backend_raises (e : VoiceGuardEngine) (audio : list R) (orig_sr : Z) :
  (0 < orig_sr)%Z -> (0 < _target_sr e)%Z ->
  backend e = heuristic ->
  (exists r e', infer_window e audio orig_sr = Ok (r, e') /\ backend e' = heuristic) \/
  (orig_sr <> _target_sr e /\ resample_poly = None /\
   infer_window e audio orig_sr = Raise (RuntimeError "scipy is required for resampling")).
Proof.
  intros _ _ Hb.
  destruct (Preprocess.preprocess_audio audio orig_sr (_target_sr e) false)
    as [audio_rs|err] eqn:Hpre.
  - left. exact (infer_window_preprocessed e audio audio_rs orig_sr Hb Hpre).
  - right. unfold infer_window. rewrite Hpre. cbn [mbind outcome_bind obind].
    revert Hpre. unfold Preprocess.preprocess_audio, Preprocess.resample_audio.
    destruct (Z.eqb_spec orig_sr (_target_sr e)); [discriminate|].
    destruct resample_poly; [destruct (length audio =? 0)%nat; discriminate|].
    cbn [mbind outcome_bind obind]. intros [= <-]. repeat split; assumption.
Qed.

End WithExternal.

Local Open Scope R_scope.

Lemma infer_window_ranges_witness :
  exists r e',
    infer_window Demo.demo_engine [1; 1] 2 = Ok (r, e') /\
    unit_or_nan (p_fake r) /\ unit_or_nan (p_fake_smooth r) /\
    (is_speech r = false -> confidence r = Fin 0) /\
    (is_speech r = true ->
     confidence r = NaN \/ exists c, confidence r = Fin c /\ 15 / 100 <= c <= 1).
Proof.
  destruct AnalysisFacts.demo_infer_window as (r & e' & Hrun & _).
  exists r, e'. split; [exact Hrun|].
  exact (infer_window_ranges (H := Demo.demo_external) _ _ _ _ _ Hrun).
Defined.

Lemma smoothing_state_witness :
  exists r e',
    infer_window Demo.demo_engine [1; 1] 2 = Ok (r, e') /\
    _ema (reset_state e') = None /\
    (is_speech r = false -> _ema e' = _ema Demo.demo_engine) /\
    (is_speech r = true -> _ema Demo.demo_engine = None -> p_fake_smooth r = p_fake r) /\
    (forall p m,
       p_fake r = Fin p -> 0 < p < 1 -> _ema Demo.demo_engine = Some (Fin m) -> 0 <= m <= 1 ->
       0 <= _ema_alpha Demo.demo_engine <= 1 ->
       let s := _ema_alpha Demo.demo_engine * p + (1 - _ema_alpha Demo.demo_engine) * m in
       p_fake_smooth r = Fin s /\ _ema e' = Some (Fin s) /\ Rmin p m <= s <= Rmax p m).
Proof.
  destruct AnalysisFacts.demo_infer_window as (r & e' & Hrun & _).
  exists r, e'. split; [exact Hrun|].
  exact (smoothing_state (H := Demo.demo_external) _ _ _ _ _ Hrun).
Defined.

Lemma heuristic_backend_raises_witness :
  (0 < 2)%Z /\ (0 < _target_sr heuristic_engine)%Z /\
  backend heuristic_engine = heuristic /\
  ((exists r e', infer_window heuristic_engine [1; 1] 2 = Ok (r, e') /\
                 backend e' = heuristic) \/
   (2%Z <> _target_sr heuristic_engine /\ @resample_poly Demo.demo_external = None /\
    infer_window heuristic_engine [1; 1] 2 =
    Raise (RuntimeError "scipy is required for resampling"))).
Proof.
  assert (Hrate : (0 < 2)%Z) by lia.
  assert (Htarget : (0 < _target_sr heuristic_engine)%Z) by reflexivity.
  split; [exact Hrate|]. split; [exact Htarget|]. split; [reflexivity|].
  exact (heuristic_backend_raises (H := Demo.demo_external) heuristic_engine [1; 1] 2
           Hrate Htarget eq_refl).
Defined.

End EngineMore.

(** ** Analysis of a clip: windows listed, alert segments, empty input *)

Module AnalysisMore.
Import Py PyNotions PyFacts Windowing WindowingNotions WindowingFacts WindowingMore.
Import Alerts AlertsNotions AlertsFacts Engine Analysis AnalysisNotions AnalysisFacts Demo.

Lemma iter_windows_count (w hop : Z) (audio : list R) (windows : list (Z * list R)) :
  0 < w -> 0 < hop -> iter_windows 0%R audio w hop = Ok windows ->
  Z.of_nat (length windows) = estimate_num_windows (Z.of_nat (length audio)) w hop /\
  forall (k : nat) start win, windows !! k = Some (start, win) -> start = Z.of_nat k * hop.
Proof.
  intros Hw Hhop. unfold estimate_num_windows.
  destruct (Z.leb_spec w 0); [lia|]. destruct (Z.leb_spec hop 0); [lia|].
  destruct (Z_lt_le_dec (Z.of_nat (length audio)) w) as [Hshort|Hlong].
  - unfold iter_windows.
    destruct (Z.eqb_spec (Z.of_nat (length audio)) 0) as [Hzero|Hpos].
    + intros [= <-]. rewrite Hzero. split; [reflexivity|]. intros k start win Hk.
      discriminate Hk.
    + destruct (Z.ltb_spec (Z.of_nat (length audio)) w); [|lia].
      intros [= <-]. destruct (Z.leb_spec (Z.of_nat (length audio)) 0); [lia|].
      split; [reflexivity|]. intros k start win Hk.
      destruct k as [|k]; [|discriminate Hk]. injection Hk as <- <-. lia.
  - rewrite iter_windows_long by assumption. intros [= <-].
    destruct (Z.leb_spec (Z.of_nat (length audio)) 0); [lia|].
    destruct (Z.ltb_spec (Z.of_nat (length audio)) w); [lia|]. split.
    + unfold whole_windows. rewrite !length_map, rng_length by assumption.
      destruct (Z.ltb_spec 0 (Z.of_nat (length audio) - w + 1)); [|lia].
      do 2 f_equal. lia.
    + intros k start win Hk. unfold whole_windows in Hk.
      rewrite !list_lookup_fmap in Hk.
      destruct (rng 0 (Z.of_nat (length audio) - w + 1) hop !! k) as [x|] eqn:Hx;
        [|discriminate Hk].
      apply rng_lookup in Hx as [Hx _]; [|assumption].
      simpl in Hk. injection Hk as <- _. lia.
Qed.

Section WithExternal.
Context `{External}.
Local Open Scope R_scope.

(** The window scores the loop appends, one for each item in order. *)
Lemma score_windows_appends (target_sr window_samples : Z) (source_kind : string)
      (items : list (Z * list R)) :
  forall st st',
  score_windows target_sr window_samples source_kind items st = Ok st' ->
  exists ws,
    ls_windows st' = ls_windows st ++ ws /\
    Forall2 (fun item w =>
               t_start w = IZR (fst item) / IZR target_sr /\
               t_end w = IZR (fst item + window_samples) / IZR target_sr)
            items ws.
Proof.
  induction items as [|[start win] rest IH]; intros st st' Hrun.
  - simpl in Hrun. injection Hrun as <-. exists []. rewrite app_nil_r.
    split; [reflexivity | constructor].
  - simpl in Hrun.
    destruct (infer_window (ls_engine st) win target_sr) as [[res engine]|e]; [|discriminate].
    cbn [mbind outcome_bind obind] in Hrun.
    destruct (IH _ _ Hrun) as (ws & Hws & Hall). simpl in Hws.
    eexists (_ :: ws). split; [rewrite Hws, <- app_assoc; reflexivity|].
    constructor; [split; reflexivity | exact Hall].
Qed.

Lemma speech_p_vals_length (windows : list WindowScore) :
  (length (speech_p_vals windows) <= length windows)%nat.
Proof.
  unfold speech_p_vals. rewrite length_map.
  induction windows as [|w l IH]; simpl; [lia|].
  destruct (is_speech (result w) && negb (Float.isnan (p_fake (result w)))); simpl; lia.
Qed.

Lemma summarize_counts (engine : VoiceGuardEngine) (alert : AlertTracker)
      (windows : list WindowScore) (audio_rs : list R) (config : AppConfig)
      (target_sr total : Z) (s : AnalysisSummary) :
  summarize engine alert windows audio_rs config target_sr total = Ok s ->
  total_windows s = total /\
  speech_windows s = Z.of_nat (length (speech_p_vals windows)) /\
  alert_segments s = segments alert /\
  duration_sec s = (if (0 <? target_sr)%Z then INR (length audio_rs) / IZR target_sr else 0).
Proof.
  unfold summarize.
  destruct (whole_clip _ _ _ _ _ _); [|discriminate].
  cbn [mbind outcome_bind obind]. intros [= <-]. repeat split.
Qed.

Lemma window_params_ok (sample_rate : Z) (window_sec hop_sec : R) (w hop : Z) :
  window_params sample_rate window_sec hop_sec = Ok (w, hop) ->
  (0 < w)%Z /\ (0 < hop)%Z /\
  w = _sec_to_samples window_sec sample_rate /\ hop = _sec_to_samples hop_sec sample_rate.
Proof.
  unfold window_params.
  destruct (Z.leb_spec (_sec_to_samples window_sec sample_rate) 0); [discriminate|].
  destruct (Z.leb_spec (_sec_to_samples hop_sec sample_rate) 0); [discriminate|].
  intros [= <- <-]. repeat split; assumption.
Qed.

(** What a run of [analyze_audio] that returns went through. *)
Lemma analyze_audio_returns (engine : VoiceGuardEngine) (audio : list R) (orig_sr : Z)
      (config : AppConfig) (source_kind source : string) (res : AnalysisResult) :
  analyze_audio engine audio orig_sr config source_kind source = Ok res ->
  exists audio_rs w hop items st,
    Preprocess.preprocess_audio audio orig_sr (sample_rate config) false = Ok audio_rs /\
    window_params (sample_rate config) (window_sec config) (hop_sec config) = Ok (w, hop) /\
    Windowing.iter_windows 0 audio_rs w hop = Ok items /\
    score_windows (sample_rate config) w source_kind items
      (mkLoopState (reset_state engine) (make_alert config source_kind) []) = Ok st /\
    windows res = ls_windows st /\
    summarize (ls_engine st) (finalize_alert (ls_alert st) (ls_windows st)) (ls_windows st)
      audio_rs config (sample_rate config)
      (Windowing.estimate_num_windows (Z.of_nat (length audio_rs)) w hop)
    = Ok (summary res).
Proof.
  unfold analyze_audio.
  destruct (Preprocess.preprocess_audio audio orig_sr (sample_rate config) false)
    as [audio_rs|e]; [|discriminate].
  cbn [mbind outcome_bind obind].
  destruct (window_params (sample_rate config) (window_sec config) (hop_sec config))
    as [[w hop]|e]; [|discriminate].
  cbn [mbind outcome_bind obind].
  destruct (Windowing.iter_windows 0 audio_rs w hop) as [items|e] eqn:Hitems; [|discriminate].
  cbn [mbind outcome_bind obind].
  destruct (score_windows (sample_rate config) w source_kind items _) as [st|e] eqn:Hloop;
    [|discriminate].
  cbn [mbind outcome_bind obind].
  destruct (summarize _ _ _ _ _ _ _) as [s|e] eqn:Hsum; [|discriminate].
  cbn [mbind outcome_bind obind]. intros [= <-].
  exists audio_rs, w, hop, items, st.
  split; [reflexivity|]. split; [reflexivity|]. split; [exact Hitems|].
  split; [exact Hloop|]. split; [reflexivity | exact Hsum].
Qed.

(** X23. In a result of [analyze_audio] the summary's [total_windows],
    computed ahead by [estimate_num_windows], is the number of window scores
    listed; [speech_windows] lies between 0 and it; and the [k]-th window
    score covers the samples from [k * hop_samples] to
    [k * hop_samples + window_samples], in seconds, whether the signal had to
    be padded or not. *)
Theorem analysis_lists_every_window (engine : VoiceGuardEngine) (audio : list R)
        (orig_sr : Z) (config : AppConfig) (source_kind source : string)
        (res : AnalysisResult) :
  analyze_audio engine audio orig_sr config source_kind source = Ok res ->
  Z.of_nat (length (windows res)) = total_windows (summary res) /\
  (0 <= speech_windows (summary res) <= total_windows (summary res))%Z /\
  exists w hop,
    window_params (sample_rate config) (window_sec config) (hop_sec config) = Ok (w, hop) /\
    forall (k : nat) ws,
      windows res !! k = Some ws ->
      t_start ws = IZR (Z.of_nat k * hop) / IZR (sample_rate config) /\
      t_end ws = IZR (Z.of_nat k * hop + w) / IZR (sample_rate config).
Proof.
  intros Hrun.
  destruct (analyze_audio_returns _ _ _ _ _ _ _ Hrun)
    as (audio_rs & w & hop & items & st & _ & Hparams & Hitems & Hloop & Hwin & Hsum).
  destruct (window_params_ok _ _ _ _ _ Hparams) as (Hw & Hhop & _).
  destruct (iter_windows_count w hop audio_rs items Hw Hhop Hitems) as [Hcount Hstarts].
  destruct (score_windows_appends _ _ _ _ _ _ Hloop) as (ws & Hws & Hall).
  simpl in Hws. destruct (summarize_counts _ _ _ _ _ _ _ _ Hsum) as (Htotal & Hspeech & _).
  pose proof (Forall2_length _ _ _ Hall) as Hlen.
  pose proof (speech_p_vals_length (ls_windows st)) as Hle.
  rewrite Hwin, Htotal, Hspeech, <- Hcount, Hlen. rewrite Hws in *.
  split; [reflexivity|]. split; [lia|].
  exists w, hop. split; [exact Hparams|]. intros k x Hk.
  destruct (Forall2_lookup_r _ _ _ _ _ Hall Hk) as ([start win] & Hitem & Hstart & Hend).
  simpl in Hstart, Hend. rewrite (Hstarts _ _ _ Hitem) in Hstart, Hend. split; assumption.
Qed.

Lemma round_positive (x : R) : (0 < Float.round x)%Z -> 0 <= x.
Proof.
  unfold Float.round. destruct (base_Int_part x) as [Hlow Hhigh].
  assert (Hcases : forall n : Z, (0 < n)%Z -> (n = Int_part x \/ n = Int_part x + 1)%Z -> 0 <= x).
  { intros n Hn Hor.
    assert (0 <= Int_part x)%Z by lia.
    assert (0 <= IZR (Int_part x)) by (apply IZR_le; assumption). lra. }
  intros Hpos. apply (Hcases _ Hpos).
  repeat case_bool_decide; try (left; reflexivity); try (right; reflexivity).
  destruct (Z.even (Int_part x)); [left | right]; reflexivity.
Qed.

(** The tracker stays well formed along the loop of [analyze_audio], over
    windows that start [hop] samples apart. *)
Lemma score_windows_tracked (sr w hop : Z) (step : R) (source_kind : string) :
  (0 < sr)%Z -> (0 <= w)%Z -> step * IZR sr <= IZR hop ->
  forall (items : list (Z * list R)) (base : Z) (st st' : LoopState) (now : R),
  (forall (k : nat) start win,
     items !! k = Some (start, win) -> start = (base + Z.of_nat k * hop)%Z) ->
  tracked (ls_alert st) now -> _step_sec (ls_alert st) = step ->
  (forall x, last (ls_windows st) = Some x -> t_end x = now) ->
  now + step <= IZR (base + w) / IZR sr ->
  score_windows sr w source_kind items st = Ok st' ->
  exists now',
    tracked (ls_alert st') now' /\
    (forall x, last (ls_windows st') = Some x -> t_end x = now').
Proof.
  intros Hsr Hw Hhop.
  assert (Hsr' : 0 < IZR sr) by (apply IZR_lt; assumption).
  assert (Hstep : step <= IZR hop / IZR sr).
  { apply Rmult_le_reg_r with (IZR sr); [assumption|].
    unfold Rdiv. rewrite Rmult_assoc, Rinv_l by lra. lra. }
  induction items as [|[start win] rest IH];
    intros base st st' now Hstarts Htr Hstep_eq Hlast Hfirst Hrun.
  - simpl in Hrun. injection Hrun as <-. exists now. split; assumption.
  - simpl in Hrun.
    destruct (infer_window (ls_engine st) win sr) as [[res engine]|e]; [|discriminate].
    cbn [mbind outcome_bind obind] in Hrun.
    assert (Hbase : start = base).
    { rewrite (Hstarts 0%nat start win eq_refl). lia. }
    subst start.
    assert (Hspan : IZR base / IZR sr <= IZR (base + w) / IZR sr).
    { unfold Rdiv. apply Rmult_le_compat_r; [left; apply Rinv_0_lt_compat; assumption|].
      apply IZR_le. lia. }
    assert (Hnext : IZR (base + w) / IZR sr + step <= IZR (base + hop + w) / IZR sr).
    { replace (base + hop + w)%Z with ((base + w) + hop)%Z by lia.
      rewrite (plus_IZR (base + w) hop). unfold Rdiv in *. rewrite Rmult_plus_distr_r. lra. }
    set (alert := if is_speech res
                  then fst (update (ls_alert st) (IZR base / IZR sr)
                              (IZR (base + w) / IZR sr) (p_alert source_kind res) true)
                  else fst (update (ls_alert st) (IZR base / IZR sr)
                              (IZR (base + w) / IZR sr) (Fin 0) false)) in Hrun.
    assert (Halert : tracked alert (IZR (base + w) / IZR sr) /\ _step_sec alert = step).
    { rewrite <- Hstep_eq in Hfirst. subst alert. rewrite <- Hstep_eq.
      destruct (is_speech res).
      - apply (update_tracked (ls_alert st) now
                 (mkCall (IZR base / IZR sr) (IZR (base + w) / IZR sr)
                         (p_alert source_kind res) true)); assumption.
      - apply (update_tracked (ls_alert st) now
                 (mkCall (IZR base / IZR sr) (IZR (base + w) / IZR sr) (Fin 0) false));
          assumption. }
    destruct Halert as [Htr1 Hstep1].
    apply (IH (base + hop)%Z _ _ (IZR (base + w) / IZR sr)) in Hrun; try assumption.
    + intros k start win' Hk. rewrite (Hstarts (S k) start win' Hk). lia.
    + simpl. intros x Hx. rewrite last_snoc in Hx. injection Hx as <-. reflexivity.
Qed.

(** X24. The alert segments of an analysis do not overlap: when the
    sample rate is positive and the hop, converted to samples, is not rounded
    down, every segment of the summary ends no earlier than it starts and no
    later than each later segment starts. *)
Theorem analysis_segments_separated (engine : VoiceGuardEngine) (audio : list R)
        (orig_sr : Z) (config : AppConfig) (source_kind source : string)
        (res : AnalysisResult) :
  (0 < sample_rate config)%Z ->
  hop_sec config * IZR (sample_rate config)
    <= IZR (_sec_to_samples (hop_sec config) (sample_rate config)) ->
  analyze_audio engine audio orig_sr config source_kind source = Ok res ->
  let segs := alert_segments (summary res) in
  (forall a, a ∈ segs -> start_sec a <= end_sec a) /\
  (forall (i j : nat) a b, (i < j)%nat -> segs !! i = Some a -> segs !! j = Some b ->
     end_sec a <= start_sec b).
Proof.
  intros Hsr Hround Hrun segs. apply separated_lookup. subst segs.
  destruct (analyze_audio_returns _ _ _ _ _ _ _ Hrun)
    as (audio_rs & w & hop & items & st & _ & Hparams & Hitems & Hloop & _ & Hsum).
  destruct (window_params_ok _ _ _ _ _ Hparams) as (Hw & Hhop & _ & Hhop_eq).
  destruct (iter_windows_count w hop audio_rs items Hw Hhop Hitems) as [_ Hstarts].
  destruct (summarize_counts _ _ _ _ _ _ _ _ Hsum) as (_ & _ & -> & _).
  assert (Hsr' : 0 < IZR (sample_rate config)) by (apply IZR_lt; assumption).
  assert (Hstep : 0 <= hop_sec config).
  { assert (0 <= hop_sec config * IZR (sample_rate config)).
    { apply round_positive. unfold _sec_to_samples in Hhop_eq. rewrite <- Hhop_eq. exact Hhop. }
    nra. }
  rewrite <- Hhop_eq in Hround.
  assert (Htracked : exists now,
            tracked (ls_alert st) now /\
            (forall x, last (ls_windows st) = Some x -> t_end x = now)).
  { apply (score_windows_tracked (sample_rate config) w hop (hop_sec config) source_kind
             Hsr ltac:(lia) Hround items 0%Z
             (mkLoopState (reset_state engine) (make_alert config source_kind) []) st
             (IZR (0 + w) / IZR (sample_rate config) - hop_sec config)).
    - intros k start win Hk. rewrite (Hstarts k start win Hk). lia.
    - constructor; simpl; try lra; try constructor; discriminate.
    - reflexivity.
    - simpl. discriminate.
    - lra.
    - exact Hloop. }
  destruct Htracked as (now & Htr & Hlast).
  unfold finalize_alert, finalize, segments.
  destruct (last (ls_windows st)) as [x|] eqn:Hx.
  - rewrite (Hlast x eq_refl).
    apply (tk_separated _ _ (close_alert_tracked _ now now Htr ltac:(lra))).
  - apply (tk_separated _ _ Htr).
Qed.

(** X25. An empty signal is analysed without inference: when the window
    parameters are valid and the signal needs no resampling or scipy is
    there, [analyze_audio] returns a result with no window, no alert segment,
    a duration of 0 and every score equal to 0. *)
Theorem analysis_of_empty_audio (engine : VoiceGuardEngine) (orig_sr : Z)
        (config : AppConfig) (source_kind source : string) (w hop : Z) :
  window_params (sample_rate config) (window_sec config) (hop_sec config) = Ok (w, hop) ->
  orig_sr = sample_rate config \/ resample_poly <> None ->
  analyze_audio engine [] orig_sr config source_kind source =
  Ok (mkAnalysisResult source_kind source (sample_rate config) (window_sec config)
        (hop_sec config) (backend_name (backend engine)) []
        (mkAnalysisSummary 0 0 0 (Fin 0) (Fin 0) (Fin 0) (Fin 0) (Fin 0) (Fin 0) (Fin 0)
                           (Fin 0) [])).
Proof.
  intros Hparams Hrate. unfold analyze_audio.
  assert (Hpre : Preprocess.preprocess_audio [] orig_sr (sample_rate config) false = Ok []).
  { unfold Preprocess.preprocess_audio, Preprocess.resample_audio.
    destruct (orig_sr =? sample_rate config)%Z eqn:Heq; [reflexivity|].
    destruct resample_poly; [reflexivity|].
    destruct Hrate as [Hrate|Hrate]; [|contradiction].
    apply Z.eqb_neq in Heq. contradiction. }
  rewrite Hpre. cbn [mbind outcome_bind obind]. rewrite Hparams.
  cbn [mbind outcome_bind obind]. unfold Windowing.iter_windows. simpl length.
  change (Z.of_nat 0) with 0%Z.
  cbn [Z.eqb mbind outcome_bind obind score_windows ls_windows ls_alert ls_engine].
  unfold finalize_alert, summarize, whole_clip. simpl speech_p_vals.
  simpl length. cbn [Nat.eqb negb map last]. rewrite andb_false_r.
  cbn [mbind outcome_bind obind]. rewrite max_same.
  assert (Hbackend : backend (reset_state engine) = backend engine).
  { unfold reset_state. destruct (_enhancer (set_ema engine None)); reflexivity. }
  rewrite Hbackend.
  assert (Hduration : (if (0 <? sample_rate config)%Z
                       then INR 0 / IZR (sample_rate config) else 0) = 0).
  { destruct (0 <? sample_rate config)%Z; [|reflexivity]. simpl INR. unfold Rdiv. lra. }
  simpl length. rewrite Hduration. reflexivity.
Qed.

End WithExternal.

Local Open Scope R_scope.

Lemma analysis_lists_every_window_witness :
  exists res,
    analyze_audio demo_engine [1; 1] 2 demo_config "file" "clip" = Ok res /\
    Z.of_nat (length (windows res)) = total_windows (summary res) /\
    (0 <= speech_windows (summary res) <= total_windows (summary res))%Z /\
    exists w hop,
      window_params (sample_rate demo_config) (window_sec demo_config) (hop_sec demo_config)
        = Ok (w, hop) /\
      forall (k : nat) ws,
        windows res !! k = Some ws ->
        t_start ws = IZR (Z.of_nat k * hop) / IZR (sample_rate demo_config) /\
        t_end ws = IZR (Z.of_nat k * hop + w) / IZR (sample_rate demo_config).
Proof.
  destruct demo_analysis as (res & Hrun & _).
  exists res. split; [exact Hrun|].
  exact (analysis_lists_every_window (H := demo_external) _ _ _ _ _ _ _ Hrun).
Defined.

Lemma demo_hop_not_rounded_down :
  hop_sec demo_config * IZR (sample_rate demo_config)
    <= IZR (_sec_to_samples (hop_sec demo_config) (sample_rate demo_config)).
Proof.
  change (hop_sec demo_config) with 1. change (sample_rate demo_config) with 2%Z.
  unfold _sec_to_samples. replace (1 * IZR 2) with (IZR 2) by lra.
  rewrite round_IZR. lra.
Qed.

Lemma analysis_segments_separated_witness :
  (0 < sample_rate demo_config)%Z /\
  hop_sec demo_config * IZR (sample_rate demo_config)
    <= IZR (_sec_to_samples (hop_sec demo_config) (sample_rate demo_config)) /\
  exists res,
    analyze_audio demo_engine [1; 1] 2 demo_config "file" "clip" = Ok res /\
    let segs := alert_segments (summary res) in
    (forall a, a ∈ segs -> start_sec a <= end_sec a) /\
    (forall (i j : nat) a b, (i < j)%nat -> segs !! i = Some a -> segs !! j = Some b ->
       end_sec a <= start_sec b).
Proof.
  assert (Hsr : (0 < sample_rate demo_config)%Z) by reflexivity.
  split; [exact Hsr|]. split; [exact demo_hop_not_rounded_down|].
  destruct demo_analysis as (res & Hrun & _).
  exists res. split; [exact Hrun|].
  exact (analysis_segments_separated (H := demo_external) _ _ _ _ _ _ _ Hsr
           demo_hop_not_rounded_down Hrun).
Defined.

Lemma analysis_of_empty_audio_witness :
  window_params (sample_rate demo_config) (window_sec demo_config) (hop_sec demo_config)
    = Ok (2%Z, 2%Z) /\
  (2%Z = sample_rate demo_config \/ @resample_poly demo_external <> None) /\
  analyze_audio demo_engine [] 2 demo_config "file" "clip" =
  Ok (mkAnalysisResult "file" "clip" (sample_rate demo_config) (window_sec demo_config)
        (hop_sec demo_config) (backend_name (backend demo_engine)) []
        (mkAnalysisSummary 0 0 0 (Fin 0) (Fin 0) (Fin 0) (Fin 0) (Fin 0) (Fin 0) (Fin 0)
                           (Fin 0) [])).
Proof.
  assert (Hrate : 2%Z = sample_rate demo_config \/ @resample_poly demo_external <> None)
    by (left; reflexivity).
  split; [exact demo_window_params|]. split; [exact Hrate|].
  exact (analysis_of_empty_audio (H := demo_external) demo_engine 2 demo_config "file" "clip"
           2 2 demo_window_params Hrate).
Defined.

End AnalysisMore.

(** ** Presentation of a probability *)

Module PresentationMore.
Import Presentation PresentationNotions.
Local Open Scope R_scope.

Lemma unit_clip_finite (r : R) :
  unit_clip (Fin r) = Fin (if bool_decide (1 < r) then 1 else if bool_decide (0 < r) then r else 0).
Proof.
  unfold unit_clip, Float.max, Float.min, Float.gt.
  destruct (bool_decide_reflect (r < 1)) as [Hlt|Hge]; simpl.
  - rewrite (bool_decide_eq_true_2 (r < 1) Hlt).
    rewrite (bool_decide_eq_false_2 (1 < r)) by lra. simpl.
    destruct (bool_decide_reflect (0 < r)); reflexivity.
  - rewrite (bool_decide_eq_false_2 (r < 1) Hge). simpl.
    rewrite (bool_decide_eq_true_2 (0 < 1)) by lra.
    destruct (bool_decide_reflect (1 < r)); [reflexivity|].
    rewrite (bool_decide_eq_true_2 (0 < r)) by lra. f_equal. lra.
Qed.

Lemma unit_clip_range (x : pyfloat) : exists c, unit_clip x = Fin c /\ 0 <= c <= 1.
Proof.
  destruct x as [r| | |].
  - rewrite unit_clip_finite. eexists. split; [reflexivity|].
    repeat case_bool_decide; lra.
  - exists 1. unfold unit_clip, Float.max, Float.min, Float.gt, Float.lt. simpl.
    rewrite bool_decide_eq_true_2 by lra. split; [reflexivity | lra].
  - exists 0. unfold unit_clip, Float.max, Float.min, Float.gt, Float.lt. simpl.
    split; [reflexivity | lra].
  - exists 1. unfold unit_clip, Float.max, Float.min, Float.gt, Float.lt. simpl.
    rewrite bool_decide_eq_true_2 by lra. split; [reflexivity | lra].
Qed.

Lemma unit_clip_mono (p p' : R) :
  p <= p' -> exists c c', unit_clip (Fin p) = Fin c /\ unit_clip (Fin p') = Fin c' /\ c <= c'.
Proof.
  intros Hle. rewrite !unit_clip_finite. do 2 eexists.
  split; [reflexivity|]. split; [reflexivity|]. repeat case_bool_decide; lra.
Qed.

Lemma make_verdict_color (p th : R) (confidence : pyfloat) (x threshold : pyfloat) :
  unit_clip x = Fin p -> unit_clip threshold = Fin th ->
  color (make_verdict (Some x) confidence threshold) =
  if bool_decide (th <= p) then "#ef4444"%string
  else if bool_decide (th * (60 / 100) <= p) then "#f59e0b"%string
  else "#22c55e"%string.
Proof.
  intros Hp Hth. unfold make_verdict. rewrite Hp, Hth. unfold Float.ge, Float.le. simpl.
  repeat case_bool_decide; reflexivity.
Qed.

(** X26. A probability that is not-a-number is presented as the worst
    case: whatever the threshold and the confidence, [make_verdict] returns
    the red verdict for it and [format_percent] prints it as 100%, because
    [min(1.0, nan)] is 1.0; the engine's [_clamp], with its arguments the
    other way round, keeps not-a-number. *)
Theorem verdict_of_not_a_number (confidence threshold : pyfloat) :
  color (make_verdict (Some NaN) confidence threshold) = "#ef4444"%string /\
  title (make_verdict (Some NaN) confidence threshold) =
    "Высокая вероятность: голос сгенерирован ИИ (не человек)"%string /\
  format_percent (Some NaN) = "100%"%string /\
  Float._clamp NaN (Fin 0) (Fin 1) = NaN.
Proof.
  assert (Hnan : unit_clip NaN = Fin 1).
  { unfold unit_clip, Float.max, Float.min, Float.gt, Float.lt. simpl.
    rewrite bool_decide_eq_true_2 by lra. reflexivity. }
  destruct (unit_clip_range threshold) as (th & Hth & Hrange).
  assert (Hred : Float.ge (unit_clip NaN) (unit_clip threshold) = true).
  { rewrite Hnan, Hth. unfold Float.ge, Float.le. apply bool_decide_eq_true_2. lra. }
  split; [|split; [|split; [|reflexivity]]].
  - unfold make_verdict. rewrite Hred. reflexivity.
  - unfold make_verdict. rewrite Hred. reflexivity.
  - unfold format_percent. rewrite Hnan. simpl Float.mul. unfold format_0f.
    replace (1 * 100) with (IZR 100) by lra. rewrite AnalysisFacts.round_IZR.
    rewrite bool_decide_eq_false_2 by lra. reflexivity.
Qed.

(** X27. The colour and the title of a verdict do not depend on the
    confidence, and the verdict never gets milder when the probability
    grows: for numbers [p <= p'] and any threshold, the verdict of [p'] is at
    least as severe as that of [p]. *)
Theorem verdict_is_monotone (p p' : R) (confidence confidence' threshold : pyfloat) :
  p <= p' ->
  (severity (make_verdict (Some (Fin p)) confidence threshold)
   <= severity (make_verdict (Some (Fin p')) confidence' threshold))%nat /\
  color (make_verdict (Some (Fin p)) confidence threshold) =
    color (make_verdict (Some (Fin p)) confidence' threshold) /\
  title (make_verdict (Some (Fin p)) confidence threshold) =
    title (make_verdict (Some (Fin p)) confidence' threshold).
Proof.
  intros Hle.
  destruct (unit_clip_mono p p' Hle) as (c & c' & Hc & Hc' & Hcc).
  destruct (unit_clip_range threshold) as (th & Hth & Hrange).
  split; [|split].
  - unfold severity.
    rewrite (make_verdict_color c th confidence _ _ Hc Hth).
    rewrite (make_verdict_color c' th confidence' _ _ Hc' Hth).
    repeat case_bool_decide; simpl; try lia; lra.
  - rewrite (make_verdict_color c th confidence _ _ Hc Hth).
    rewrite (make_verdict_color c th confidence' _ _ Hc Hth). reflexivity.
  - unfold make_verdict. destruct (Float.ge _ _); [reflexivity|].
    destruct (Float.ge _ _); reflexivity.
Qed.

Lemma verdict_is_monotone_witness :
  2 / 10 <= 9 / 10 /\
  (severity (make_verdict (Some (Fin (2 / 10))) (Fin 1) (Fin (8 / 10)))
   <= severity (make_verdict (Some (Fin (9 / 10))) (Fin 0) (Fin (8 / 10))))%nat /\
  color (make_verdict (Some (Fin (2 / 10))) (Fin 1) (Fin (8 / 10))) =
    color (make_verdict (Some (Fin (2 / 10))) (Fin 0) (Fin (8 / 10))) /\
  title (make_verdict (Some (Fin (2 / 10))) (Fin 1) (Fin (8 / 10))) =
    title (make_verdict (Some (Fin (2 / 10))) (Fin 0) (Fin (8 / 10))).
Proof.
  assert (Hle : 2 / 10 <= 9 / 10) by lra.
  split; [exact Hle|].
  exact (verdict_is_monotone (2 / 10) (9 / 10) (Fin 1) (Fin 0) (Fin (8 / 10)) Hle).
Defined.

End PresentationMore.

(** ** The frequency scales of the mel filter bank *)

Module MelMore.
Import Mel.
Local Open Scope R_scope.

(** X28. In exact arithmetic the two frequency scales are inverse to
    each other: for every frequency above -700 Hz, [_mel_to_hz] of
    [_hz_to_mel] is the frequency itself, 0 Hz being 0 mel; and
    [_hz_to_mel] is increasing there. *)
Theorem mel_round_trip (hz hz' : R) :
  - 700 < hz ->
  _mel_to_hz (_hz_to_mel hz) = Fin hz /\
  _hz_to_mel 0 = Fin 0 /\
  (hz < hz' ->
   exists m m', _hz_to_mel hz = Fin m /\ _hz_to_mel hz' = Fin m' /\ m < m').
Proof.
  intros Hhz.
  assert (Hln : 0 < ln 10) by apply VadFacts.ln_10_pos.
  assert (Hpos : 0 < 1 + hz / 700) by lra.
  split; [|split].
  - unfold _hz_to_mel, Vad.np_log10. rewrite bool_decide_eq_true_2 by exact Hpos.
    unfold _mel_to_hz, Float.div_const, Float.sub. simpl. f_equal.
    replace (2595 * Vad.log10 (1 + hz / 700) * / 2595) with (Vad.log10 (1 + hz / 700))
      by (field).
    unfold Rpower, Vad.log10.
    replace (ln (1 + hz / 700) / ln 10 * ln 10) with (ln (1 + hz / 700)) by (field; lra).
    rewrite exp_ln by exact Hpos. lra.
  - unfold _hz_to_mel, Vad.np_log10. rewrite bool_decide_eq_true_2 by lra. simpl. f_equal.
    unfold Vad.log10. replace (1 + 0 / 700) with 1 by lra. rewrite ln_1. lra.
  - intros Hlt. unfold _hz_to_mel, Vad.np_log10.
    rewrite !bool_decide_eq_true_2 by lra. simpl. do 2 eexists.
    split; [reflexivity|]. split; [reflexivity|].
    assert (ln (1 + hz / 700) < ln (1 + hz' / 700)) by (apply ln_increasing; lra).
    unfold Vad.log10. apply Rmult_lt_compat_l; [lra|].
    unfold Rdiv. apply Rmult_lt_compat_r; [apply Rinv_0_lt_compat; exact Hln | assumption].
Qed.

Lemma mel_round_trip_witness :
  - 700 < 440 /\
  _mel_to_hz (_hz_to_mel 440) = Fin 440 /\
  _hz_to_mel 0 = Fin 0 /\
  (440 < 880 ->
   exists m m', _hz_to_mel 440 = Fin m /\ _hz_to_mel 880 = Fin m' /\ m < m').
Proof.
  assert (Hhz : - 700 < 440) by lra.
  split; [exact Hhz|]. exact (mel_round_trip 440 880 Hhz).
Defined.

End MelMore.
